(** * Cora simulation engine: lending pool, fee grid, agents and strategies

    A shallow embedding of the parts of the simulator that the
    specification makes claims about, followed by the theorems that settle
    them.

    Conventions of the embedding.
    - Python [float] amounts are exact rationals [Q]; rounding and NaN are
      outside the model.  Python's [a / b] raises [ZeroDivisionError] on a
      zero divisor, which is written out ([pydiv]); the float power [**]
      returns a float or raises ([ZeroDivisionError], [OverflowError]).
    - [datetime] and [timedelta] values are integers counting microseconds
      (the resolution of Python's [datetime] module).
    - A [Dict[str, _]] is a [gmap string _]; subscripting a missing key
      raises [KeyError], written out at each use.  A dictionary that the
      code reads back in order (the loans of a pool, the pools of the
      protocol) keeps its items in insertion order.
    - Methods that mutate [self] or an agent's wallet are computations in a
      state-and-exception monad.  A raised exception carries the state at
      the point of the [raise], so what a failed call has already mutated
      stays visible.
    - Log and event message strings (f-string renderings of floats and
      dates) and [print] calls are not modelled; events and actions keep
      their [type] and the structured payload.
    - Record fields keep the source's attribute names, leading underscore
      included. *)

From Stdlib Require Import ZArith QArith Lqa Lia.
From stdpp Require Import gmap strings list pretty.
From Equations Require Import Equations.
From stdpp Require Import sorting.
From Stdlib Require Import Qround.

#[local] Open Scope Z_scope.

(** ** Python exceptions *)

(** The exception classes of [protocols/cora/v1/exceptions/exceptions.py]. *)
Inductive PoolError : Type :=
  | ExistingNameError
  | InsufficientLiquidityError
  | InsufficientBalanceError
  | InsuficientCollateralError
  | NonExistingBorrowerAddress
  | InvalidLoanId
  | LoanAmountTooLow
  | InvalidLoanPeriodLong
  | InvalidLoanPeriodShort
  | LoanExpiredError
  | LendingPoolNotRunning
  | LendingPoolRunning.

(** The built-in exceptions the modelled code can raise. *)
Inductive BuiltinError : Type :=
  | ZeroDivisionError
  | KeyError
  | IndexError
  | ValueError
  | AttributeError
  | AssertionError
  | OverflowError.

Inductive Exception : Type :=
  | Named (e : PoolError)
  | Builtin (e : BuiltinError).

#[global] Instance PoolError_eq_dec : EqDecision PoolError.
Proof. solve_decision. Defined.
#[global] Instance BuiltinError_eq_dec : EqDecision BuiltinError.
Proof. solve_decision. Defined.
#[global] Instance Exception_eq_dec : EqDecision Exception.
Proof. solve_decision. Defined.

(** ** State-and-exception monad *)

Inductive outcome (S A : Type) : Type :=
  | Ok (a : A) (s : S)
  | Raise (e : Exception) (s : S).
Arguments Ok {S A} a s.
Arguments Raise {S A} e s.

Definition M (S A : Type) : Type := S -> outcome S A.

Definition ret {S A} (a : A) : M S A := fun s => Ok a s.

Definition bind {S A B} (c : M S A) (k : A -> M S B) : M S B :=
  fun s => match c s with
           | Ok a s' => k a s'
           | Raise e s' => Raise e s'
           end.

Definition raise {S A} (e : Exception) : M S A := fun s => Raise e s.
Definition get {S} : M S S := fun s => Ok s s.
Definition gets {S A} (f : S -> A) : M S A := fun s => Ok (f s) s.
Definition modify {S} (f : S -> S) : M S unit := fun s => Ok tt (f s).

Notation "'let*' x ':=' c 'in' k" := (bind c (fun x => k))
  (at level 10, x name, c at level 100, k at level 200, only parsing).
Notation "c '>>' k" := (bind c (fun _ => k))
  (at level 100, k at level 200, right associativity, only parsing).

(** [if cond: raise e] *)
Definition raise_if {S} (cond : bool) (e : Exception) : M S unit :=
  if cond then raise e else ret tt.

(** [assert cond] *)
Definition py_assert {S} (cond : bool) : M S unit :=
  raise_if (negb cond) (Builtin AssertionError).

(** [for x in l: body x] over a list that the body does not mutate. *)
Fixpoint for_each {S A} (l : list A) (body : A -> M S unit) : M S unit :=
  match l with
  | [] => ret tt
  | x :: l' => body x >> for_each l' body
  end.

(** Run a computation on a component of the state, writing the component
    back whether the computation returns or raises. *)
Definition zoom {S T A} (proj : S -> T) (inj : T -> S -> S) (c : M T A) : M S A :=
  fun s => match c (proj s) with
           | Ok a t => Ok a (inj t s)
           | Raise e t => Raise e (inj t s)
           end.

(** The state a computation leaves, whether it returned or raised, and the
    exception it raised, if any. *)
Definition final_state {S A} (o : outcome S A) : S :=
  match o with
  | Ok _ s => s
  | Raise _ s => s
  end.

Definition raised {S A} (o : outcome S A) : option Exception :=
  match o with
  | Ok _ _ => None
  | Raise e _ => Some e
  end.

(** ** Numbers *)

#[global] Instance Q_eq_dec : EqDecision Q.
Proof. solve_decision. Defined.

Definition Qltb (a b : Q) : bool := negb (Qle_bool b a).
Definition Qneqb (a b : Q) : bool := negb (Qeq_bool a b).

(** Python's true division [a / b]. *)
Definition pydiv {S} (a b : Q) : M S Q :=
  if Qeq_bool b 0 then raise (Builtin ZeroDivisionError) else ret (a / b)%Q.

(** [sum(values)] *)
Definition Qsum (l : list Q) : Q := fold_left Qplus l 0%Q.

(** [datetime] and [timedelta], in microseconds. *)
Definition datetime : Type := Z.
Definition timedelta : Type := Z.

Definition timedelta_of_seconds (s : Z) : timedelta := s * 1000000.
(** [timedelta.total_seconds()] *)
Definition total_seconds (d : timedelta) : Q := (inject_Z d / 1000000)%Q.
(** [timedelta.days]: the normalised day component, a floor. *)
Definition timedelta_days (d : timedelta) : Z := d / 86400000000.
(** [int(datetime.timestamp())]: whole seconds, truncated towards zero. *)
Definition timestamp_int (t : datetime) : Z := Z.quot t 1000000.

(** ** [apis/coingecko/market_chart.py] *)

Module market_chart.

(** [abs((end - start) // 86400)]; [//] on Python ints is floor division,
    which is [Z.div] for a positive divisor. *)
Definition get_days_between_unix_timestamps (start end_ : Z) : Z :=
  Z.abs ((end_ - start) / 86400).

End market_chart.

(** ** The environment

    [BaseCoraEnvironment] as the pool and the agents read it: the simulated
    clock and the spot price of the collateral. *)
Record Environment : Type := {
  get_time : datetime;
  get_price : Q
}.

(** A dynamically typed value of an [extra] payload. *)
Inductive Value : Type :=
  | VFloat (x : Q)
  | VInt (n : Z)
  | VStr (s : string).

(** [simulator/models/event_info.py], without the [message]. *)
Record EventInfo : Type := {
  ev_time : datetime;
  ev_type : string;
  ev_extra : list (string * Value)
}.

(** [simulator/models/action_info.py], without the [message]. *)
Record ActionInfo : Type := {
  act_agent_id : string;
  act_time : datetime;
  act_type : string;
  act_extra : list (string * Value)
}.

(** [Wallet] of [protocols/cora/v1/agents.py]. *)
Record Wallet : Type := {
  address : string;
  primary_balance : Q;
  secondary_balance : Q
}.

Definition set_primary_balance (v : Q) (w : Wallet) : Wallet :=
  {| address := address w; primary_balance := v;
     secondary_balance := secondary_balance w |}.
Definition set_secondary_balance (v : Q) (w : Wallet) : Wallet :=
  {| address := address w; primary_balance := primary_balance w;
     secondary_balance := v |}.

(** ** [simulator/metrics/calculations.py] *)

(** [a / b if b != 0 else 0.0] *)
Definition safe_divide (a b : Q) : Q :=
  if Qneqb b 0 then (a / b)%Q else 0%Q.

(** ** Dictionary idioms *)

(** A dictionary whose values are read back as a list ([list(d.values())]):
    its items in the order in which their keys were first assigned. *)
Record odict (V : Type) : Type := Odict { odict_items : list (string * V) }.
Arguments Odict {V} _.
Arguments odict_items {V} _.

Fixpoint odict_get {V} (l : list (string * V)) (k : string) : option V :=
  match l with
  | [] => None
  | (k', v) :: rest => if decide (k' = k) then Some v else odict_get rest k
  end.

(** [d[k] = v]: an existing key keeps its place, a new one goes last. *)
Fixpoint odict_set {V} (l : list (string * V)) (k : string) (v : V)
    : list (string * V) :=
  match l with
  | [] => [(k, v)]
  | (k', v') :: rest =>
      if decide (k' = k) then (k, v) :: rest
      else (k', v') :: odict_set rest k v
  end.

#[global] Instance odict_lookup {V} : Lookup string V (odict V) :=
  fun k d => odict_get (odict_items d) k.

#[global] Instance odict_insert {V} : Insert string V (odict V) :=
  fun k v d => Odict (odict_set (odict_items d) k v).

#[global] Instance odict_empty {V} : Empty (odict V) := Odict [].

(** [list(d.values())] *)
Definition odict_values {V} (d : odict V) : list V := (odict_items d).*2.

(** [d[k]] *)
Definition getitem {S V D} `{Lookup string V D} (d : D) (k : string) : M S V :=
  match d !! k with
  | Some v => ret v
  | None => raise (Builtin KeyError)
  end.

(** [d.get(k, 0)] *)
Definition get_or_zero (d : gmap string Q) (k : string) : Q :=
  default 0%Q (d !! k).

(** [if k not in d: d[k] = 0] followed by [d[k] += v]. *)
Definition add_to_entry (k : string) (v : Q) (d : gmap string Q) : gmap string Q :=
  <[k := (get_or_zero d k + v)%Q]> d.

(** [d.values()] *)
Definition values {V} (d : gmap string V) : list V := (map_to_list d).*2.

(** A loop with a local accumulator next to the state. *)
Fixpoint fold_each {S A B} (l : list A) (b : B) (body : B -> A -> M S B) : M S B :=
  match l with
  | [] => ret b
  | x :: l' => let* b' := body b x in fold_each l' b' body
  end.

(** [l.remove(x)]: drops the first occurrence; [ValueError] when there is
    none. *)
Fixpoint remove_first `{EqDecision A} (x : A) (l : list A) : option (list A) :=
  match l with
  | [] => None
  | y :: l' => if decide (x = y) then Some l'
               else cons y <$> remove_first x l'
  end.

(** ** [protocols/cora/v1/business_logic/lending_pool.py] *)

Module lending_pool.

Inductive LendingPoolStatus : Type :=
  | GENESIS
  | RUNNING.

#[global] Instance LendingPoolStatus_eq_dec : EqDecision LendingPoolStatus.
Proof. solve_decision. Defined.

Record Loan : Type := {
  start_time : datetime;
  borrowing_fee : Q;
  net_loan : Q;
  total_debt : Q;
  expiration_time : datetime;
  collateral_amount : Q;
  loan_id : string;
  borrower_address : string;
  initial_ltv : Q;
  paid : bool
}.

(** [loan.paid = v] *)
Definition set_paid (v : bool) (l : Loan) : Loan :=
  {| start_time := start_time l; borrowing_fee := borrowing_fee l;
     net_loan := net_loan l; total_debt := total_debt l;
     expiration_time := expiration_time l;
     collateral_amount := collateral_amount l; loan_id := loan_id l;
     borrower_address := borrower_address l; initial_ltv := initial_ltv l;
     paid := v |}.

Definition is_expired (l : Loan) (env : Environment) : bool :=
  expiration_time l <? get_time env.

Definition get_duration (l : Loan) : timedelta :=
  expiration_time l - start_time l.

Definition get_sizedays (l : Loan) : Q :=
  (total_seconds (get_duration l) / 86400 * net_loan l)%Q.

Record CycleData : Type := {
  initial_liquidity : Q;
  remaining_liquidity : Q;
  total_reclaimed_collateral : Q;
  cd_total_fees_earned : Q;
  final_collateral_price : Q;
  final_collateral_value : Q;
  average_utilization : Q;
  normalized_utilization : Q;
  cd_loans : list Loan
}.

(** A fee model as the pool uses it: [get_fee(ltv, utilization, loan_period)],
    which returns a fee percentage or raises a built-in exception. *)
Definition FeeModel : Type := Q -> Q -> timedelta -> BuiltinError + Q.

Record LendingPool : Type := {
  name : string;
  _fee_model : FeeModel;
  _max_ltv : Q;
  _max_liquidity : Q;
  _genesis_period : timedelta;
  _running_period : timedelta;
  _min_liquidity : Q;
  _min_loan_amount : Q;
  _min_load_period : timedelta;
  _min_position_size : Q;
  _status : LendingPoolStatus;
  _next_cycle_time : datetime;
  _pending_deposits : gmap string Q;
  _signaled_withdrawals : gmap string Q;
  _pending_withdrawals : gmap string Q;
  _reclaimed_collateral : gmap string Q;
  _deposits : gmap string Q;
  _borrower_loans : gmap string (list string);
  _loans : odict Loan;
  _utilizations : list Q;
  _cycle_history : gmap Z CycleData;
  _total_deposits : Q;
  _total_collateral_locked : Q;
  _available_amount : Q;
  _borrowed_amount : Q;
  _total_fees_earned : Q;
  _is_new_cycle : bool;
  _cycle_count : Z
}.

(** Attribute assignment [self.<attribute> = v], one function per attribute
    that the methods assign. *)
Definition set_status (v : LendingPoolStatus) (p : LendingPool) : LendingPool :=
  {| name := name p; _fee_model := _fee_model p; _max_ltv := _max_ltv p;
     _max_liquidity := _max_liquidity p; _genesis_period := _genesis_period p;
     _running_period := _running_period p; _min_liquidity := _min_liquidity p;
     _min_loan_amount := _min_loan_amount p;
     _min_load_period := _min_load_period p;
     _min_position_size := _min_position_size p; _status := v;
     _next_cycle_time := _next_cycle_time p;
     _pending_deposits := _pending_deposits p;
     _signaled_withdrawals := _signaled_withdrawals p;
     _pending_withdrawals := _pending_withdrawals p;
     _reclaimed_collateral := _reclaimed_collateral p;
     _deposits := _deposits p; _borrower_loans := _borrower_loans p;
     _loans := _loans p; _utilizations := _utilizations p;
     _cycle_history := _cycle_history p; _total_deposits := _total_deposits p;
     _total_collateral_locked := _total_collateral_locked p;
     _available_amount := _available_amount p;
     _borrowed_amount := _borrowed_amount p;
     _total_fees_earned := _total_fees_earned p;
     _is_new_cycle := _is_new_cycle p; _cycle_count := _cycle_count p |}.
Definition set_next_cycle_time (v : datetime) (p : LendingPool) : LendingPool :=
  {| name := name p; _fee_model := _fee_model p; _max_ltv := _max_ltv p;
     _max_liquidity := _max_liquidity p; _genesis_period := _genesis_period p;
     _running_period := _running_period p; _min_liquidity := _min_liquidity p;
     _min_loan_amount := _min_loan_amount p;
     _min_load_period := _min_load_period p;
     _min_position_size := _min_position_size p; _status := _status p;
     _next_cycle_time := v; _pending_deposits := _pending_deposits p;
     _signaled_withdrawals := _signaled_withdrawals p;
     _pending_withdrawals := _pending_withdrawals p;
     _reclaimed_collateral := _reclaimed_collateral p;
     _deposits := _deposits p; _borrower_loans := _borrower_loans p;
     _loans := _loans p; _utilizations := _utilizations p;
     _cycle_history := _cycle_history p; _total_deposits := _total_deposits p;
     _total_collateral_locked := _total_collateral_locked p;
     _available_amount := _available_amount p;
     _borrowed_amount := _borrowed_amount p;
     _total_fees_earned := _total_fees_earned p;
     _is_new_cycle := _is_new_cycle p; _cycle_count := _cycle_count p |}.
Definition set_pending_deposits (v : gmap string Q) (p : LendingPool) : LendingPool :=
  {| name := name p; _fee_model := _fee_model p; _max_ltv := _max_ltv p;
     _max_liquidity := _max_liquidity p; _genesis_period := _genesis_period p;
     _running_period := _running_period p; _min_liquidity := _min_liquidity p;
     _min_loan_amount := _min_loan_amount p;
     _min_load_period := _min_load_period p;
     _min_position_size := _min_position_size p; _status := _status p;
     _next_cycle_time := _next_cycle_time p; _pending_deposits := v;
     _signaled_withdrawals := _signaled_withdrawals p;
     _pending_withdrawals := _pending_withdrawals p;
     _reclaimed_collateral := _reclaimed_collateral p;
     _deposits := _deposits p; _borrower_loans := _borrower_loans p;
     _loans := _loans p; _utilizations := _utilizations p;
     _cycle_history := _cycle_history p; _total_deposits := _total_deposits p;
     _total_collateral_locked := _total_collateral_locked p;
     _available_amount := _available_amount p;
     _borrowed_amount := _borrowed_amount p;
     _total_fees_earned := _total_fees_earned p;
     _is_new_cycle := _is_new_cycle p; _cycle_count := _cycle_count p |}.
Definition set_signaled_withdrawals (v : gmap string Q) (p : LendingPool) : LendingPool :=
  {| name := name p; _fee_model := _fee_model p; _max_ltv := _max_ltv p;
     _max_liquidity := _max_liquidity p; _genesis_period := _genesis_period p;
     _running_period := _running_period p; _min_liquidity := _min_liquidity p;
     _min_loan_amount := _min_loan_amount p;
     _min_load_period := _min_load_period p;
     _min_position_size := _min_position_size p; _status := _status p;
     _next_cycle_time := _next_cycle_time p;
     _pending_deposits := _pending_deposits p; _signaled_withdrawals := v;
     _pending_withdrawals := _pending_withdrawals p;
     _reclaimed_collateral := _reclaimed_collateral p;
     _deposits := _deposits p; _borrower_loans := _borrower_loans p;
     _loans := _loans p; _utilizations := _utilizations p;
     _cycle_history := _cycle_history p; _total_deposits := _total_deposits p;
     _total_collateral_locked := _total_collateral_locked p;
     _available_amount := _available_amount p;
     _borrowed_amount := _borrowed_amount p;
     _total_fees_earned := _total_fees_earned p;
     _is_new_cycle := _is_new_cycle p; _cycle_count := _cycle_count p |}.
Definition set_pending_withdrawals (v : gmap string Q) (p : LendingPool) : LendingPool :=
  {| name := name p; _fee_model := _fee_model p; _max_ltv := _max_ltv p;
     _max_liquidity := _max_liquidity p; _genesis_period := _genesis_period p;
     _running_period := _running_period p; _min_liquidity := _min_liquidity p;
     _min_loan_amount := _min_loan_amount p;
     _min_load_period := _min_load_period p;
     _min_position_size := _min_position_size p; _status := _status p;
     _next_cycle_time := _next_cycle_time p;
     _pending_deposits := _pending_deposits p;
     _signaled_withdrawals := _signaled_withdrawals p;
     _pending_withdrawals := v;
     _reclaimed_collateral := _reclaimed_collateral p;
     _deposits := _deposits p; _borrower_loans := _borrower_loans p;
     _loans := _loans p; _utilizations := _utilizations p;
     _cycle_history := _cycle_history p; _total_deposits := _total_deposits p;
     _total_collateral_locked := _total_collateral_locked p;
     _available_amount := _available_amount p;
     _borrowed_amount := _borrowed_amount p;
     _total_fees_earned := _total_fees_earned p;
     _is_new_cycle := _is_new_cycle p; _cycle_count := _cycle_count p |}.
Definition set_reclaimed_collateral (v : gmap string Q) (p : LendingPool) : LendingPool :=
  {| name := name p; _fee_model := _fee_model p; _max_ltv := _max_ltv p;
     _max_liquidity := _max_liquidity p; _genesis_period := _genesis_period p;
     _running_period := _running_period p; _min_liquidity := _min_liquidity p;
     _min_loan_amount := _min_loan_amount p;
     _min_load_period := _min_load_period p;
     _min_position_size := _min_position_size p; _status := _status p;
     _next_cycle_time := _next_cycle_time p;
     _pending_deposits := _pending_deposits p;
     _signaled_withdrawals := _signaled_withdrawals p;
     _pending_withdrawals := _pending_withdrawals p;
     _reclaimed_collateral := v; _deposits := _deposits p;
     _borrower_loans := _borrower_loans p; _loans := _loans p;
     _utilizations := _utilizations p; _cycle_history := _cycle_history p;
     _total_deposits := _total_deposits p;
     _total_collateral_locked := _total_collateral_locked p;
     _available_amount := _available_amount p;
     _borrowed_amount := _borrowed_amount p;
     _total_fees_earned := _total_fees_earned p;
     _is_new_cycle := _is_new_cycle p; _cycle_count := _cycle_count p |}.
Definition set_deposits (v : gmap string Q) (p : LendingPool) : LendingPool :=
  {| name := name p; _fee_model := _fee_model p; _max_ltv := _max_ltv p;
     _max_liquidity := _max_liquidity p; _genesis_period := _genesis_period p;
     _running_period := _running_period p; _min_liquidity := _min_liquidity p;
     _min_loan_amount := _min_loan_amount p;
     _min_load_period := _min_load_period p;
     _min_position_size := _min_position_size p; _status := _status p;
     _next_cycle_time := _next_cycle_time p;
     _pending_deposits := _pending_deposits p;
     _signaled_withdrawals := _signaled_withdrawals p;
     _pending_withdrawals := _pending_withdrawals p;
     _reclaimed_collateral := _reclaimed_collateral p; _deposits := v;
     _borrower_loans := _borrower_loans p; _loans := _loans p;
     _utilizations := _utilizations p; _cycle_history := _cycle_history p;
     _total_deposits := _total_deposits p;
     _total_collateral_locked := _total_collateral_locked p;
     _available_amount := _available_amount p;
     _borrowed_amount := _borrowed_amount p;
     _total_fees_earned := _total_fees_earned p;
     _is_new_cycle := _is_new_cycle p; _cycle_count := _cycle_count p |}.
Definition set_borrower_loans (v : gmap string (list string)) (p : LendingPool) : LendingPool :=
  {| name := name p; _fee_model := _fee_model p; _max_ltv := _max_ltv p;
     _max_liquidity := _max_liquidity p; _genesis_period := _genesis_period p;
     _running_period := _running_period p; _min_liquidity := _min_liquidity p;
     _min_loan_amount := _min_loan_amount p;
     _min_load_period := _min_load_period p;
     _min_position_size := _min_position_size p; _status := _status p;
     _next_cycle_time := _next_cycle_time p;
     _pending_deposits := _pending_deposits p;
     _signaled_withdrawals := _signaled_withdrawals p;
     _pending_withdrawals := _pending_withdrawals p;
     _reclaimed_collateral := _reclaimed_collateral p;
     _deposits := _deposits p; _borrower_loans := v; _loans := _loans p;
     _utilizations := _utilizations p; _cycle_history := _cycle_history p;
     _total_deposits := _total_deposits p;
     _total_collateral_locked := _total_collateral_locked p;
     _available_amount := _available_amount p;
     _borrowed_amount := _borrowed_amount p;
     _total_fees_earned := _total_fees_earned p;
     _is_new_cycle := _is_new_cycle p; _cycle_count := _cycle_count p |}.
Definition set_loans (v : odict Loan) (p : LendingPool) : LendingPool :=
  {| name := name p; _fee_model := _fee_model p; _max_ltv := _max_ltv p;
     _max_liquidity := _max_liquidity p; _genesis_period := _genesis_period p;
     _running_period := _running_period p; _min_liquidity := _min_liquidity p;
     _min_loan_amount := _min_loan_amount p;
     _min_load_period := _min_load_period p;
     _min_position_size := _min_position_size p; _status := _status p;
     _next_cycle_time := _next_cycle_time p;
     _pending_deposits := _pending_deposits p;
     _signaled_withdrawals := _signaled_withdrawals p;
     _pending_withdrawals := _pending_withdrawals p;
     _reclaimed_collateral := _reclaimed_collateral p;
     _deposits := _deposits p; _borrower_loans := _borrower_loans p;
     _loans := v; _utilizations := _utilizations p;
     _cycle_history := _cycle_history p; _total_deposits := _total_deposits p;
     _total_collateral_locked := _total_collateral_locked p;
     _available_amount := _available_amount p;
     _borrowed_amount := _borrowed_amount p;
     _total_fees_earned := _total_fees_earned p;
     _is_new_cycle := _is_new_cycle p; _cycle_count := _cycle_count p |}.
Definition set_utilizations (v : list Q) (p : LendingPool) : LendingPool :=
  {| name := name p; _fee_model := _fee_model p; _max_ltv := _max_ltv p;
     _max_liquidity := _max_liquidity p; _genesis_period := _genesis_period p;
     _running_period := _running_period p; _min_liquidity := _min_liquidity p;
     _min_loan_amount := _min_loan_amount p;
     _min_load_period := _min_load_period p;
     _min_position_size := _min_position_size p; _status := _status p;
     _next_cycle_time := _next_cycle_time p;
     _pending_deposits := _pending_deposits p;
     _signaled_withdrawals := _signaled_withdrawals p;
     _pending_withdrawals := _pending_withdrawals p;
     _reclaimed_collateral := _reclaimed_collateral p;
     _deposits := _deposits p; _borrower_loans := _borrower_loans p;
     _loans := _loans p; _utilizations := v;
     _cycle_history := _cycle_history p; _total_deposits := _total_deposits p;
     _total_collateral_locked := _total_collateral_locked p;
     _available_amount := _available_amount p;
     _borrowed_amount := _borrowed_amount p;
     _total_fees_earned := _total_fees_earned p;
     _is_new_cycle := _is_new_cycle p; _cycle_count := _cycle_count p |}.
Definition set_cycle_history (v : gmap Z CycleData) (p : LendingPool) : LendingPool :=
  {| name := name p; _fee_model := _fee_model p; _max_ltv := _max_ltv p;
     _max_liquidity := _max_liquidity p; _genesis_period := _genesis_period p;
     _running_period := _running_period p; _min_liquidity := _min_liquidity p;
     _min_loan_amount := _min_loan_amount p;
     _min_load_period := _min_load_period p;
     _min_position_size := _min_position_size p; _status := _status p;
     _next_cycle_time := _next_cycle_time p;
     _pending_deposits := _pending_deposits p;
     _signaled_withdrawals := _signaled_withdrawals p;
     _pending_withdrawals := _pending_withdrawals p;
     _reclaimed_collateral := _reclaimed_collateral p;
     _deposits := _deposits p; _borrower_loans := _borrower_loans p;
     _loans := _loans p; _utilizations := _utilizations p;
     _cycle_history := v; _total_deposits := _total_deposits p;
     _total_collateral_locked := _total_collateral_locked p;
     _available_amount := _available_amount p;
     _borrowed_amount := _borrowed_amount p;
     _total_fees_earned := _total_fees_earned p;
     _is_new_cycle := _is_new_cycle p; _cycle_count := _cycle_count p |}.
Definition set_total_deposits (v : Q) (p : LendingPool) : LendingPool :=
  {| name := name p; _fee_model := _fee_model p; _max_ltv := _max_ltv p;
     _max_liquidity := _max_liquidity p; _genesis_period := _genesis_period p;
     _running_period := _running_period p; _min_liquidity := _min_liquidity p;
     _min_loan_amount := _min_loan_amount p;
     _min_load_period := _min_load_period p;
     _min_position_size := _min_position_size p; _status := _status p;
     _next_cycle_time := _next_cycle_time p;
     _pending_deposits := _pending_deposits p;
     _signaled_withdrawals := _signaled_withdrawals p;
     _pending_withdrawals := _pending_withdrawals p;
     _reclaimed_collateral := _reclaimed_collateral p;
     _deposits := _deposits p; _borrower_loans := _borrower_loans p;
     _loans := _loans p; _utilizations := _utilizations p;
     _cycle_history := _cycle_history p; _total_deposits := v;
     _total_collateral_locked := _total_collateral_locked p;
     _available_amount := _available_amount p;
     _borrowed_amount := _borrowed_amount p;
     _total_fees_earned := _total_fees_earned p;
     _is_new_cycle := _is_new_cycle p; _cycle_count := _cycle_count p |}.
Definition set_total_collateral_locked (v : Q) (p : LendingPool) : LendingPool :=
  {| name := name p; _fee_model := _fee_model p; _max_ltv := _max_ltv p;
     _max_liquidity := _max_liquidity p; _genesis_period := _genesis_period p;
     _running_period := _running_period p; _min_liquidity := _min_liquidity p;
     _min_loan_amount := _min_loan_amount p;
     _min_load_period := _min_load_period p;
     _min_position_size := _min_position_size p; _status := _status p;
     _next_cycle_time := _next_cycle_time p;
     _pending_deposits := _pending_deposits p;
     _signaled_withdrawals := _signaled_withdrawals p;
     _pending_withdrawals := _pending_withdrawals p;
     _reclaimed_collateral := _reclaimed_collateral p;
     _deposits := _deposits p; _borrower_loans := _borrower_loans p;
     _loans := _loans p; _utilizations := _utilizations p;
     _cycle_history := _cycle_history p; _total_deposits := _total_deposits p;
     _total_collateral_locked := v; _available_amount := _available_amount p;
     _borrowed_amount := _borrowed_amount p;
     _total_fees_earned := _total_fees_earned p;
     _is_new_cycle := _is_new_cycle p; _cycle_count := _cycle_count p |}.
Definition set_available_amount (v : Q) (p : LendingPool) : LendingPool :=
  {| name := name p; _fee_model := _fee_model p; _max_ltv := _max_ltv p;
     _max_liquidity := _max_liquidity p; _genesis_period := _genesis_period p;
     _running_period := _running_period p; _min_liquidity := _min_liquidity p;
     _min_loan_amount := _min_loan_amount p;
     _min_load_period := _min_load_period p;
     _min_position_size := _min_position_size p; _status := _status p;
     _next_cycle_time := _next_cycle_time p;
     _pending_deposits := _pending_deposits p;
     _signaled_withdrawals := _signaled_withdrawals p;
     _pending_withdrawals := _pending_withdrawals p;
     _reclaimed_collateral := _reclaimed_collateral p;
     _deposits := _deposits p; _borrower_loans := _borrower_loans p;
     _loans := _loans p; _utilizations := _utilizations p;
     _cycle_history := _cycle_history p; _total_deposits := _total_deposits p;
     _total_collateral_locked := _total_collateral_locked p;
     _available_amount := v; _borrowed_amount := _borrowed_amount p;
     _total_fees_earned := _total_fees_earned p;
     _is_new_cycle := _is_new_cycle p; _cycle_count := _cycle_count p |}.
Definition set_borrowed_amount (v : Q) (p : LendingPool) : LendingPool :=
  {| name := name p; _fee_model := _fee_model p; _max_ltv := _max_ltv p;
     _max_liquidity := _max_liquidity p; _genesis_period := _genesis_period p;
     _running_period := _running_period p; _min_liquidity := _min_liquidity p;
     _min_loan_amount := _min_loan_amount p;
     _min_load_period := _min_load_period p;
     _min_position_size := _min_position_size p; _status := _status p;
     _next_cycle_time := _next_cycle_time p;
     _pending_deposits := _pending_deposits p;
     _signaled_withdrawals := _signaled_withdrawals p;
     _pending_withdrawals := _pending_withdrawals p;
     _reclaimed_collateral := _reclaimed_collateral p;
     _deposits := _deposits p; _borrower_loans := _borrower_loans p;
     _loans := _loans p; _utilizations := _utilizations p;
     _cycle_history := _cycle_history p; _total_deposits := _total_deposits p;
     _total_collateral_locked := _total_collateral_locked p;
     _available_amount := _available_amount p; _borrowed_amount := v;
     _total_fees_earned := _total_fees_earned p;
     _is_new_cycle := _is_new_cycle p; _cycle_count := _cycle_count p |}.
Definition set_total_fees_earned (v : Q) (p : LendingPool) : LendingPool :=
  {| name := name p; _fee_model := _fee_model p; _max_ltv := _max_ltv p;
     _max_liquidity := _max_liquidity p; _genesis_period := _genesis_period p;
     _running_period := _running_period p; _min_liquidity := _min_liquidity p;
     _min_loan_amount := _min_loan_amount p;
     _min_load_period := _min_load_period p;
     _min_position_size := _min_position_size p; _status := _status p;
     _next_cycle_time := _next_cycle_time p;
     _pending_deposits := _pending_deposits p;
     _signaled_withdrawals := _signaled_withdrawals p;
     _pending_withdrawals := _pending_withdrawals p;
     _reclaimed_collateral := _reclaimed_collateral p;
     _deposits := _deposits p; _borrower_loans := _borrower_loans p;
     _loans := _loans p; _utilizations := _utilizations p;
     _cycle_history := _cycle_history p; _total_deposits := _total_deposits p;
     _total_collateral_locked := _total_collateral_locked p;
     _available_amount := _available_amount p;
     _borrowed_amount := _borrowed_amount p; _total_fees_earned := v;
     _is_new_cycle := _is_new_cycle p; _cycle_count := _cycle_count p |}.
Definition set_is_new_cycle (v : bool) (p : LendingPool) : LendingPool :=
  {| name := name p; _fee_model := _fee_model p; _max_ltv := _max_ltv p;
     _max_liquidity := _max_liquidity p; _genesis_period := _genesis_period p;
     _running_period := _running_period p; _min_liquidity := _min_liquidity p;
     _min_loan_amount := _min_loan_amount p;
     _min_load_period := _min_load_period p;
     _min_position_size := _min_position_size p; _status := _status p;
     _next_cycle_time := _next_cycle_time p;
     _pending_deposits := _pending_deposits p;
     _signaled_withdrawals := _signaled_withdrawals p;
     _pending_withdrawals := _pending_withdrawals p;
     _reclaimed_collateral := _reclaimed_collateral p;
     _deposits := _deposits p; _borrower_loans := _borrower_loans p;
     _loans := _loans p; _utilizations := _utilizations p;
     _cycle_history := _cycle_history p; _total_deposits := _total_deposits p;
     _total_collateral_locked := _total_collateral_locked p;
     _available_amount := _available_amount p;
     _borrowed_amount := _borrowed_amount p;
     _total_fees_earned := _total_fees_earned p; _is_new_cycle := v;
     _cycle_count := _cycle_count p |}.
Definition set_cycle_count (v : Z) (p : LendingPool) : LendingPool :=
  {| name := name p; _fee_model := _fee_model p; _max_ltv := _max_ltv p;
     _max_liquidity := _max_liquidity p; _genesis_period := _genesis_period p;
     _running_period := _running_period p; _min_liquidity := _min_liquidity p;
     _min_loan_amount := _min_loan_amount p;
     _min_load_period := _min_load_period p;
     _min_position_size := _min_position_size p; _status := _status p;
     _next_cycle_time := _next_cycle_time p;
     _pending_deposits := _pending_deposits p;
     _signaled_withdrawals := _signaled_withdrawals p;
     _pending_withdrawals := _pending_withdrawals p;
     _reclaimed_collateral := _reclaimed_collateral p;
     _deposits := _deposits p; _borrower_loans := _borrower_loans p;
     _loans := _loans p; _utilizations := _utilizations p;
     _cycle_history := _cycle_history p; _total_deposits := _total_deposits p;
     _total_collateral_locked := _total_collateral_locked p;
     _available_amount := _available_amount p;
     _borrowed_amount := _borrowed_amount p;
     _total_fees_earned := _total_fees_earned p;
     _is_new_cycle := _is_new_cycle p; _cycle_count := v |}.

(** [LendingPool.__init__] *)
Definition __init__ (name : string) (environment : Environment)
    (fee_model : FeeModel) (max_ltv max_liquidity : Q)
    (genesis_period_seconds running_period_seconds : Z)
    (min_liquidity min_loan_amount : Q) (min_loan_period_seconds : Z)
    (min_position_size : Q) : LendingPool :=
  {| name := name;
     _fee_model := fee_model;
     _max_ltv := max_ltv;
     _max_liquidity := max_liquidity;
     _genesis_period := timedelta_of_seconds genesis_period_seconds;
     _running_period := timedelta_of_seconds running_period_seconds;
     _min_liquidity := min_liquidity;
     _min_loan_amount := min_loan_amount;
     _min_load_period := timedelta_of_seconds min_loan_period_seconds;
     _min_position_size := min_position_size;
     _status := GENESIS;
     _next_cycle_time :=
       get_time environment + timedelta_of_seconds genesis_period_seconds;
     _pending_deposits := ∅;
     _signaled_withdrawals := ∅;
     _pending_withdrawals := ∅;
     _reclaimed_collateral := ∅;
     _deposits := ∅;
     _borrower_loans := ∅;
     _loans := ∅;
     _utilizations := [];
     _cycle_history := ∅;
     _total_deposits := 0;
     _total_collateral_locked := 0;
     _available_amount := 0;
     _borrowed_amount := 0;
     _total_fees_earned := 0;
     _is_new_cycle := false;
     _cycle_count := 0 |}.

(** The state a pool method runs on: the pool itself and the wallet of the
    agent passed to the method. *)
Record PoolAndWallet : Type := {
  pool : LendingPool;
  wallet : Wallet
}.

Definition on_pool (f : LendingPool -> LendingPool) : M PoolAndWallet unit :=
  modify (fun s => {| pool := f (pool s); wallet := wallet s |}).
Definition on_wallet (f : Wallet -> Wallet) : M PoolAndWallet unit :=
  modify (fun s => {| pool := pool s; wallet := f (wallet s) |}).

(** The decorator [running_only]. *)
Definition running_only {A} (func : M PoolAndWallet A) : M PoolAndWallet A :=
  let* st := gets (fun s => _status (pool s)) in
  raise_if (negb (bool_decide (st = RUNNING))) (Named LendingPoolNotRunning) >>
  func.

Definition get_utilization (p : LendingPool) : Q :=
  safe_divide (_borrowed_amount p) (_borrowed_amount p + _available_amount p)%Q.

Definition get_current_available_amount (p : LendingPool) : Q :=
  _available_amount p.

Definition get_current_utilization {S} (p : LendingPool) : M S Q :=
  if Qeq_bool (_available_amount p) 0 then ret 1%Q
  else
    let total_amount := (_available_amount p + _borrowed_amount p)%Q in
    let* utilization := pydiv (_borrowed_amount p) total_amount in
    ret (if Qltb 0 utilization then utilization else 0%Q).

Definition calculate_fee {S} (p : LendingPool)
    (borrow_amount collateral_value : Q) (loan_period : timedelta) : M S Q :=
  let* ltv := pydiv borrow_amount collateral_value in
  let* utilization := get_current_utilization p in
  match _fee_model p ltv utilization loan_period with
  | inl e => raise (Builtin e)
  | inr fee_percentage => ret (fee_percentage * borrow_amount)%Q
  end.

Definition calculate_loan_id (p : LendingPool) (borrower : Wallet)
    (expiration_time : Z) : string :=
  name p +:+ "-" +:+ address borrower +:+ "-" +:+ pretty expiration_time.

(** *** [take_step] *)

(** The [Genesis] branch: promotion to [Running]. *)
Definition end_genesis (time : datetime) : M LendingPool (list EventInfo) :=
  modify (set_status RUNNING) >>
  modify (fun p => set_cycle_count (_cycle_count p + 1) p) >>
  modify (fun p => set_deposits (_pending_deposits p) p) >>
  let* p := get in
  ret [ {| ev_time := time;
           ev_type := "lending_pool_genesis_period_ended";
           ev_extra := [ ("total_deposits", VFloat (_total_deposits p));
                         ("cycle_count", VInt (_cycle_count p));
                         ("lending_pool", VStr (name p)) ] |} ].

(** First settlement loop: every depositor's share of the remaining
    liquidity goes to the local [lenders_final_liquidity], the share of the
    locked collateral to [_reclaimed_collateral]. *)
Definition redistribute (remaining_liquidity total_reclaimed_collateral : Q)
    (items : list (string * Q)) : M LendingPool (gmap string Q) :=
  fold_each items (∅ : gmap string Q)
    (fun lenders_final_liquidity '(address, deposit_amount) =>
       let* total := gets _total_deposits in
       let* ownership_ratio := pydiv deposit_amount total in
       let lender_final_liquidity := (ownership_ratio * remaining_liquidity)%Q in
       let reclaimed_collateral := (ownership_ratio * total_reclaimed_collateral)%Q in
       modify (fun p => set_reclaimed_collateral
                 (add_to_entry address reclaimed_collateral
                    (_reclaimed_collateral p)) p) >>
       ret (<[address := lender_final_liquidity]> lenders_final_liquidity)).

(** Second settlement loop: the signaled withdrawals. *)
Definition execute_withdrawals (lenders_final_liquidity : gmap string Q)
    (items : list (string * Q)) : M LendingPool (gmap string Q) :=
  fold_each items lenders_final_liquidity
    (fun lenders_final_liquidity '(address, withdrawal_ratio) =>
       let* lender_liquidity := getitem lenders_final_liquidity address in
       let lender_withdrawal := (lender_liquidity * withdrawal_ratio)%Q in
       modify (fun p => set_pending_withdrawals
                 (add_to_entry address lender_withdrawal
                    (_pending_withdrawals p)) p) >>
       ret (<[address := (lender_liquidity - lender_withdrawal)%Q]>
              lenders_final_liquidity)).

(** Third settlement loop: liquidity that was not withdrawn stays deposited. *)
Definition roll_over (items : list (string * Q)) : M LendingPool unit :=
  for_each items
    (fun '(address, amount) =>
       if Qltb 0 amount
       then modify (fun p => set_deposits
                      (add_to_entry address amount (_deposits p)) p)
       else ret tt).

(** The [else] branch: the running cycle is over. *)
Definition end_running_cycle (env : Environment) (time : datetime)
    : M LendingPool (list EventInfo) :=
  modify (fun p => set_cycle_count (_cycle_count p + 1) p) >>
  let* total_reclaimed_collateral := gets _total_collateral_locked in
  let* remaining_liquidity := gets _available_amount in
  let* deposit_items := gets (fun p => map_to_list (_deposits p)) in
  let* lenders_final_liquidity :=
    redistribute remaining_liquidity total_reclaimed_collateral deposit_items in
  let* signaled := gets (fun p => map_to_list (_signaled_withdrawals p)) in
  let* lenders_final_liquidity :=
    execute_withdrawals lenders_final_liquidity signaled in
  modify (fun p => set_deposits (_pending_deposits p) p) >>
  roll_over (map_to_list lenders_final_liquidity) >>
  let* utilizations := gets _utilizations in
  let* average_utilization :=
    pydiv (Qsum utilizations) (inject_Z (Z.of_nat (length utilizations))) in
  let* p := get in
  let pool_sizedays :=
    (_total_deposits p * total_seconds (_running_period p) / 86400)%Q in
  let* normalized_utilization :=
    pydiv (Qsum (get_sizedays <$> odict_values (_loans p))) pool_sizedays in
  modify (set_cycle_history
            (<[_cycle_count p - 1 :=
                 {| initial_liquidity := _total_deposits p;
                    remaining_liquidity := _available_amount p;
                    total_reclaimed_collateral := total_reclaimed_collateral;
                    cd_total_fees_earned := _total_fees_earned p;
                    final_collateral_price := get_price env;
                    final_collateral_value :=
                      (get_price env * total_reclaimed_collateral)%Q;
                    average_utilization := average_utilization;
                    normalized_utilization := normalized_utilization;
                    cd_loans := odict_values (_loans p) |}]>
               (_cycle_history p))) >>
  ret [ {| ev_time := time;
           ev_type := "lending_pool_running_period_ended";
           ev_extra := [ ("total_deposits", VFloat (Qsum (values (_deposits p))));
                         ("cycle_number", VInt (_cycle_count p - 1));
                         ("lending_pool", VStr (name p)) ] |} ].

(** The block under [# Reset lending pool data]. *)
Definition reset_lending_pool_data : M LendingPool unit :=
  modify (set_pending_deposits ∅) >>
  modify (set_signaled_withdrawals ∅) >>
  modify (set_borrower_loans ∅) >>
  modify (set_loans ∅) >>
  modify (fun p => set_total_deposits (Qsum (values (_deposits p))) p) >>
  modify (set_total_collateral_locked 0%Q) >>
  modify (fun p => set_available_amount (_total_deposits p) p) >>
  modify (set_borrowed_amount 0%Q) >>
  modify (set_total_fees_earned 0%Q) >>
  modify (set_utilizations []) >>
  modify (fun p => set_next_cycle_time (_next_cycle_time p + _running_period p) p).

Definition take_step (env : Environment) (time_step : timedelta)
    : M LendingPool (list EventInfo) :=
  let time := get_time env in
  modify (fun p => set_utilizations (_utilizations p ++ [get_utilization p]) p) >>
  let* next := gets _next_cycle_time in
  if next <=? time then
    modify (set_is_new_cycle true) >>
    let* st := gets _status in
    let* events :=
      match st with
      | GENESIS => end_genesis time
      | RUNNING => end_running_cycle env time
      end in
    reset_lending_pool_data >>
    ret events
  else
    modify (set_is_new_cycle false) >>
    ret [].

(** What invariants I1 and I2 say of a pool at the start of a cycle. *)
Definition at_cycle_start (p : LendingPool) : Prop :=
  _available_amount p = _total_deposits p
  /\ _borrowed_amount p = 0%Q
  /\ _total_collateral_locked p = 0%Q
  /\ _total_fees_earned p = 0%Q
  /\ _total_deposits p = Qsum (values (_deposits p)).

(** *** Lender operations *)

Definition deposit (amount : Q) : M PoolAndWallet unit :=
  let* lender := gets wallet in
  raise_if (Qltb (primary_balance lender) amount)
    (Named InsufficientBalanceError) >>
  let* pending := gets (fun s => _pending_deposits (pool s)) in
  (if bool_decide (pending !! address lender = None)
   then on_pool (fun p => set_pending_deposits
                   (<[address lender := 0%Q]> (_pending_deposits p)) p)
   else ret tt) >>
  on_wallet (fun w => set_primary_balance (primary_balance w - amount)%Q w) >>
  let* pending := gets (fun s => _pending_deposits (pool s)) in
  let* current := getitem pending (address lender) in
  on_pool (set_pending_deposits (<[address lender := (current + amount)%Q]> pending)).

Definition signal_withdrawal (ratio : Q) : M PoolAndWallet unit :=
  running_only
    (let* lender := gets wallet in
     py_assert (Qle_bool 0 ratio && Qle_bool ratio 1) >>
     let* deposits := gets (fun s => _deposits (pool s)) in
     py_assert (bool_decide (is_Some (deposits !! address lender))) >>
     on_pool (fun p => set_signaled_withdrawals
                (<[address lender := ratio]> (_signaled_withdrawals p)) p)).

(** [self._pending_deposits[address] -= amount],
    [del self._pending_deposits[address]] and
    [self._pending_withdrawals[address] -= amount]: each reads the entry
    first and raises [KeyError] when it is missing. *)
Definition pending_deposits_isub (address : string) (amount : Q)
    : M PoolAndWallet unit :=
  let* d := gets (fun s => _pending_deposits (pool s)) in
  let* current := getitem d address in
  on_pool (set_pending_deposits (<[address := (current - amount)%Q]> d)).

Definition pending_deposits_del (address : string) : M PoolAndWallet unit :=
  let* d := gets (fun s => _pending_deposits (pool s)) in
  let* _ := getitem d address in
  on_pool (set_pending_deposits (delete address d)).

Definition pending_withdrawals_isub (address : string) (amount : Q)
    : M PoolAndWallet unit :=
  let* d := gets (fun s => _pending_withdrawals (pool s)) in
  let* current := getitem d address in
  on_pool (set_pending_withdrawals (<[address := (current - amount)%Q]> d)).

Definition withdraw_liquidity (amount : Q) : M PoolAndWallet unit :=
  let* lender := gets wallet in
  py_assert (Qltb 0 amount) >>
  let* p := gets pool in
  let pending_deposits := get_or_zero (_pending_deposits p) (address lender) in
  let pending_withdrawals := get_or_zero (_pending_withdrawals p) (address lender) in
  let total_available := (pending_deposits + pending_withdrawals)%Q in
  py_assert (Qle_bool amount total_available) >>
  (if Qltb amount pending_deposits then
     pending_deposits_isub (address lender) amount
   else
     pending_deposits_del (address lender) >>
     let remaining_amount := (amount - pending_deposits)%Q in
     pending_withdrawals_isub (address lender) remaining_amount) >>
  on_wallet (fun w => set_primary_balance (primary_balance w + amount)%Q w).

Definition withdraw_collateral (amount : Q) : M PoolAndWallet unit :=
  let* lender := gets wallet in
  py_assert (Qltb 0 amount) >>
  let* p := gets pool in
  let reclaimed_collateral := get_or_zero (_reclaimed_collateral p) (address lender) in
  py_assert (Qle_bool amount reclaimed_collateral) >>
  let* current := getitem (_reclaimed_collateral p) (address lender) in
  on_pool (set_reclaimed_collateral
             (<[address lender := (current - amount)%Q]> (_reclaimed_collateral p))) >>
  on_wallet (fun w => set_secondary_balance (secondary_balance w + amount)%Q w).

(** *** Borrower operations *)

Definition borrow (env : Environment) (borrow_amount collateral_amount : Q)
    (loan_period : timedelta) : M PoolAndWallet Loan :=
  running_only
    (let* p := gets pool in
     let* borrower := gets wallet in
     let price := get_price env in
     let time := get_time env in
     let total_collateral_value := (collateral_amount * price)%Q in
     let* ltv := pydiv borrow_amount total_collateral_value in
     let max_amount_available_to_borrow :=
       (total_collateral_value * _max_ltv p)%Q in
     raise_if (Qltb borrow_amount (_min_loan_amount p)) (Named LoanAmountTooLow) >>
     raise_if (Qltb max_amount_available_to_borrow borrow_amount)
       (Named InsuficientCollateralError) >>
     raise_if (Qltb (secondary_balance borrower) collateral_amount)
       (Named InsufficientBalanceError) >>
     raise_if (Qltb (_available_amount p) borrow_amount)
       (Named InsufficientLiquidityError) >>
     raise_if (loan_period <? _min_load_period p) (Named InvalidLoanPeriodShort) >>
     raise_if (_next_cycle_time p - time <? loan_period)
       (Named InvalidLoanPeriodLong) >>
     let* borrowing_fee :=
       calculate_fee p borrow_amount total_collateral_value loan_period in
     on_pool (fun p => set_total_collateral_locked
                (_total_collateral_locked p + collateral_amount)%Q p) >>
     let net_loan_amount := (borrow_amount - borrowing_fee)%Q in
     on_pool (fun p => set_available_amount
                (_available_amount p - net_loan_amount)%Q p) >>
     on_pool (fun p => set_borrowed_amount
                (_borrowed_amount p + net_loan_amount)%Q p) >>
     on_wallet (fun w => set_secondary_balance
                  (secondary_balance w - collateral_amount)%Q w) >>
     on_wallet (fun w => set_primary_balance
                  (primary_balance w + net_loan_amount)%Q w) >>
     let expiration_time := time + loan_period in
     let expiration_timestamp := timestamp_int expiration_time in
     let loan_id := calculate_loan_id p borrower expiration_timestamp in
     on_pool (fun p => set_borrower_loans
                (<[address borrower :=
                     default [] (_borrower_loans p !! address borrower) ++ [loan_id]]>
                   (_borrower_loans p)) p) >>
     let* initial_loan_ltv := pydiv borrow_amount (collateral_amount * price)%Q in
     let loan :=
       {| start_time := get_time env;
          borrowing_fee := borrowing_fee;
          net_loan := net_loan_amount;
          total_debt := borrow_amount;
          expiration_time := expiration_time;
          collateral_amount := collateral_amount;
          loan_id := loan_id;
          borrower_address := address borrower;
          initial_ltv := initial_loan_ltv;
          paid := false |} in
     on_pool (fun p => set_loans (<[loan_id := loan]> (_loans p)) p) >>
     ret loan).

(** The preconditions of [borrow] as the specification lists them, in its
    order, each with the error it names; [None] when all of them hold. *)
Definition spec_borrow_rejection (env : Environment) (p : LendingPool)
    (borrower : Wallet) (borrow_amount collateral_amount : Q)
    (loan_period : timedelta) : option PoolError :=
  if negb (bool_decide (_status p = RUNNING)) then
    Some LendingPoolNotRunning
  else if Qltb borrow_amount (_min_loan_amount p) then
    Some LoanAmountTooLow
  else if Qltb (collateral_amount * get_price env * _max_ltv p)%Q borrow_amount then
    Some InsuficientCollateralError
  else if Qltb (secondary_balance borrower) collateral_amount then
    Some InsufficientBalanceError
  else if Qltb (_available_amount p) borrow_amount then
    Some InsufficientLiquidityError
  else if loan_period <? _min_load_period p then
    Some InvalidLoanPeriodShort
  else if _next_cycle_time p - get_time env <? loan_period then
    Some InvalidLoanPeriodLong
  else None.

Definition repay (env : Environment) (loan_id : string) : M PoolAndWallet unit :=
  running_only
    (let* borrower := gets wallet in
     let* p := gets pool in
     raise_if (bool_decide (_borrower_loans p !! address borrower = None))
       (Named NonExistingBorrowerAddress) >>
     let* ids := getitem (_borrower_loans p) (address borrower) in
     raise_if (negb (bool_decide (loan_id ∈ ids))) (Named InvalidLoanId) >>
     let* loan := getitem (_loans p) loan_id in
     raise_if (expiration_time loan <? get_time env) (Named LoanExpiredError) >>
     raise_if (Qltb (primary_balance borrower) (total_debt loan))
       (Named InsufficientBalanceError) >>
     on_pool (fun p => set_available_amount
                (_available_amount p + total_debt loan)%Q p) >>
     on_pool (fun p => set_borrowed_amount
                (_borrowed_amount p - net_loan loan)%Q p) >>
     on_pool (fun p => set_total_collateral_locked
                (_total_collateral_locked p - collateral_amount loan)%Q p) >>
     on_pool (fun p => set_total_fees_earned
                (_total_fees_earned p + borrowing_fee loan)%Q p) >>
     on_wallet (fun w => set_primary_balance
                  (primary_balance w - total_debt loan)%Q w) >>
     on_wallet (fun w => set_secondary_balance
                  (secondary_balance w + collateral_amount loan)%Q w) >>
     match remove_first loan_id ids with
     | None => raise (Builtin ValueError)
     | Some ids' =>
         on_pool (fun p => set_borrower_loans
                    (<[address borrower := ids']> (_borrower_loans p)) p)
     end >>
     on_pool (fun p => set_loans (<[loan_id := set_paid true loan]> (_loans p)) p)).

End lending_pool.

(** ** [protocols/cora/v1/business_logic/fee_models/kelly_fee_model.py] *)

Module kelly_fee_model.

Record GridPoint : Type := {
  ltv : Q;
  days : Q
}.

Record KellyCurve : Type := {
  a : Q;
  b : Q;
  c : Q;
  d : Q
}.

(** Equality of grid points as dictionary keys: equality of the floats. *)
Definition GridPoint_eqb (x y : GridPoint) : bool :=
  Qeq_bool (ltv x) (ltv y) && Qeq_bool (days x) (days y).

(** [curve_grid[point]] on the grid kept as the list of its items (keys
    pairwise different, as in a dictionary). *)
Fixpoint grid_getitem (curve_grid : list (GridPoint * KellyCurve))
    (point : GridPoint) : BuiltinError + KellyCurve :=
  match curve_grid with
  | [] => inl KeyError
  | (k, curve) :: rest =>
      if GridPoint_eqb k point then inr curve else grid_getitem rest point
  end.

Section Evaluate.

(** [np.cosh] and the float power [**] are taken as given.  [np.cosh]
    returns for every argument; [**] on two floats raises
    [ZeroDivisionError] at zero to a negative power and [OverflowError]
    when the result is out of range, so it returns a float or an error. *)
Variable cosh : Q -> Q.
Variable pow : Q -> Q -> BuiltinError + Q.

Definition evaluate (curve : KellyCurve) (utilization : Q) : BuiltinError + Q :=
  if Qltb 1 utilization || Qltb utilization 0 then inl ValueError
  else match pow utilization (c curve) with
       | inl e => inl e
       | inr power =>
           inr (a curve * utilization * cosh (b curve * power) + d curve)%Q
       end.

End Evaluate.

(** [np.searchsorted(sorted_array, value, side="right")] on an ascending
    array: the number of leading elements that are [<= value]. *)
Fixpoint searchsorted_right (sorted_array : list Q) (value : Q) : nat :=
  match sorted_array with
  | [] => 0%nat
  | x :: rest =>
      if Qle_bool x value then S (searchsorted_right rest value) else 0%nat
  end.

(** Indexing [sorted_array[idx]] with a non-negative index raises
    [IndexError] past the end. *)
Definition select_next_highest (sorted_array : list Q) (value : Q)
    : BuiltinError + Q :=
  let idx := Z.max (Z.of_nat (searchsorted_right sorted_array value))
                   (Z.of_nat (length sorted_array) - 1) in
  match sorted_array !! Z.to_nat idx with
  | Some x => inr x
  | None => inl IndexError
  end.

(** The selection as the specification words it: the smallest grid value
    that is [>=] the given one, or the largest grid value when none is. *)
Fixpoint spec_select_next_highest (sorted_array : list Q) (value : Q)
    : option Q :=
  match sorted_array with
  | [] => None
  | x :: rest =>
      if Qle_bool value x then Some x
      else match rest with
           | [] => Some x
           | _ => spec_select_next_highest rest value
           end
  end.

(** [sorted(list({...}))]: ascending, duplicates merged. *)
Fixpoint insert_sorted (x : Q) (l : list Q) : list Q :=
  match l with
  | [] => [x]
  | y :: rest =>
      if Qeq_bool x y then l
      else if Qle_bool x y then x :: l
      else y :: insert_sorted x rest
  end.

Definition sorted_set (l : list Q) : list Q := foldr insert_sorted [] l.

(** [days_] is the attribute [self.days]. *)
Record KellyFeeModel : Type := {
  curve_grid : list (GridPoint * KellyCurve);
  ltvs : list Q;
  days_ : list Q
}.

Definition update_parameters (curve_grid : list (GridPoint * KellyCurve))
    : BuiltinError + KellyFeeModel :=
  let ltvs := sorted_set ((fun kv => ltv kv.1) <$> curve_grid) in
  let days_ := sorted_set ((fun kv => days kv.1) <$> curve_grid) in
  if bool_decide (length curve_grid = (length ltvs * length days_)%nat)
  then inr {| curve_grid := curve_grid; ltvs := ltvs; days_ := days_ |}
  else inl AssertionError.

Definition get_fee (cosh : Q -> Q) (pow : Q -> Q -> BuiltinError + Q)
    (self : KellyFeeModel)
    (ltv utilization : Q) (loan_period : timedelta) : BuiltinError + Q :=
  match select_next_highest (ltvs self) ltv with
  | inl e => inl e
  | inr grid_ltv =>
      match select_next_highest (days_ self)
              (inject_Z (timedelta_days loan_period)) with
      | inl e => inl e
      | inr grid_days =>
          match grid_getitem (curve_grid self)
                  {| ltv := grid_ltv; days := grid_days |} with
          | inl e => inl e
          | inr curve => evaluate cosh pow curve utilization
          end
      end
  end.

End kelly_fee_model.

(** ** [protocols/cora/v1/business_logic/fee_models/aave_model.py] *)

(** A fee model's [get_fee] returns a float or raises: sequencing of such
    computations. *)
Definition and_then {A B} (x : BuiltinError + A) (k : A -> BuiltinError + B)
    : BuiltinError + B :=
  match x with
  | inl e => inl e
  | inr a => k a
  end.

Notation "'let?' x ':=' c 'in' k" := (and_then c (fun x => k))
  (at level 10, x name, c at level 200, k at level 200,
   format "'[v' 'let?'  x  ':='  c  'in' '/' k ']'").

(** [self.attribute] of an attribute that may not have been set yet. *)
Definition getattr (attribute : option Q) : BuiltinError + Q :=
  match attribute with
  | Some v => inr v
  | None => inl AttributeError
  end.

(** Python's [a / b] on floats. *)
Definition truediv (a b : Q) : BuiltinError + Q :=
  if Qeq_bool b 0 then inl ZeroDivisionError else inr (a / b)%Q.

(** [loan_period / timedelta(days=365)] *)
Definition years_of (loan_period : timedelta) : Q :=
  (inject_Z loan_period / inject_Z (365 * 86400 * 1000000))%Q.

Module aave_model.

(** [BaseCoraFeeModel.__init__] sets no attribute: each of the four
    parameters is unset until [update_parameters] is given it. *)
Record AaveFeeModel : Type := {
  optimal_utilization : option Q;
  base_rate : option Q;
  rate_slope_1 : option Q;
  rate_slope_2 : option Q
}.

Definition __init__ : AaveFeeModel :=
  {| optimal_utilization := None; base_rate := None;
     rate_slope_1 := None; rate_slope_2 := None |}.

(** [if x is not None: self.x = x] *)
Definition assign (new old : option Q) : option Q :=
  match new with
  | Some v => Some v
  | None => old
  end.

Definition update_parameters (new_optimal_utilization new_base_rate
    new_rate_slope_1 new_rate_slope_2 : option Q) (self : AaveFeeModel)
    : AaveFeeModel :=
  {| optimal_utilization :=
       assign new_optimal_utilization (optimal_utilization self);
     base_rate := assign new_base_rate (base_rate self);
     rate_slope_1 := assign new_rate_slope_1 (rate_slope_1 self);
     rate_slope_2 := assign new_rate_slope_2 (rate_slope_2 self) |}.

(** The attributes are read, and the divisions made, in the order in which
    Python evaluates the two expressions. *)
Definition get_fee (self : AaveFeeModel) (ltv utilization : Q)
    (loan_period : timedelta) : BuiltinError + Q :=
  let loan_period_years := years_of loan_period in
  let? optimal := getattr (optimal_utilization self) in
  let? annualized_rate :=
    if Qltb utilization optimal then
      let? base := getattr (base_rate self) in
      let? optimal := getattr (optimal_utilization self) in
      let? ratio := truediv utilization optimal in
      let? slope_1 := getattr (rate_slope_1 self) in
      inr (base + ratio * slope_1)%Q
    else
      let? base := getattr (base_rate self) in
      let? slope_1 := getattr (rate_slope_1 self) in
      let? slope_2 := getattr (rate_slope_2 self) in
      let? optimal := getattr (optimal_utilization self) in
      let? optimal' := getattr (optimal_utilization self) in
      let? ratio := truediv (utilization - optimal) (1 - optimal') in
      inr (base + slope_1 + slope_2 * ratio)%Q in
  inr (loan_period_years * annualized_rate)%Q.

End aave_model.

(** ** [protocols/cora/v1/business_logic/fee_models/hybrid_model.py] *)

Module hybrid_model.

(** The bodies of [SumBlackScholesAave.get_fee] and [SumKellyAave.get_fee],
    and of [CombinedBlackScholesAave.get_fee] and
    [CombinedKellyAave.get_fee], differ only in the first model. *)
Definition sum_get_fee (first aave : lending_pool.FeeModel)
    : lending_pool.FeeModel :=
  fun ltv utilization loan_period =>
    let? first_fee := first ltv utilization loan_period in
    let? aave_fee := aave ltv utilization loan_period in
    inr (first_fee + aave_fee)%Q.

Definition combined_get_fee (first aave : lending_pool.FeeModel)
    : lending_pool.FeeModel :=
  fun ltv utilization loan_period =>
    let? first_fee := first ltv utilization loan_period in
    let? aave_fee := aave ltv utilization loan_period in
    if Qltb first_fee aave_fee
    then inr ((1 # 2) * (aave_fee + first_fee))%Q
    else inr first_fee.

Record HybridKellyAave : Type := {
  kelly : kelly_fee_model.KellyFeeModel;
  aave : aave_model.AaveFeeModel
}.

Section KellyAave.

Variable cosh : Q -> Q.
Variable pow : Q -> Q -> BuiltinError + Q.

Definition SumKellyAave_get_fee (self : HybridKellyAave)
    : lending_pool.FeeModel :=
  sum_get_fee (kelly_fee_model.get_fee cosh pow (kelly self))
    (aave_model.get_fee (aave self)).

Definition CombinedKellyAave_get_fee (self : HybridKellyAave)
    : lending_pool.FeeModel :=
  combined_get_fee (kelly_fee_model.get_fee cosh pow (kelly self))
    (aave_model.get_fee (aave self)).

End KellyAave.

(** [BlackScholesFeeModel.get_fee] (the normal distribution of
    [put_premium]) is taken as given. *)
Section BlackScholesAave.

Variable black_scholes_get_fee : lending_pool.FeeModel.

Definition SumBlackScholesAave_get_fee (aave : aave_model.AaveFeeModel)
    : lending_pool.FeeModel :=
  sum_get_fee black_scholes_get_fee (aave_model.get_fee aave).

Definition CombinedBlackScholesAave_get_fee (aave : aave_model.AaveFeeModel)
    : lending_pool.FeeModel :=
  combined_get_fee black_scholes_get_fee (aave_model.get_fee aave).

End BlackScholesAave.

End hybrid_model.

(** ** [protocols/cora/v1/agents.py] *)

Module agents.
Import lending_pool.

#[global] Instance Wallet_eq_dec : EqDecision Wallet.
Proof. solve_decision. Defined.
#[global] Instance Loan_eq_dec : EqDecision Loan.
Proof. solve_decision. Defined.

(** The borrower's [loan] attribute is unset until it borrows; of the loan
    the agent reads only attributes that never change after creation. *)
Record CoraBorrowerAgent : Type := {
  id : string;
  borrower_wallet : Wallet;
  lending_pool_name : string;
  loan_size : Q;
  loan_start : datetime;
  loan_duration : timedelta;
  ltv : Q;
  repay_margin : timedelta;
  _has_borrowed : bool;
  _has_expired : bool;
  loan : option Loan
}.

Definition set_borrower_wallet (v : Wallet) (x : CoraBorrowerAgent) : CoraBorrowerAgent :=
  {| id := id x; borrower_wallet := v;
     lending_pool_name := lending_pool_name x; loan_size := loan_size x;
     loan_start := loan_start x; loan_duration := loan_duration x;
     ltv := ltv x; repay_margin := repay_margin x;
     _has_borrowed := _has_borrowed x; _has_expired := _has_expired x;
     loan := loan x |}.
Definition set_has_borrowed (v : bool) (x : CoraBorrowerAgent) : CoraBorrowerAgent :=
  {| id := id x; borrower_wallet := borrower_wallet x;
     lending_pool_name := lending_pool_name x; loan_size := loan_size x;
     loan_start := loan_start x; loan_duration := loan_duration x;
     ltv := ltv x; repay_margin := repay_margin x;
     _has_borrowed := v; _has_expired := _has_expired x;
     loan := loan x |}.
Definition set_has_expired (v : bool) (x : CoraBorrowerAgent) : CoraBorrowerAgent :=
  {| id := id x; borrower_wallet := borrower_wallet x;
     lending_pool_name := lending_pool_name x; loan_size := loan_size x;
     loan_start := loan_start x; loan_duration := loan_duration x;
     ltv := ltv x; repay_margin := repay_margin x;
     _has_borrowed := _has_borrowed x; _has_expired := v;
     loan := loan x |}.
Definition set_loan (v : option Loan) (x : CoraBorrowerAgent) : CoraBorrowerAgent :=
  {| id := id x; borrower_wallet := borrower_wallet x;
     lending_pool_name := lending_pool_name x; loan_size := loan_size x;
     loan_start := loan_start x; loan_duration := loan_duration x;
     ltv := ltv x; repay_margin := repay_margin x;
     _has_borrowed := _has_borrowed x; _has_expired := _has_expired x;
     loan := v |}.

(** What a borrower's [act] runs on: the protocol's [_lending_pools] and the
    agent itself. *)
Record World : Type := {
  _lending_pools : gmap string LendingPool;
  self : CoraBorrowerAgent
}.

Definition on_self (f : CoraBorrowerAgent -> CoraBorrowerAgent) : M World unit :=
  modify (fun w => {| _lending_pools := _lending_pools w; self := f (self w) |}).

(** [protocol.get_lending_pool(name)] *)
Definition get_lending_pool (name : string) : M World LendingPool :=
  let* pools := gets _lending_pools in
  getitem pools name.

(** A method call [lending_pool.method(self, ...)]: the method runs on the
    pool object stored under [name] and on the agent's wallet. *)
Definition call_pool {A} (name : string) (lending_pool : LendingPool)
    (method : M PoolAndWallet A) : M World A :=
  zoom (fun w => {| pool := lending_pool; wallet := borrower_wallet (self w) |})
       (fun pw w => {| _lending_pools := <[name := pool pw]> (_lending_pools w);
                       self := set_borrower_wallet (wallet pw) (self w) |})
       method.

(** [self.loan] *)
Definition get_loan : M World Loan :=
  let* me := gets self in
  match loan me with
  | Some l => ret l
  | None => raise (Builtin AttributeError)
  end.

(** The first stage of [CoraBorrowerAgent.act]: ask for a loan. *)
Definition ask_for_loan (env : Environment) : M World (list ActionInfo) :=
  let current_time := get_time env in
  let* me := gets self in
  if (loan_start me <=? current_time) && negb (_has_borrowed me) then
    let* lending_pool := get_lending_pool (lending_pool_name me) in
    if Qltb (loan_size me) (get_current_available_amount lending_pool)
       && (loan_duration me <=? _next_cycle_time lending_pool - current_time)
    then
      let spot_price := get_price env in
      let* size_over_ltv := pydiv (loan_size me) (ltv me) in
      let* collateral_amount := pydiv size_over_ltv spot_price in
      let* the_loan :=
        call_pool (lending_pool_name me) lending_pool
          (borrow env (loan_size me) collateral_amount (loan_duration me)) in
      on_self (set_loan (Some the_loan)) >>
      on_self (set_has_borrowed true) >>
      ret [ {| act_agent_id := id me;
               act_time := current_time;
               act_type := "borrow";
               act_extra :=
                 [ ("loan_duration", VInt (timedelta_days (loan_duration me)));
                   ("ltv", VFloat (ltv me));
                   ("loan_size", VFloat (loan_size me));
                   ("net_loan", VFloat (net_loan the_loan));
                   ("collateral_amount", VFloat collateral_amount);
                   ("loan_fee", VFloat (borrowing_fee the_loan));
                   ("total_debt", VFloat (total_debt the_loan));
                   ("lending_pool", VStr (name lending_pool));
                   ("loan_id", VStr (loan_id the_loan)) ] |} ]
    else ret []
  else ret [].

(** The second stage: return the loan if beneficial. *)
Definition return_loan (env : Environment) : M World (list ActionInfo) :=
  let current_time := get_time env in
  let* me := gets self in
  if _has_borrowed me
     && (loan_start me + loan_duration me - repay_margin me <=? current_time)
     && negb (_has_expired me)
  then
    let spot_price := get_price env in
    let* the_loan := get_loan in
    let collateral_value := (collateral_amount the_loan * spot_price)%Q in
    let* actions :=
      if Qltb (total_debt the_loan) collateral_value then
        let* lending_pool := get_lending_pool (lending_pool_name me) in
        call_pool (lending_pool_name me) lending_pool
          (repay env (loan_id the_loan)) >>
        ret [ {| act_agent_id := id me;
                 act_time := current_time;
                 act_type := "repay";
                 act_extra :=
                   [ ("collateral_value", VFloat collateral_value);
                     ("loan_debt", VFloat (total_debt the_loan));
                     ("loan_fee", VFloat (borrowing_fee the_loan));
                     ("lending_pool", VStr (name lending_pool));
                     ("loan_id", VStr (loan_id the_loan)) ] |} ]
      else
        ret [ {| act_agent_id := id me;
                 act_time := current_time;
                 act_type := "let_expire";
                 act_extra :=
                   [ ("collateral_value", VFloat collateral_value);
                     ("loan_debt", VFloat (total_debt the_loan));
                     ("loan_fee", VFloat (borrowing_fee the_loan));
                     ("lending_pool", VStr (lending_pool_name me));
                     ("loan_id", VStr (loan_id the_loan)) ] |} ] in
    on_self (set_has_expired true) >>
    ret actions
  else ret [].

(** [CoraBorrowerAgent.act] *)
Definition act (env : Environment) : M World (list ActionInfo) :=
  let* borrowed := ask_for_loan env in
  let* returned := return_loan env in
  ret (borrowed ++ returned).

(** The lender and the pool manager, as far as the strategies' handling of
    the agent list needs them. *)
Record CoraLenderAgent : Type := {
  lender_id : string;
  lender_wallet : Wallet;
  amount : Q;
  _has_lended : bool
}.

Record CoraPoolManager : Type := {
  manager_id : string;
  manager_wallet : Wallet;
  manager_pool_name : string
}.

(** An element of the engine's agent list.  Python tells the agent objects
    apart by identity; here they are told apart by their records (the
    strategies give every agent an id of its own). *)
Inductive Agent : Type :=
  | PoolManager (x : CoraPoolManager)
  | Lender (x : CoraLenderAgent)
  | Borrower (x : CoraBorrowerAgent).

#[global] Instance CoraBorrowerAgent_eq_dec : EqDecision CoraBorrowerAgent.
Proof. solve_decision. Defined.
#[global] Instance CoraLenderAgent_eq_dec : EqDecision CoraLenderAgent.
Proof. solve_decision. Defined.
#[global] Instance CoraPoolManager_eq_dec : EqDecision CoraPoolManager.
Proof. solve_decision. Defined.
#[global] Instance Agent_eq_dec : EqDecision Agent.
Proof. solve_decision. Defined.

(** [isinstance(agent, CoraBorrowerAgent)] *)
Definition is_borrower (agent : Agent) : bool :=
  match agent with
  | Borrower _ => true
  | _ => false
  end.

End agents.

(** ** [protocols/cora/v1/protocol.py] *)

Module protocol.
Import lending_pool.

(** A dictionary in insertion order: the list of its items, the keys
    pairwise different. *)
Fixpoint dict_get {V} (items : list (string * V)) (key : string) : option V :=
  match items with
  | [] => None
  | (k, v) :: rest => if decide (k = key) then Some v else dict_get rest key
  end.

(** [key in d] *)
Definition dict_contains {V} (items : list (string * V)) (key : string) : bool :=
  match dict_get items key with
  | Some _ => true
  | None => false
  end.

(** [d[key] = v]: a present key keeps its place, a new one goes last. *)
Fixpoint dict_set {V} (items : list (string * V)) (key : string) (v : V)
    : list (string * V) :=
  match items with
  | [] => [(key, v)]
  | (k, v0) :: rest =>
      if decide (k = key) then (k, v) :: rest
      else (k, v0) :: dict_set rest key v
  end.

Record CoraV1Protocol : Type := {
  _total_lending_pools : Z;
  _lending_pools : list (string * LendingPool)
}.

Definition set_lending_pools (v : list (string * LendingPool))
    (self : CoraV1Protocol) : CoraV1Protocol :=
  {| _total_lending_pools := _total_lending_pools self; _lending_pools := v |}.
Definition set_total_lending_pools (v : Z) (self : CoraV1Protocol)
    : CoraV1Protocol :=
  {| _total_lending_pools := v; _lending_pools := _lending_pools self |}.

Definition __init__ : CoraV1Protocol :=
  {| _total_lending_pools := 0; _lending_pools := [] |}.

Definition get_lending_pools (self : CoraV1Protocol) : list LendingPool :=
  (_lending_pools self).*2.

Definition get_lending_pool (name : string) : M CoraV1Protocol LendingPool :=
  let* pools := gets _lending_pools in
  match dict_get pools name with
  | Some lending_pool => ret lending_pool
  | None => raise (Builtin KeyError)
  end.

Definition create_lending_pool (environment : Environment) (name : string)
    (fee_model : FeeModel) (max_ltv max_liquidity : Q)
    (genesis_period_seconds running_period_seconds : Z)
    (min_liquidity min_loan_amount : Q) (min_loan_period_seconds : Z)
    (min_position_size : Q) : M CoraV1Protocol unit :=
  let* pools := gets _lending_pools in
  py_assert (negb (dict_contains pools name)) >>
  py_assert (Qle_bool 0 min_loan_amount) >>
  py_assert (0 <=? min_loan_period_seconds) >>
  py_assert (Qle_bool 0 min_position_size) >>
  py_assert (0 <=? genesis_period_seconds) >>
  py_assert (0 <=? running_period_seconds) >>
  py_assert (Qle_bool 0 min_liquidity) >>
  py_assert (Qltb 0 max_ltv) >>
  py_assert (Qle_bool max_ltv 1) >>
  py_assert (Qltb 0 max_liquidity) >>
  let lending_pool :=
    lending_pool.__init__ name environment fee_model max_ltv max_liquidity
      genesis_period_seconds running_period_seconds min_liquidity
      min_loan_amount min_loan_period_seconds min_position_size in
  modify (fun self =>
            set_lending_pools (dict_set (_lending_pools self) name lending_pool)
              self) >>
  modify (fun self =>
            set_total_lending_pools (_total_lending_pools self + 1) self).

(** The loop of [take_step]: the pools step one after the other, each in
    place, so that the pools stepped before one that raises stay stepped. *)
Fixpoint step_pools (environment : Environment) (time_step : timedelta)
    (pools : list (string * LendingPool))
    : outcome (list (string * LendingPool)) (list EventInfo) :=
  match pools with
  | [] => Ok [] []
  | (key, lending_pool) :: rest =>
      match lending_pool.take_step environment time_step lending_pool with
      | Raise e lending_pool' => Raise e ((key, lending_pool') :: rest)
      | Ok events lending_pool' =>
          match step_pools environment time_step rest with
          | Raise e rest' => Raise e ((key, lending_pool') :: rest')
          | Ok more rest' => Ok (events ++ more) ((key, lending_pool') :: rest')
          end
      end
  end.

Definition take_step (environment : Environment) (time_step : timedelta)
    : M CoraV1Protocol (list EventInfo) :=
  zoom _lending_pools set_lending_pools (step_pools environment time_step).

End protocol.

(** ** [CoraLenderAgent] of [protocols/cora/v1/agents.py] *)

Module lender_agent.
Import lending_pool agents.

Definition set_lender_wallet (v : Wallet) (x : CoraLenderAgent) : CoraLenderAgent :=
  {| lender_id := lender_id x; lender_wallet := v; amount := amount x;
     _has_lended := _has_lended x |}.
Definition set_has_lended (v : bool) (x : CoraLenderAgent) : CoraLenderAgent :=
  {| lender_id := lender_id x; lender_wallet := lender_wallet x;
     amount := amount x; _has_lended := v |}.

(** What a lender's [act] runs on: the protocol and the agent itself. *)
Record World : Type := {
  the_protocol : protocol.CoraV1Protocol;
  self : CoraLenderAgent
}.

(** [lending_pool.deposit(lender=self, amount=...)] on the pool object kept
    under [key]. *)
Definition call_deposit (key : string) (lending_pool : LendingPool)
    (amount : Q) : M World unit :=
  zoom (fun w => {| pool := lending_pool; wallet := lender_wallet (self w) |})
       (fun pw w =>
          {| the_protocol :=
               protocol.set_lending_pools
                 (protocol.dict_set (protocol._lending_pools (the_protocol w))
                    key (pool pw))
                 (the_protocol w);
             self := set_lender_wallet (wallet pw) (self w) |})
       (deposit amount).

(** [CoraLenderAgent.act]: the loop body ends in [break], so that only the
    first pool is ever visited. *)
Definition act (env : Environment) : M World (list ActionInfo) :=
  let* me := gets self in
  if negb (_has_lended me) then
    let current_time := get_time env in
    let* pools := gets (fun w => protocol._lending_pools (the_protocol w)) in
    match pools with
    | [] => ret []
    | (key, lending_pool) :: _ =>
        call_deposit key lending_pool (amount me) >>
        modify (fun w => {| the_protocol := the_protocol w;
                            self := set_has_lended true (self w) |}) >>
        ret [ {| act_agent_id := lender_id me;
                 act_time := current_time;
                 act_type := "deposit";
                 act_extra := [ ("amount", VFloat (amount me));
                                ("lending_pool", VStr (name lending_pool)) ] |} ]
    end
  else ret [].

End lender_agent.

(** ** [protocols/cora/v1/strategies.py] *)

Definition inspect {A} (x : A) : {y : A | x = y} := exist _ x eq_refl.

Module strategies.
Import lending_pool agents.

(** The loop
    [for agent in agents: if isinstance(agent, CoraBorrowerAgent): agents.remove(agent)].
    A Python list iterator holds an index [i] into the list it walks: each
    round reads [agents[i]], stops when [i] is past the current end, and
    moves to [i + 1], while [agents.remove] shortens the very list that is
    being walked.  [None] stands for the [ValueError] of [list.remove]. *)
Equations? delete_borrowers (i : nat) (agents : list Agent)
    : option (list Agent) by wf (length agents - i)%nat lt :=
  delete_borrowers i agents with inspect (agents !! i) => {
    | exist _ None _ := Some agents;
    | exist _ (Some agent) Hi with is_borrower agent => {
        | false := delete_borrowers (S i) agents;
        | true with inspect (remove_first agent agents) => {
            | exist _ None _ := None;
            | exist _ (Some agents') Hr := delete_borrowers (S i) agents' } } }.
Proof.
  all: apply lookup_lt_Some in Hi.
  - assert (Hlen : length agents = S (length agents')); [|lia].
    clear Hi delete_borrowers. revert agents' Hr.
    induction agents as [|y l IH]; intros l' H; simpl in H; [discriminate|].
    destruct (decide (agent = y)).
    + injection H as <-. reflexivity.
    + destruct (remove_first agent l) as [r|] eqn:E; simpl in H; [|discriminate].
      injection H as <-. simpl. f_equal. apply IH. reflexivity.
  - lia.
Qed.

Section UpdateAgents.

(** The state of the strategy's samplers and id counters, and
    [_create_borrower_agents], whose sampling is taken as given. *)
Variable Sampler : Type.
Variable _create_borrower_agents :
  Environment -> LendingPool -> timedelta -> M Sampler (list CoraBorrowerAgent).

(** The body shared, word for word, by [CoraV1Strategy.update_agents] and
    [CoraV2Strategy.update_agents]. *)
Definition update_agents_body (agents : list Agent)
    (lending_pools : list LendingPool) (environment : Environment)
    (time_step : timedelta) : M Sampler (list Agent) :=
  fold_each lending_pools agents
    (fun agents lending_pool =>
       if _is_new_cycle lending_pool then
         match delete_borrowers 0 agents with
         | None => raise (Builtin ValueError)
         | Some agents =>
             let* new_agents :=
               _create_borrower_agents environment lending_pool time_step in
             ret (agents ++ (Borrower <$> new_agents))
         end
       else ret agents).

End UpdateAgents.

Module CoraV1Strategy.
Definition update_agents := update_agents_body.
End CoraV1Strategy.

Module CoraV2Strategy.
Definition update_agents := update_agents_body.
End CoraV2Strategy.

End strategies.

(** ** Concrete scenarios

    A pool with the periods of the repository's [TestLendingPool.setUp] (no
    genesis period, a running period of 180 seconds), a maximum LTV of 0.9,
    a flat one-percent fee model, and a clock that ticks every 60 seconds at
    a price of 2000. *)

Module scenario.
Import lending_pool.

Definition flat_fee : FeeModel := fun _ _ _ => inr (1 # 100)%Q.

Definition at_second (t : Z) : Environment :=
  {| get_time := timedelta_of_seconds t; get_price := 2000 |}.

Definition minute : timedelta := timedelta_of_seconds 60.

Definition fresh_pool : LendingPool :=
  __init__ "LendingPool" (at_second 0) flat_fee (9 # 10) 1000 0 180 0 0 0 0.

Definition lender : Wallet :=
  {| address := "mock_address"; primary_balance := 1000;
     secondary_balance := 2000 |}.

Definition borrower : Wallet :=
  {| address := "borrower_000000"; primary_balance := 1000;
     secondary_balance := 1000 |}.

(** Nobody deposits; the first step promotes the pool to Running. *)
Definition empty_running_pool : LendingPool :=
  final_state (take_step (at_second 60) minute fresh_pool).

(** The lender deposits 500 during genesis. *)
Definition after_deposit : PoolAndWallet :=
  final_state (deposit 500 {| pool := fresh_pool; wallet := lender |}).

(** The pool then starts running with the 500 as its liquidity. *)
Definition funded_pool : LendingPool :=
  final_state (take_step (at_second 60) minute (pool after_deposit)).

(** The lender signals a full withdrawal, and the running cycle ends. *)
Definition after_signal : PoolAndWallet :=
  final_state (signal_withdrawal 1
                 {| pool := funded_pool; wallet := wallet after_deposit |}).

Definition settled_pool : LendingPool :=
  final_state (take_step (at_second 240) minute (pool after_signal)).

(** A borrower takes a loan of 0 against one unit of collateral from the
    pool nobody deposited into. *)
Definition after_zero_loan : PoolAndWallet :=
  final_state (borrow (at_second 70) 0 1 minute
                 {| pool := empty_running_pool; wallet := borrower |}).

(** A Kelly grid over the LTVs 0.5 and 0.8 and the single expiration of 30
    days, with flat curves ([a = 0]) of 1% and 5%. *)
Definition curve_low : kelly_fee_model.KellyCurve :=
  {| kelly_fee_model.a := 0; kelly_fee_model.b := 1; kelly_fee_model.c := 1;
     kelly_fee_model.d := 1 # 100 |}.
Definition curve_high : kelly_fee_model.KellyCurve :=
  {| kelly_fee_model.a := 0; kelly_fee_model.b := 1; kelly_fee_model.c := 1;
     kelly_fee_model.d := 5 # 100 |}.
Definition kelly_grid
    : list (kelly_fee_model.GridPoint * kelly_fee_model.KellyCurve) :=
  [ ({| kelly_fee_model.ltv := 5 # 10; kelly_fee_model.days := 30 |}, curve_low);
    ({| kelly_fee_model.ltv := 8 # 10; kelly_fee_model.days := 30 |}, curve_high) ].
Definition kelly_model : kelly_fee_model.KellyFeeModel :=
  {| kelly_fee_model.curve_grid := kelly_grid;
     kelly_fee_model.ltvs := [5 # 10; 8 # 10]%Q;
     kelly_fee_model.days_ := [30%Q] |}.
Definition week : timedelta := timedelta_of_seconds (7 * 86400).

(** A borrower agent planning a loan of [size] at LTV 0.5, from second 60
    on, for 100 seconds, and the world it acts in. *)
Definition borrower_agent (id : string) (size : Q) : agents.CoraBorrowerAgent :=
  {| agents.id := id;
     agents.borrower_wallet :=
       {| address := id; primary_balance := 1000; secondary_balance := 1000 |};
     agents.lending_pool_name := "LendingPool";
     agents.loan_size := size;
     agents.loan_start := timedelta_of_seconds 60;
     agents.loan_duration := timedelta_of_seconds 100;
     agents.ltv := 1 # 2;
     agents.repay_margin := minute;
     agents._has_borrowed := false;
     agents._has_expired := false;
     agents.loan := None |}.

Definition borrower_world (size : Q) : agents.World :=
  {| agents._lending_pools := {[ "LendingPool" := funded_pool ]};
     agents.self := borrower_agent "borrower_000000" size |}.

Definition the_manager : agents.CoraPoolManager :=
  {| agents.manager_id := "poolmanager_000000";
     agents.manager_wallet :=
       {| address := "poolmanager_000000"; primary_balance := 0;
          secondary_balance := 0 |};
     agents.manager_pool_name := "LendingPool" |}.

Definition the_lender : agents.CoraLenderAgent :=
  {| agents.lender_id := "lender_000000";
     agents.lender_wallet := lender;
     agents.amount := 500;
     agents._has_lended := true |}.

(** A stand-in for [_create_borrower_agents] that makes one borrower. *)
Definition one_new_borrower (_ : Environment) (_ : LendingPool) (_ : timedelta)
    : M unit (list agents.CoraBorrowerAgent) :=
  ret [borrower_agent "borrower_000003" 100].

(** A borrower takes 100 for one minute against one unit of collateral
    from the funded pool. *)
Definition after_borrow : PoolAndWallet :=
  final_state (borrow (at_second 70) 100 1 minute
                 {| pool := funded_pool; wallet := borrower |}).

(** The events of the step that settles the cycle of [after_signal], and
    the step that settles the cycle of [funded_pool] with no withdrawal
    signaled. *)
Definition settlement_events : list EventInfo :=
  match take_step (at_second 240) minute (pool after_signal) with
  | Ok events _ => events
  | Raise _ _ => []
  end.

Definition rolled_pool : LendingPool :=
  final_state (take_step (at_second 240) minute funded_pool).

Definition rolled_events : list EventInfo :=
  match take_step (at_second 240) minute funded_pool with
  | Ok events _ => events
  | Raise _ _ => []
  end.

(** The borrower of [after_borrow] lets the loan expire: the cycle ends with
    one unit of collateral locked. *)
Definition defaulted_pool : LendingPool :=
  final_state (take_step (at_second 240) minute (pool after_borrow)).

Definition defaulted_events : list EventInfo :=
  match take_step (at_second 240) minute (pool after_borrow) with
  | Ok events _ => events
  | Raise _ _ => []
  end.

(** A second borrower takes 50 for one minute against one unit of
    collateral, ten seconds after the first; the cycle then ends with both
    loans outstanding. *)
Definition second_borrower : Wallet :=
  {| address := "a_borrower"; primary_balance := 0;
     secondary_balance := 5 |}.

Definition after_two_loans : PoolAndWallet :=
  final_state (borrow (at_second 80) 50 1 minute
                 {| pool := pool after_borrow; wallet := second_borrower |}).

Definition two_loans_settled : LendingPool :=
  final_state (take_step (at_second 240) minute (pool after_two_loans)).

Definition two_loans_events : list EventInfo :=
  match take_step (at_second 240) minute (pool after_two_loans) with
  | Ok events _ => events
  | Raise _ _ => []
  end.

(** An Aave curve with the kink at 80% utilization. *)
Definition aave_curve : aave_model.AaveFeeModel :=
  aave_model.update_parameters (Some (8 # 10)%Q) (Some (1 # 100)%Q)
    (Some (4 # 100)%Q) (Some (75 # 100)%Q) aave_model.__init__.

(** A protocol with the fresh pool as its only pool, and the lender agent
    before its deposit. *)
Definition one_pool_protocol : protocol.CoraV1Protocol :=
  final_state
    (protocol.create_lending_pool (at_second 0) "LendingPool" flat_fee
       (9 # 10) 1000 0 180 0 0 0 0 protocol.__init__).

Definition new_lender : agents.CoraLenderAgent :=
  {| agents.lender_id := "lender_000000";
     agents.lender_wallet := lender;
     agents.amount := 500;
     agents._has_lended := false |}.

(** The borrower agent of [borrower_world 100] after it has borrowed, at
    second 70. *)
Definition borrowed_world : agents.World :=
  final_state (agents.act (at_second 70) (borrower_world 100)).

End scenario.

(** ** Vocabulary of the proofs *)

(** What the three settlement loops leave alone. *)
Definition settlement_frame (p q : lending_pool.LendingPool) : Prop :=
  lending_pool._total_deposits q = lending_pool._total_deposits p
  /\ lending_pool._utilizations q = lending_pool._utilizations p
  /\ lending_pool._running_period q = lending_pool._running_period p
  /\ lending_pool._signaled_withdrawals q = lending_pool._signaled_withdrawals p.

(** Every lender with a signaled withdrawal is a depositor of the cycle
    (what the assertion in [signal_withdrawal] maintains). *)
Definition signaled_are_depositors (p : lending_pool.LendingPool) : Prop :=
  forall address : string,
    is_Some (lending_pool._signaled_withdrawals p !! address) ->
    is_Some (lending_pool._deposits p !! address).

(** ** States that the pool operations leave, named for the theorems *)

Module outcomes.
Import lending_pool.

(** The state [borrow] leaves when it returns. *)
Definition borrowed_loan (env : Environment) (p : LendingPool) (w : Wallet)
    (borrow_amount collateral_amount : Q) (loan_period : timedelta)
    (fee_percentage : Q) : Loan :=
  {| start_time := get_time env;
     borrowing_fee := (fee_percentage * borrow_amount)%Q;
     net_loan := (borrow_amount - fee_percentage * borrow_amount)%Q;
     total_debt := borrow_amount;
     expiration_time := get_time env + loan_period;
     collateral_amount := collateral_amount;
     loan_id :=
       calculate_loan_id p w (timestamp_int (get_time env + loan_period));
     borrower_address := address w;
     initial_ltv := (borrow_amount / (collateral_amount * get_price env))%Q;
     paid := false |}.

Definition pool_after_borrow (p : LendingPool) (w : Wallet) (loan : Loan)
    : LendingPool :=
  set_loans (<[loan_id loan := loan]> (_loans p))
    (set_borrower_loans
       (<[address w :=
            default [] (_borrower_loans p !! address w) ++ [loan_id loan]]>
          (_borrower_loans p))
       (set_borrowed_amount (_borrowed_amount p + net_loan loan)%Q
          (set_available_amount (_available_amount p - net_loan loan)%Q
             (set_total_collateral_locked
                (_total_collateral_locked p + collateral_amount loan)%Q p)))).

Definition wallet_after_borrow (w : Wallet) (loan : Loan) : Wallet :=
  set_primary_balance (primary_balance w + net_loan loan)%Q
    (set_secondary_balance (secondary_balance w - collateral_amount loan)%Q w).

Definition pool_after_repay (p : LendingPool) (w : Wallet) (id : string)
    (ids' : list string) (loan : Loan) : LendingPool :=
  set_loans (<[id := set_paid true loan]> (_loans p))
    (set_borrower_loans (<[address w := ids']> (_borrower_loans p))
       (set_total_fees_earned (_total_fees_earned p + borrowing_fee loan)%Q
          (set_total_collateral_locked
             (_total_collateral_locked p - collateral_amount loan)%Q
             (set_borrowed_amount (_borrowed_amount p - net_loan loan)%Q
                (set_available_amount
                   (_available_amount p + total_debt loan)%Q p))))).

Definition wallet_after_repay (w : Wallet) (loan : Loan) : Wallet :=
  set_secondary_balance (secondary_balance w + collateral_amount loan)%Q
    (set_primary_balance (primary_balance w - total_debt loan)%Q w).

(** A depositor's share of the liquidity that remains at the end of a
    cycle: [deposit_amount / total_deposits * available_amount]. *)
Definition lender_share (p : LendingPool) (d : Q) : Q :=
  (d / _total_deposits p * _available_amount p)%Q.

(** The pool after the step that settles a running cycle, given the three
    dictionaries the settlement rewrites and the record it files. *)
Definition pool_after_settlement (p : LendingPool) (RC PW D : gmap string Q)
    (cd : CycleData) : LendingPool :=
  {| name := name p; _fee_model := _fee_model p; _max_ltv := _max_ltv p;
     _max_liquidity := _max_liquidity p; _genesis_period := _genesis_period p;
     _running_period := _running_period p; _min_liquidity := _min_liquidity p;
     _min_loan_amount := _min_loan_amount p;
     _min_load_period := _min_load_period p;
     _min_position_size := _min_position_size p; _status := _status p;
     _next_cycle_time := _next_cycle_time p + _running_period p;
     _pending_deposits := ∅;
     _signaled_withdrawals := ∅;
     _pending_withdrawals := PW;
     _reclaimed_collateral := RC;
     _deposits := D; _borrower_loans := ∅;
     _loans := ∅; _utilizations := [];
     _cycle_history := <[_cycle_count p := cd]> (_cycle_history p);
     _total_deposits := Qsum (values D);
     _total_collateral_locked := 0;
     _available_amount := Qsum (values D);
     _borrowed_amount := 0;
     _total_fees_earned := 0;
     _is_new_cycle := true; _cycle_count := _cycle_count p + 1 |}.

(** The record [CycleData] that the settlement files for the cycle that
    ends, the reading of the current step included in the average. *)
Definition settled_cycle_data (env : Environment) (p : LendingPool) : CycleData :=
  let utilizations := _utilizations p ++ [get_utilization p] in
  {| initial_liquidity := _total_deposits p;
     remaining_liquidity := _available_amount p;
     total_reclaimed_collateral := _total_collateral_locked p;
     cd_total_fees_earned := _total_fees_earned p;
     final_collateral_price := get_price env;
     final_collateral_value := (get_price env * _total_collateral_locked p)%Q;
     average_utilization :=
       (Qsum utilizations / inject_Z (Z.of_nat (length utilizations)))%Q;
     normalized_utilization :=
       (Qsum (get_sizedays <$> odict_values (_loans p))
        / (_total_deposits p * total_seconds (_running_period p) / 86400))%Q;
     cd_loans := odict_values (_loans p) |}.

(** What the settlement leaves for the address [k]: its reclaimed
    collateral, its pending withdrawal and its deposit of the next cycle. *)
Definition settled_entry (p : LendingPool) (RC PW D : gmap string Q)
    (k : string) : Prop :=
  RC !! k
  = match _deposits p !! k with
    | Some d =>
        Some (get_or_zero (_reclaimed_collateral p) k
              + d / _total_deposits p * _total_collateral_locked p)%Q
    | None => _reclaimed_collateral p !! k
    end
  /\ match _signaled_withdrawals p !! k with
     | Some r =>
         exists d,
           _deposits p !! k = Some d
           /\ PW !! k
              = Some (get_or_zero (_pending_withdrawals p) k
                      + lender_share p d * r)%Q
           /\ D !! k
              = if Qltb 0 (lender_share p d - lender_share p d * r)
                then Some (get_or_zero (_pending_deposits p) k
                           + (lender_share p d - lender_share p d * r))%Q
                else _pending_deposits p !! k
     | None =>
         PW !! k = _pending_withdrawals p !! k
         /\ D !! k
            = match _deposits p !! k with
              | Some d =>
                  if Qltb 0 (lender_share p d)
                  then Some (get_or_zero (_pending_deposits p) k
                             + lender_share p d)%Q
                  else _pending_deposits p !! k
              | None => _pending_deposits p !! k
              end
     end.


(** The value a computation returned, if it returned. *)
Definition returned {S A} (o : outcome S A) : option A :=
  match o with
  | Ok a _ => Some a
  | Raise _ _ => None
  end.

(** A pool of the protocol after its own step, and the events of that
    step. *)
Definition stepped (env : Environment) (time_step : timedelta)
    (item : string * LendingPool) : string * LendingPool :=
  (item.1, final_state (take_step env time_step item.2)).

Definition events_of (env : Environment) (time_step : timedelta)
    (item : string * LendingPool) : list EventInfo :=
  default [] (returned (take_step env time_step item.2)).

(** The pool after a deposit of [amount] from the wallet [w]. *)
Definition pool_after_deposit (p : LendingPool) (w : Wallet) (amount : Q)
    : LendingPool :=
  set_pending_deposits
    (<[address w := (get_or_zero (_pending_deposits p) (address w) + amount)%Q]>
       (_pending_deposits p)) p.


(** The pool managers and the lenders of a list of agents. *)
Definition is_pool_manager (agent : agents.Agent) : bool :=
  match agent with
  | agents.PoolManager _ => true
  | _ => false
  end.

Definition is_lender (agent : agents.Agent) : bool :=
  match agent with
  | agents.Lender _ => true
  | _ => false
  end.


(** What every borrower that [_create_borrower_agents] creates for a pool
    looks like. *)
Definition created_for (lending_pool : LendingPool) (time_step : timedelta)
    (max_ltv : Q) (b : agents.CoraBorrowerAgent) : Prop :=
  agents.lending_pool_name b = name lending_pool
  /\ agents.repay_margin b = time_step
  /\ time_step <= agents.loan_duration b
  /\ (agents.ltv b <= max_ltv - (1 # 1000000000))%Q
  /\ agents._has_borrowed b = false
  /\ agents._has_expired b = false
  /\ agents.loan b = None
  /\ address (agents.borrower_wallet b) = agents.id b
  /\ primary_balance (agents.borrower_wallet b) = 1000000000%Q
  /\ secondary_balance (agents.borrower_wallet b) = 1000000000%Q.

End outcomes.

(** ** [protocols/cora/v1/metrics.py] *)

Module metrics.
Import lending_pool.

(** The loan lists of [CoraMetrics.by_step] and
    [CoraMetrics.end_of_simulation], from [loans], the result of
    [lending_pool.get_all_loans()]. *)
Definition unpaid_loans (loans : list Loan) : list Loan :=
  List.filter (fun loan => negb (paid loan)) loans.

Definition expired_loans (environment : Environment) (loans : list Loan)
    : list Loan :=
  List.filter (fun loan => is_expired loan environment) loans.

Definition active_loans (environment : Environment) (loans : list Loan)
    : list Loan :=
  List.filter (fun l => negb (is_expired l environment)) (unpaid_loans loans).

Definition repaid_loans (environment : Environment) (loans : list Loan)
    : list Loan :=
  List.filter (fun loan => paid loan) (expired_loans environment loans).

Definition defaulted_loans (environment : Environment) (loans : list Loan)
    : list Loan :=
  List.filter (fun loan => negb (paid loan)) (expired_loans environment loans).

(** Python's [min(a, b)]: [b] only when it is strictly smaller. *)
Definition py_min (a b : Q) : Q := if Qltb b a then b else a.

(** The entries [pool_realized_pnl] and [pool_unrealized_pnl] of
    [by_step]. *)
Definition pool_realized_pnl (environment : Environment) (loans : list Loan)
    : Q :=
  let collateral_price := get_price environment in
  let pool_capital_lent_defaulted :=
    Qsum (net_loan <$> defaulted_loans environment loans) in
  let reclaimed_collateral :=
    Qsum (collateral_amount <$> defaulted_loans environment loans) in
  let reclaimed_collateral_value := (reclaimed_collateral * collateral_price)%Q in
  let earned_fees := Qsum (borrowing_fee <$> repaid_loans environment loans) in
  (earned_fees + reclaimed_collateral_value - pool_capital_lent_defaulted)%Q.

Definition pool_unrealized_pnl (environment : Environment) (loans : list Loan)
    : Q :=
  let collateral_price := get_price environment in
  (Qsum ((fun loan =>
            py_min (collateral_price * collateral_amount loan) (total_debt loan)
            - net_loan loan)%Q <$> active_loans environment loans)
   + pool_realized_pnl environment loans)%Q.

(** The entry [pool_pnl] of [end_of_simulation]. *)
Definition pool_pnl (environment : Environment) (loans : list Loan) : Q :=
  let pool_capital_lent_unpaid := Qsum (net_loan <$> unpaid_loans loans) in
  let reclaimed_collateral := Qsum (collateral_amount <$> unpaid_loans loans) in
  let collateral_price := get_price environment in
  (Qsum (borrowing_fee <$> repaid_loans environment loans)
   + reclaimed_collateral * collateral_price
   - pool_capital_lent_unpaid)%Q.

End metrics.

(** ** [simulator/state/state.py] *)

Module state.
Import agents.

(** [agent.get_priority()]: the class attribute [_priority]. *)
Definition get_priority (agent : Agent) : Z :=
  match agent with
  | PoolManager _ => 0
  | Lender _ => 1
  | Borrower _ => 2
  end.

(** [sorted(l, key=key)], a stable sort: elements with equal keys keep
    their order. *)
Fixpoint insert_by {A} (key : A -> Z) (x : A) (l : list A) : list A :=
  match l with
  | [] => [x]
  | y :: rest => if key x <=? key y then x :: l else y :: insert_by key x rest
  end.

Definition sorted_by {A} (key : A -> Z) (l : list A) : list A :=
  foldr (insert_by key) [] l.

Definition _agents_by_priority (_agents : option (list Agent)) : list Agent :=
  match _agents with
  | None => []
  | Some agents => sorted_by get_priority agents
  end.

End state.

(** ** [CoinGeckoMarketChart.get_data] of [apis/coingecko/market_chart.py] *)

Module CoinGeckoMarketChart.

(** The range [from=..&to=..] of the request that [get_data] sends;
    [None] stands for [GranularityException]. *)
Definition get_data_range (start end_ : Z) : option (Z * Z) :=
  if 90 <? market_chart.get_days_between_unix_timestamps start end_ then None
  else
    let start :=
      if market_chart.get_days_between_unix_timestamps start end_ <? 1
      then start - (86400 + 1) else start in
    Some (start, end_).

End CoinGeckoMarketChart.

(** ** [HistoricalCoraEnvironment] of [protocols/cora/v1/environments.py] *)

Module HistoricalCoraEnvironment.

(** [simulator/utilities/price_data.py] *)
Record PriceDataItem : Type := {
  time : Z;
  price : Q
}.

(** [np.searchsorted(timestamps, t, side="right")] on ascending
    timestamps (or any that are [<= t] up to some index and [> t] from
    there on): the number of leading timestamps that are [<= t]. *)
Fixpoint searchsorted_right (timestamps : list Z) (t : Z) : Z :=
  match timestamps with
  | [] => 0
  | x :: rest => if x <=? t then 1 + searchsorted_right rest t else 0
  end.

(** [self._previous_interp] *)
Definition _previous_interp (_price_data : list PriceDataItem) (t : Z) : Z :=
  Z.max (searchsorted_right (time <$> _price_data) t - 1) 0.

(** [self._prices[idx]], with the non-negative index that
    [_previous_interp] gives.  The method carries an [lru_cache]: this is
    its value on price data that are loaded once. *)
Definition get_searchsorted_price_for_timestamp
    (_price_data : list PriceDataItem) (timestamp : Z) : BuiltinError + Q :=
  match (price <$> _price_data)
        !! Z.to_nat (_previous_interp _price_data timestamp) with
  | Some p => inr p
  | None => inl IndexError
  end.

(** [get_price], at the time [_time] of the environment. *)
Definition get_price (_price_data : list PriceDataItem) (_time : datetime)
    : BuiltinError + Q :=
  get_searchsorted_price_for_timestamp _price_data (timestamp_int _time).

End HistoricalCoraEnvironment.

(** ** [CoraV1Strategy._create_borrower_agents] of
    [protocols/cora/v1/strategies.py] *)

Module CoraV1StrategyBorrowers.
Import lending_pool agents.

(** [float * timedelta]: the exact product in microseconds, rounded to
    the nearest microsecond, ties to even. *)
Definition round_half_even (x : Q) : Z :=
  let f := Qfloor x in
  let d := (x - inject_Z f)%Q in
  if Qltb d (1 # 2) then f
  else if Qltb (1 # 2) d then f + 1
  else if Z.even f then f else f + 1.

Definition float_mul_timedelta (factor : Q) (d : timedelta) : timedelta :=
  round_half_even (factor * inject_Z d).

(** The format [{n:06d}] of a count. *)
Definition format_06d (n : nat) : string :=
  let digits := pretty n in
  String.concat "" (replicate (6 - String.length digits) "0") +:+ digits.

Definition UNLIMITED_BALANCE : Q := 1000000000.

Section CreateBorrowerAgents.

(** The random generator behind the four distributions, and their
    [sample] methods, which are taken as given. *)
Variable Rng : Type.
Variable loan_size_dist : M Rng Q.
Variable loan_start_dist : M Rng Q.
Variable loan_duration_dist : M Rng Q.
Variable ltv_dist : M Rng Q.

(** The strategy, as far as [_create_borrower_agents] reads and writes
    it. *)
Record Strategy : Type := {
  utilization_parameter : Q;
  max_ltv : Q;
  borrower_counter : nat;
  rng : Rng
}.

Definition set_borrower_counter (v : nat) (self : Strategy) : Strategy :=
  {| utilization_parameter := utilization_parameter self;
     max_ltv := max_ltv self; borrower_counter := v; rng := rng self |}.
Definition set_rng (v : Rng) (self : Strategy) : Strategy :=
  {| utilization_parameter := utilization_parameter self;
     max_ltv := max_ltv self; borrower_counter := borrower_counter self;
     rng := v |}.

(** [dist.sample()] *)
Definition sample (dist : M Rng Q) : M Strategy Q := zoom rng set_rng dist.

(** [next(self.borrower_counter)] *)
Definition next_borrower_counter : M Strategy nat :=
  let* n := gets borrower_counter in
  modify (set_borrower_counter (S n)) >>
  ret n.

(** The loop [while True: ...], at most [fuel] rounds of it: [None] when
    the loop has not reached its [break] by then. *)
Fixpoint create_loop (fuel : nat) (environment : Environment)
    (lending_pool : LendingPool) (time_step : timedelta)
    (target_total_loans : Q) (total_loan_size : Q)
    (new_agents : list CoraBorrowerAgent)
    : M Strategy (option (list CoraBorrowerAgent)) :=
  match fuel with
  | O => ret None
  | S fuel =>
      let running_period := _running_period lending_pool in
      let* borrower_loan_size := sample loan_size_dist in
      if Qltb target_total_loans (total_loan_size + borrower_loan_size)
      then ret (Some new_agents)
      else
        let* n := next_borrower_counter in
        let borrower_id := "borrower_" +:+ format_06d n in
        let* loan_start_factor := sample loan_start_dist in
        let loan_start_delta :=
          float_mul_timedelta loan_start_factor running_period in
        let loan_start := get_time environment + loan_start_delta in
        let max_duration := running_period - loan_start_delta in
        let* loan_duration_factor := sample loan_duration_dist in
        let candidate :=
          float_mul_timedelta loan_duration_factor
            (max_duration - 2 * time_step) + time_step in
        let loan_duration :=
          if candidate <? time_step then time_step else candidate in
        let* ltv_factor := sample ltv_dist in
        let* max_ltv := gets max_ltv in
        let ltv := metrics.py_min ltv_factor (max_ltv - (1 # 1000000000)) in
        let borrower :=
          {| id := borrower_id;
             borrower_wallet :=
               {| address := borrower_id;
                  primary_balance := UNLIMITED_BALANCE;
                  secondary_balance := UNLIMITED_BALANCE |};
             lending_pool_name := name lending_pool;
             loan_size := borrower_loan_size;
             loan_start := loan_start;
             loan_duration := loan_duration;
             ltv := ltv;
             repay_margin := time_step;
             _has_borrowed := false;
             _has_expired := false;
             loan := None |} in
        create_loop fuel environment lending_pool time_step target_total_loans
          (total_loan_size + borrower_loan_size) (new_agents ++ [borrower])
  end.

Definition _create_borrower_agents (fuel : nat) (environment : Environment)
    (lending_pool : LendingPool) (time_step : timedelta)
    : M Strategy (option (list CoraBorrowerAgent)) :=
  let available_liquidity := _available_amount lending_pool in
  let* utilization_parameter := gets utilization_parameter in
  let target_total_loans := (utilization_parameter * available_liquidity)%Q in
  create_loop fuel environment lending_pool time_step target_total_loans 0 [].

End CreateBorrowerAgents.

End CoraV1StrategyBorrowers.

(** * Theorems *)

Import lending_pool.

(** ** Helper lemmas *)

Lemma Qltb_lt a b : Qltb a b = true <-> (a < b)%Q.
Proof.
  unfold Qltb. rewrite negb_true_iff. split.
  - intros H. apply Qnot_le_lt. intros Hle.
    apply Qle_bool_iff in Hle. congruence.
  - intros H. destruct (Qle_bool b a) eqn:E; [|reflexivity].
    apply Qle_bool_iff in E. apply Qlt_not_le in H. contradiction.
Qed.

Lemma Qltb_ge a b : Qltb a b = false <-> (b <= a)%Q.
Proof.
  unfold Qltb. rewrite negb_false_iff. apply Qle_bool_iff.
Qed.

(** ** The loans dictionary *)

Lemma odict_get_set_eq {V} (l : list (string * V)) (k : string) (v : V) :
  odict_get (odict_set l k v) k = Some v.
Proof.
  induction l as [|[k' v'] l IH]; cbn.
  - destruct (decide (k = k)); [reflexivity|contradiction].
  - destruct (decide (k' = k)) as [E|N]; cbn.
    + destruct (decide (k = k)); [reflexivity|contradiction].
    + destruct (decide (k' = k)); [contradiction|exact IH].
Qed.

Lemma odict_get_set_ne {V} (l : list (string * V)) (k k' : string) (v : V) :
  k <> k' -> odict_get (odict_set l k v) k' = odict_get l k'.
Proof.
  intros Hne. induction l as [|[k0 v0] l IH]; cbn.
  - destruct (decide (k = k')); [contradiction|reflexivity].
  - destruct (decide (k0 = k)) as [E|N]; cbn.
    + subst k0. destruct (decide (k = k')); [contradiction|reflexivity].
    + destruct (decide (k0 = k')); [reflexivity|exact IH].
Qed.

Lemma odict_lookup_insert_eq {V} (d : odict V) (k : string) (v : V) :
  <[k := v]> d !! k = Some v.
Proof. apply odict_get_set_eq. Qed.

Lemma odict_lookup_insert_ne {V} (d : odict V) (k k' : string) (v : V) :
  k <> k' -> <[k := v]> d !! k' = d !! k'.
Proof. apply odict_get_set_ne. Qed.

Lemma odict_lookup_empty {V} (k : string) : (∅ : odict V) !! k = None.
Proof. reflexivity. Qed.

(** Assigning a key that is present keeps the number and the order of the
    keys; a new key goes last. *)
Lemma odict_set_keys_present {V} (l : list (string * V)) (k : string) (v v0 : V) :
  odict_get l k = Some v0 -> (odict_set l k v).*1 = l.*1.
Proof.
  induction l as [|[k' v'] l IH]; cbn; [discriminate|].
  destruct (decide (k' = k)) as [E|N]; cbn.
  - intros _. subst. reflexivity.
  - intros H. rewrite IH by exact H. reflexivity.
Qed.

Lemma odict_set_new {V} (l : list (string * V)) (k : string) (v : V) :
  odict_get l k = None -> odict_set l k v = l ++ [(k, v)].
Proof.
  induction l as [|[k' v'] l IH]; cbn; [reflexivity|].
  destruct (decide (k' = k)) as [E|N]; [discriminate|].
  intros H. rewrite IH by exact H. reflexivity.
Qed.

(** ** Days between two unix timestamps *)

Import market_chart.

(** In call order [start <= end] the function is the floor of the distance
    in days. *)
Lemma days_between_forward (t1 t2 : Z) :
  t1 <= t2 ->
  get_days_between_unix_timestamps t1 t2 = Z.abs (t2 - t1) / 86400.
Proof.
  intros H. unfold get_days_between_unix_timestamps.
  rewrite (Z.abs_eq (t2 - t1)) by lia.
  apply Z.abs_eq. apply Z.div_pos; lia.
Qed.

(** With the later timestamp first the quotient is rounded away from zero:
    the result is the ceiling of the distance in days. *)
Lemma days_between_backward (t1 t2 : Z) :
  t2 <= t1 ->
  get_days_between_unix_timestamps t1 t2 = (t1 - t2 + 86399) / 86400.
Proof.
  intros H. unfold get_days_between_unix_timestamps.
  pose proof (Z.div_mod (t2 - t1) 86400 ltac:(lia)) as Hdm.
  pose proof (Z.mod_pos_bound (t2 - t1) 86400 ltac:(lia)) as Hb.
  set (q := (t2 - t1) / 86400) in *. set (r := (t2 - t1) mod 86400) in *.
  assert (Hq : q <= 0) by nia.
  rewrite Z.abs_neq by exact Hq.
  apply Z.div_unique with (r := 86399 - r); lia.
Qed.

(** The distance test of the repository: two whole days back from any
    [now] give 2. *)
Lemma days_between_two_days (now : Z) :
  get_days_between_unix_timestamps now (now - 2 * 86400) = 2.
Proof.
  unfold get_days_between_unix_timestamps.
  replace (now - 2 * 86400 - now) with (-2 * 86400) by lia.
  rewrite Z.div_mul by lia. reflexivity.
Qed.

(** C8 (defect in the code).  The claim asks for [|t2 - t1| div 86400] in either
    argument order and for symmetry.  The code takes the floor quotient
    before the absolute value: one second back in time gives one day where
    the claim gives zero, and swapping the two arguments changes the
    result. *)
Theorem days_between_not_symmetric :
  market_chart.get_days_between_unix_timestamps 1 0 = 1 /\
  Z.abs (0 - 1) / 86400 = 0 /\
  market_chart.get_days_between_unix_timestamps 0 1 = 0.
Proof. repeat split; reflexivity. Qed.


(** ** Running computations of the monad *)

#[local] Arguments Qeq_bool : simpl never.
#[local] Arguments Qle_bool : simpl never.
#[local] Arguments Qltb : simpl never.
#[local] Arguments Qplus : simpl never.
#[local] Arguments Qminus : simpl never.
#[local] Arguments Qmult : simpl never.
#[local] Arguments Qdiv : simpl never.
#[local] Arguments Z.ltb : simpl never.
#[local] Arguments Z.leb : simpl never.
#[local] Arguments Z.add : simpl never.
#[local] Arguments Z.sub : simpl never.

Ltac unfold_monad :=
  unfold running_only, py_assert, raise_if, on_pool, on_wallet, getitem,
    pydiv, bind, ret, raise, get, gets, modify in *.

Lemma remove_first_elem_of `{EqDecision A} (x : A) (l : list A) :
  x ∈ l -> exists l', remove_first x l = Some l' /\ l ≡ₚ x :: l'.
Proof.
  induction l as [|y l IH]; intros Hin.
  - inversion Hin.
  - simpl. destruct (decide (x = y)) as [->|Hne].
    + exists l. split; reflexivity.
    + assert (Hin' : x ∈ l).
      { apply elem_of_cons in Hin as [?|?]; [contradiction|assumption]. }
      destruct (IH Hin') as (l' & -> & Hp).
      exists (y :: l'). split; [reflexivity|].
      rewrite Hp. apply Permutation_swap.
Qed.

(** ** [deposit] *)

(** C10.  With [primary_balance >= amount], [deposit] returns; the state it
    leaves differs from the one it found in exactly two places: the wallet's
    [primary_balance], lowered by [amount], and the lender's entry of
    [_pending_deposits], raised by [amount] from its old value or from 0.
    The pool's status is not consulted, so this holds in Genesis and in
    Running. *)
Theorem deposit_frame (p : LendingPool) (w : Wallet) (amount : Q) :
  (amount <= primary_balance w)%Q ->
  let pending' :=
    <[address w := (get_or_zero (_pending_deposits p) (address w) + amount)%Q]>
      (_pending_deposits p) in
  let p' := set_pending_deposits pending' p in
  let w' := set_primary_balance (primary_balance w - amount)%Q w in
  deposit amount {| pool := p; wallet := w |} = Ok tt {| pool := p'; wallet := w' |}
  /\ primary_balance w' = (primary_balance w - amount)%Q
  /\ secondary_balance w' = secondary_balance w
  /\ address w' = address w
  /\ _pending_deposits p' !! address w
     = Some (get_or_zero (_pending_deposits p) (address w) + amount)%Q
  /\ (forall other, other <> address w ->
        _pending_deposits p' !! other = _pending_deposits p !! other)
  /\ _deposits p' = _deposits p
  /\ _total_deposits p' = _total_deposits p
  /\ _available_amount p' = _available_amount p
  /\ _borrowed_amount p' = _borrowed_amount p
  /\ _total_collateral_locked p' = _total_collateral_locked p
  /\ _total_fees_earned p' = _total_fees_earned p
  /\ _loans p' = _loans p
  /\ _borrower_loans p' = _borrower_loans p
  /\ _status p' = _status p.
Proof.
  intros Hbal pending' p' w'.
  split; [|repeat split; try reflexivity].
  - apply Qltb_ge in Hbal.
    unfold deposit. unfold_monad. cbn. rewrite Hbal. cbn.
    subst p' pending'. unfold get_or_zero.
    destruct (_pending_deposits p !! address w) as [v|] eqn:E.
    + case_bool_decide; [discriminate|]. cbn.
      rewrite E. reflexivity.
    + case_bool_decide; [|contradiction]. cbn.
      rewrite lookup_insert_eq. cbn. unfold set_pending_deposits. cbn.
      rewrite insert_insert_eq. reflexivity.
  - subst p' pending'. simpl. apply lookup_insert_eq.
  - intros other Hne. subst p' pending'. simpl.
    apply lookup_insert_ne. congruence.
Qed.

(** ** [repay] *)

(** C3.  On a running pool, for a loan id listed under the borrower's
    address whose loan has not expired, and with
    [primary_balance >= total_debt], [repay] returns, and the state it leaves
    is the old one with exactly the listed assignments: the four pool
    scalars, the two wallet balances, the borrower's id list without (the
    first occurrence of) the id, and the loan's [paid] flag set.  Each new
    value is read back from the state: the loan filed under the id is the
    old one with [paid = true], every other loan, every other borrower's
    list, the order of the loans, the wallet's address and the other
    fields of the pool are as before. *)
Theorem repay_mutations (env : Environment) (p : LendingPool) (w : Wallet)
    (id : string) (ids : list string) (loan : Loan) :
  _status p = RUNNING ->
  _borrower_loans p !! address w = Some ids ->
  id ∈ ids ->
  _loans p !! id = Some loan ->
  is_expired loan env = false ->
  (total_debt loan <= primary_balance w)%Q ->
  exists ids',
    remove_first id ids = Some ids' /\ ids ≡ₚ id :: ids' /\
    let p' :=
      set_loans (<[id := set_paid true loan]> (_loans p))
        (set_borrower_loans (<[address w := ids']> (_borrower_loans p))
           (set_total_fees_earned
              (_total_fees_earned p + borrowing_fee loan)%Q
              (set_total_collateral_locked
                 (_total_collateral_locked p - collateral_amount loan)%Q
                 (set_borrowed_amount
                    (_borrowed_amount p - net_loan loan)%Q
                    (set_available_amount
                       (_available_amount p + total_debt loan)%Q p))))) in
    let w' :=
      set_secondary_balance
        (secondary_balance w + collateral_amount loan)%Q
        (set_primary_balance (primary_balance w - total_debt loan)%Q w) in
    repay env id {| pool := p; wallet := w |}
    = Ok tt {| pool := p'; wallet := w' |}
    /\ _available_amount p' = (_available_amount p + total_debt loan)%Q
    /\ _borrowed_amount p' = (_borrowed_amount p - net_loan loan)%Q
    /\ _total_collateral_locked p'
       = (_total_collateral_locked p - collateral_amount loan)%Q
    /\ _total_fees_earned p' = (_total_fees_earned p + borrowing_fee loan)%Q
    /\ primary_balance w' = (primary_balance w - total_debt loan)%Q
    /\ secondary_balance w' = (secondary_balance w + collateral_amount loan)%Q
    /\ address w' = address w
    /\ _borrower_loans p' !! address w = Some ids'
    /\ (forall other, other <> address w ->
          _borrower_loans p' !! other = _borrower_loans p !! other)
    /\ (exists loan',
          _loans p' !! id = Some loan' /\ paid loan' = true
          /\ start_time loan' = start_time loan
          /\ borrowing_fee loan' = borrowing_fee loan
          /\ net_loan loan' = net_loan loan
          /\ total_debt loan' = total_debt loan
          /\ expiration_time loan' = expiration_time loan
          /\ collateral_amount loan' = collateral_amount loan
          /\ loan_id loan' = loan_id loan
          /\ borrower_address loan' = borrower_address loan
          /\ initial_ltv loan' = initial_ltv loan)
    /\ (forall other, other <> id -> _loans p' !! other = _loans p !! other)
    /\ (odict_items (_loans p')).*1 = (odict_items (_loans p)).*1
    /\ name p' = name p
    /\ _fee_model p' = _fee_model p
    /\ _max_ltv p' = _max_ltv p
    /\ _max_liquidity p' = _max_liquidity p
    /\ _genesis_period p' = _genesis_period p
    /\ _running_period p' = _running_period p
    /\ _min_liquidity p' = _min_liquidity p
    /\ _min_loan_amount p' = _min_loan_amount p
    /\ _min_load_period p' = _min_load_period p
    /\ _min_position_size p' = _min_position_size p
    /\ _status p' = _status p
    /\ _next_cycle_time p' = _next_cycle_time p
    /\ _pending_deposits p' = _pending_deposits p
    /\ _signaled_withdrawals p' = _signaled_withdrawals p
    /\ _pending_withdrawals p' = _pending_withdrawals p
    /\ _reclaimed_collateral p' = _reclaimed_collateral p
    /\ _deposits p' = _deposits p
    /\ _utilizations p' = _utilizations p
    /\ _cycle_history p' = _cycle_history p
    /\ _total_deposits p' = _total_deposits p
    /\ _is_new_cycle p' = _is_new_cycle p
    /\ _cycle_count p' = _cycle_count p.
Proof.
  intros Hrun Hids Hin Hloan Hexp Hbal.
  destruct (remove_first_elem_of id ids Hin) as (ids' & Hrem & Hperm).
  exists ids'. split; [exact Hrem|]. split; [exact Hperm|].
  intros p' w'. split.
  { apply Qltb_ge in Hbal. unfold is_expired in Hexp.
    unfold repay. unfold_monad. cbn.
    rewrite Hrun. case_bool_decide; [|contradiction]. cbn. rewrite Hids.
    case_bool_decide; [discriminate|]. cbn.
    rewrite bool_decide_eq_true_2 by exact Hin. cbn.
    rewrite Hloan. cbn. rewrite Hexp. cbn. rewrite Hbal. cbn.
    rewrite Hrem. cbn. reflexivity. }
  subst p' w'.
  repeat match goal with |- _ /\ _ => split end; try reflexivity.
  - cbn. apply lookup_insert_eq.
  - intros other Hne. cbn. apply lookup_insert_ne. congruence.
  - exists (set_paid true loan). cbn. split; [apply odict_lookup_insert_eq|].
    repeat split; reflexivity.
  - intros other Hne. cbn. apply odict_lookup_insert_ne. congruence.
  - cbn. eapply odict_set_keys_present. exact Hloan.
Qed.

(** ** [withdraw_liquidity] *)

(** Where the lender has both a pending deposit and a pending withdrawal,
    the withdrawal draws on the deposit first and on the pending withdrawal
    for the remainder, and credits the wallet. *)
Lemma withdraw_liquidity_both (p : LendingPool) (w : Wallet) (amount d wd : Q) :
  _pending_deposits p !! address w = Some d ->
  _pending_withdrawals p !! address w = Some wd ->
  (0 < amount)%Q -> (amount <= d + wd)%Q ->
  withdraw_liquidity amount {| pool := p; wallet := w |} =
  Ok tt
    {| pool :=
         if Qltb amount d
         then set_pending_deposits
                (<[address w := (d - amount)%Q]> (_pending_deposits p)) p
         else set_pending_withdrawals
                (<[address w := (wd - (amount - d))%Q]> (_pending_withdrawals p))
                (set_pending_deposits (delete (address w) (_pending_deposits p)) p);
       wallet := set_primary_balance (primary_balance w + amount)%Q w |}.
Proof.
  intros Hd Hwd Hpos Hle.
  apply Qltb_lt in Hpos. apply Qle_bool_iff in Hle.
  unfold withdraw_liquidity, pending_deposits_isub, pending_deposits_del,
    pending_withdrawals_isub.
  unfold_monad. cbn. rewrite Hpos. cbn.
  unfold get_or_zero. rewrite Hd, Hwd. cbn. rewrite Hle. cbn.
  destruct (Qltb amount d); cbn; rewrite ?Hd; cbn; rewrite ?Hwd; reflexivity.
Qed.

(** C6 (defect in the code).  The claim promises a successful withdrawal for every
    [0 < amount <= pending_deposits + pending_withdrawals], the boundary
    cases included.  The code reads both balances with [.get(address, 0)]
    but then uses [del] and [-=] on entries that may not exist:
    - a lender who deposited 500 and takes exactly those 500 back before
      the cycle starts has the pending deposit deleted, gets [KeyError] from
      the update of the missing [_pending_withdrawals] entry, and is not
      credited;
    - a lender whose full withdrawal of 500 was settled at the end of a
      cycle, and who has no new pending deposit, gets [KeyError] from
      [del self._pending_deposits[address]] and the state is untouched. *)
Theorem withdraw_liquidity_key_error :
  let s := scenario.after_deposit in
  let s' := final_state (withdraw_liquidity 500 s) in
  (get_or_zero (_pending_deposits (pool s)) (address (wallet s)) == 500)%Q /\
  _pending_withdrawals (pool s) !! address (wallet s) = None /\
  raised (withdraw_liquidity 500 s) = Some (Builtin KeyError) /\
  _pending_deposits (pool s') !! address (wallet s) = None /\
  primary_balance (wallet s') = primary_balance (wallet s) /\
  let t := {| pool := scenario.settled_pool; wallet := wallet scenario.after_signal |} in
  _pending_deposits (pool t) !! address (wallet t) = None /\
  (get_or_zero (_pending_withdrawals (pool t)) (address (wallet t)) == 500)%Q /\
  withdraw_liquidity 200 t = Raise (Builtin KeyError) t.
Proof.
  cbv zeta. repeat split; vm_compute; reflexivity.
Qed.

(** ** [borrow] *)









(** ** [take_step] *)

Lemma bind_Ok {S A B} (c : M S A) (k : A -> M S B) (s s' : S) (b : B) :
  bind c k s = Ok b s' ->
  exists a s1, c s = Ok a s1 /\ k a s1 = Ok b s'.
Proof.
  unfold bind. destruct (c s) as [a s1|e s1]; [|discriminate].
  intros H. exists a, s1. split; [reflexivity|exact H].
Qed.

(** The reset block establishes the cycle-start equalities on any pool. *)
Lemma reset_lending_pool_data_spec (q : LendingPool) :
  exists q', reset_lending_pool_data q = Ok tt q'
    /\ at_cycle_start q'
    /\ _deposits q' = _deposits q
    /\ _pending_deposits q' = ∅ /\ _signaled_withdrawals q' = ∅
    /\ _borrower_loans q' = ∅ /\ _loans q' = ∅ /\ _utilizations q' = []
    /\ _next_cycle_time q' = _next_cycle_time q + _running_period q
    /\ _status q' = _status q /\ _is_new_cycle q' = _is_new_cycle q.
Proof.
  eexists. split; [reflexivity|].
  unfold at_cycle_start. cbn. repeat split; reflexivity.
Qed.

(** Loops: what every round preserves, the loop preserves. *)
Lemma fold_each_preserves {S A B} (R : S -> Prop) (body : B -> A -> M S B) :
  (forall b x s b' s', R s -> body b x s = Ok b' s' -> R s') ->
  forall l b s b' s', R s -> fold_each l b body s = Ok b' s' -> R s'.
Proof.
  intros Hbody. induction l as [|x l IH]; intros b s b' s' HR H; cbn in H.
  - injection H as _ <-. exact HR.
  - apply bind_Ok in H as (b1 & s1 & H1 & H).
    eapply IH; [|exact H]. eapply Hbody; eassumption.
Qed.

Lemma for_each_preserves {S A} (R : S -> Prop) (body : A -> M S unit) :
  (forall x s u s', R s -> body x s = Ok u s' -> R s') ->
  forall l s u s', R s -> for_each l body s = Ok u s' -> R s'.
Proof.
  intros Hbody. induction l as [|x l IH]; intros s u s' HR H; cbn in H.
  - injection H as _ <-. exact HR.
  - apply bind_Ok in H as (u1 & s1 & H1 & H).
    eapply IH; [|exact H]. eapply Hbody; eassumption.
Qed.

(** Loops: when every round returns, under invariants [R] of the state and
    [J] of the accumulator, the loop returns. *)
Lemma fold_each_total {S A B} (R : S -> Prop) (J : B -> Prop) (P : A -> Prop)
    (body : B -> A -> M S B) :
  (forall b x s, R s -> J b -> P x ->
     exists b' s', body b x s = Ok b' s' /\ R s' /\ J b') ->
  forall l b s, Forall P l -> R s -> J b ->
    exists b' s', fold_each l b body s = Ok b' s' /\ R s' /\ J b'.
Proof.
  intros Hbody. induction l as [|x l IH]; intros b s HP HR HJ; cbn.
  - exists b, s. repeat split; assumption.
  - apply Forall_cons in HP as [Hx HP].
    destruct (Hbody b x s HR HJ Hx) as (b1 & s1 & H1 & HR1 & HJ1).
    unfold bind. rewrite H1. apply IH; assumption.
Qed.

Lemma for_each_total {S A} (R : S -> Prop) (body : A -> M S unit) :
  (forall x s, R s -> exists s', body x s = Ok tt s' /\ R s') ->
  forall l s, R s -> exists s', for_each l body s = Ok tt s' /\ R s'.
Proof.
  intros Hbody. induction l as [|x l IH]; intros s HR; cbn.
  - exists s. split; [reflexivity|assumption].
  - destruct (Hbody x s HR) as (s1 & H1 & HR1).
    unfold bind. rewrite H1. apply IH; assumption.
Qed.

(** The settlement of a running cycle touches neither the status nor the
    new-cycle flag, and it returns only for a cycle with deposits. *)
Lemma end_running_cycle_inv (env : Environment) (time : datetime)
    (p p' : LendingPool) (events : list EventInfo) :
  end_running_cycle env time p = Ok events p' ->
  _status p' = _status p /\ _is_new_cycle p' = _is_new_cycle p
  /\ ~ (_total_deposits p == 0)%Q.
Proof.
  set (R := fun q : LendingPool =>
              _status q = _status p /\ _is_new_cycle q = _is_new_cycle p
              /\ _total_deposits q = _total_deposits p).
  intros H. unfold end_running_cycle in H.
  apply bind_Ok in H as (? & s1 & H1 & H). injection H1 as _ <-.
  apply bind_Ok in H as (trc & s2 & H2 & H). injection H2 as <- <-.
  apply bind_Ok in H as (rl & s3 & H3 & H). injection H3 as <- <-.
  apply bind_Ok in H as (items & s4 & H4 & H). injection H4 as <- <-.
  apply bind_Ok in H as (lfl & s5 & H5 & H).
  assert (R5 : R s5).
  { unfold redistribute in H5.
    eapply (fold_each_preserves R); [| |exact H5]; [|repeat split; reflexivity].
    intros b [a d] s b' s' HR Hb. unfold_monad. cbn in Hb.
    destruct (Qeq_bool (_total_deposits s) 0); [discriminate|].
    cbn in Hb. injection Hb as _ <-. exact HR. }
  apply bind_Ok in H as (sig & s6 & H6 & H). injection H6 as <- <-.
  apply bind_Ok in H as (lfl' & s7 & H7 & H).
  assert (R7 : R s7).
  { unfold execute_withdrawals in H7.
    eapply (fold_each_preserves R); [| |exact H7]; [|exact R5].
    intros b [a r] s b' s' HR Hb. unfold_monad. cbn in Hb.
    destruct (b !! a); [|discriminate].
    cbn in Hb. injection Hb as _ <-. exact HR. }
  apply bind_Ok in H as (? & s8 & H8 & H). injection H8 as _ <-.
  apply bind_Ok in H as (? & s9 & H9 & H).
  assert (R9 : R s9).
  { unfold roll_over in H9.
    eapply (for_each_preserves R); [| |exact H9]; [|exact R7].
    intros [a v] s u s' HR Hb.
    destruct (Qltb 0 v); cbn in Hb; injection Hb as _ <-; exact HR. }
  apply bind_Ok in H as (us & s10 & H10 & H). injection H10 as <- <-.
  apply bind_Ok in H as (au & s11 & H11 & H).
  unfold pydiv in H11. destruct (Qeq_bool _ 0) in H11; [discriminate|].
  injection H11 as <- <-.
  apply bind_Ok in H as (q & s12 & H12 & H). injection H12 as <- <-.
  apply bind_Ok in H as (nu & s13 & H13 & H).
  unfold pydiv in H13. destruct (Qeq_bool _ 0) eqn:Hsize in H13; [discriminate|].
  injection H13 as <- <-.
  apply bind_Ok in H as (? & s14 & H14 & H). injection H14 as _ <-.
  injection H as _ <-. destruct R9 as (Ra & Rb & Rc).
  split; [exact Ra|]. split; [exact Rb|].
  intros Hz. apply Qeq_bool_neq in Hsize. apply Hsize.
  rewrite Rc, Hz. reflexivity.
Qed.

(** Partial correctness: a step that reaches the cycle boundary and returns
    leaves the pool at a cycle start. *)
Lemma take_step_boundary_post (env : Environment) (time_step : timedelta)
    (p p' : LendingPool) (events : list EventInfo) :
  _next_cycle_time p <= get_time env ->
  take_step env time_step p = Ok events p' ->
  at_cycle_start p' /\ _status p' = RUNNING /\ _is_new_cycle p' = true
  /\ _pending_deposits p' = ∅ /\ _signaled_withdrawals p' = ∅
  /\ _borrower_loans p' = ∅ /\ _loans p' = ∅ /\ _utilizations p' = [].
Proof.
  intros Hb H. unfold take_step in H.
  apply bind_Ok in H as (? & s1 & H1 & H). injection H1 as _ <-.
  apply bind_Ok in H as (next & s2 & H2 & H). injection H2 as <- <-.
  cbn in H. apply Z.leb_le in Hb. rewrite Hb in H.
  apply bind_Ok in H as (? & s3 & H3 & H). injection H3 as _ <-.
  apply bind_Ok in H as (st & s4 & H4 & H). injection H4 as <- <-.
  apply bind_Ok in H as (evs & s5 & H5 & H).
  apply bind_Ok in H as (? & s6 & H6 & H). injection H as _ <-.
  destruct (reset_lending_pool_data_spec s5)
    as (q' & Hq & Hstart & _ & Hpd & Hsw & Hbl & Hl & Hu & _ & Hst & Hnew).
  rewrite Hq in H6. injection H6 as <-.
  assert (Hs5 : _status s5 = RUNNING /\ _is_new_cycle s5 = true).
  { cbn in H5. destruct (_status p) eqn:Est.
    - unfold end_genesis in H5. unfold_monad. cbn in H5.
      injection H5 as _ <-. split; reflexivity.
    - apply end_running_cycle_inv in H5 as (H5 & H5' & _).
      rewrite H5, H5'. cbn. split; [exact Est|reflexivity]. }
  destruct Hs5 as [Hr Hn]. subst s6.
  unfold at_cycle_start in *. intuition congruence.
Qed.

Lemma bind_step {S A B} (c : M S A) (k : A -> M S B) (s s1 : S) (a : A) :
  c s = Ok a s1 -> bind c k s = k a s1.
Proof. intros H. unfold bind. rewrite H. reflexivity. Qed.

(** The first loop records a share for every depositor it walks over. *)
Lemma redistribute_keys (rl trc : Q) (items : list (string * Q))
    (p p' : LendingPool) (lfl : gmap string Q) :
  redistribute rl trc items p = Ok lfl p' ->
  forall k, k ∈ items.*1 -> is_Some (lfl !! k).
Proof.
  unfold redistribute. generalize (∅ : gmap string Q) as acc.
  intros acc H k Hk.
  assert (Hgen : k ∈ items.*1 \/ is_Some (acc !! k)) by (left; exact Hk).
  clear Hk. revert acc p H Hgen.
  induction items as [|[a d] items IH]; intros acc p H Hgen; cbn in H.
  - injection H as <- _. destruct Hgen as [Hin|Hs]; [inversion Hin|exact Hs].
  - apply bind_Ok in H as (acc1 & s1 & H1 & H).
    eapply IH; [exact H|].
    unfold_monad. cbn in H1.
    destruct (Qeq_bool (_total_deposits p) 0); [discriminate|].
    cbn in H1. injection H1 as <- _.
    destruct Hgen as [Hin|Hs].
    + cbn in Hin. apply elem_of_cons in Hin as [->|Hin]; [right|left; exact Hin].
      rewrite lookup_insert_eq. eexists; reflexivity.
    + right. destruct (decide (a = k)) as [->|Hne].
      * rewrite lookup_insert_eq. eexists; reflexivity.
      * rewrite lookup_insert_ne by exact Hne. exact Hs.
Qed.

Lemma pool_sizedays_nonzero (total_deposits : Q) (running_period : timedelta) :
  ~ (total_deposits == 0)%Q -> running_period <> 0 ->
  Qeq_bool (total_deposits * total_seconds running_period / 86400) 0 = false.
Proof.
  intros Ht Hr. destruct (Qeq_bool _ 0) eqn:E; [|reflexivity].
  apply Qeq_bool_iff in E. exfalso.
  unfold total_seconds, Qdiv in E.
  apply Qmult_integral in E as [E|E]; [|discriminate E].
  apply Qmult_integral in E as [E|E]; [exact (Ht E)|].
  apply Qmult_integral in E as [E|E]; [|discriminate E].
  apply Hr. unfold Qeq in E. cbn in E. lia.
Qed.

(** The settlement of a running cycle returns when the cycle had deposits,
    the running period is not zero, the utilization history is not empty
    and the signaled withdrawals are those of depositors. *)
Lemma end_running_cycle_total (env : Environment) (time : datetime)
    (p : LendingPool) :
  ~ (_total_deposits p == 0)%Q ->
  _running_period p <> 0 ->
  _utilizations p <> [] ->
  signaled_are_depositors p ->
  exists events p', end_running_cycle env time p = Ok events p'.
Proof.
  intros Ht Hr Hu Hsig.
  assert (Ht' : Qeq_bool (_total_deposits p) 0 = false).
  { destruct (Qeq_bool _ 0) eqn:E; [|reflexivity].
    apply Qeq_bool_iff in E. destruct (Ht E). }
  unfold end_running_cycle, redistribute, execute_withdrawals, roll_over.
  set (p1 := set_cycle_count (_cycle_count p + 1) p).
  assert (F1 : settlement_frame p p1) by (repeat split; reflexivity).
  do 4 (erewrite bind_step by reflexivity; cbv beta). fold p1.
  (* first loop *)
  lazymatch goal with
  | |- exists _ _, bind (fold_each ?ll ?bb ?body) _ ?ss = _ =>
      destruct (fold_each_total (settlement_frame p) (fun _ => True)
                  (fun _ => True) body) with (l := ll) (b := bb) (s := ss)
        as (lfl & s5 & H5 & F5 & _)
  end.
  { intros b [a d] s (Fa & Fb & Fc & Fd) _ _. unfold_monad. cbn.
    rewrite Fa, Ht'. cbn. eexists _, _. split; [reflexivity|].
    split; [|exact I]. repeat split; cbn; assumption. }
  { apply Forall_forall. intros; exact I. }
  { exact F1. }
  { exact I. }
  assert (K5 : forall k, is_Some (_deposits p !! k) -> is_Some (lfl !! k)).
  { intros k [v Hk].
    eapply (redistribute_keys _ _ _ _ _ _ H5).
    apply list_elem_of_fmap. exists (k, v). split; [reflexivity|].
    apply elem_of_map_to_list. exact Hk. }
  erewrite bind_step by exact H5. cbv beta.
  erewrite bind_step by reflexivity. cbv beta.
  (* second loop *)
  lazymatch goal with
  | |- exists _ _, bind (fold_each ?ll ?bb ?body) _ ?ss = _ =>
      destruct (fold_each_total (settlement_frame p)
                  (fun b : gmap string Q =>
                     forall k, is_Some (_deposits p !! k) -> is_Some (b !! k))
                  (fun x : string * Q => is_Some (_deposits p !! x.1))
                  body) with (l := ll) (b := bb) (s := ss)
        as (lfl' & s7 & H7 & F7 & _)
  end.
  { intros b [a r] s HF HJ Hx. cbn in Hx.
    destruct (HJ a Hx) as [v Hv]. unfold_monad. cbn. rewrite Hv. cbn.
    eexists _, _. split; [reflexivity|]. split.
    - destruct HF as (Fa & Fb & Fc & Fd). repeat split; cbn; assumption.
    - intros k Hk. destruct (decide (a = k)) as [->|Hne].
      + rewrite lookup_insert_eq. eexists; reflexivity.
      + rewrite lookup_insert_ne by exact Hne. apply HJ, Hk. }
  { apply Forall_forall. intros [a r] Hin. cbn.
    apply elem_of_map_to_list in Hin.
    destruct F5 as (_ & _ & _ & Fd). rewrite Fd in Hin.
    apply Hsig. eexists; exact Hin. }
  { exact F5. }
  { exact K5. }
  erewrite bind_step by exact H7. cbv beta.
  erewrite bind_step by reflexivity. cbv beta.
  (* third loop *)
  lazymatch goal with
  | |- exists _ _, bind (for_each ?ll ?body) _ ?ss = _ =>
      destruct (for_each_total (settlement_frame p) body) with (l := ll) (s := ss)
        as (s9 & H9 & F9)
  end.
  { intros [a v] s HF. destruct (Qltb 0 v); eexists; (split; [reflexivity|]).
    - destruct HF as (Fa & Fb & Fc & Fd). repeat split; cbn; assumption.
    - exact HF. }
  { destruct F7 as (Fa & Fb & Fc & Fd). repeat split; cbn; assumption. }
  erewrite bind_step by exact H9. cbv beta.
  destruct F9 as (Fa & Fb & Fc & Fd).
  erewrite bind_step by reflexivity. cbv beta.
  unfold pydiv at 1.
  assert (Hlen : Qeq_bool (inject_Z (Z.of_nat (length (_utilizations s9)))) 0 = false).
  { rewrite Fb. destruct (_utilizations p) as [|u us]; [contradiction|].
    destruct (Qeq_bool _ 0) eqn:E; [|reflexivity].
    apply Qeq_bool_iff in E. unfold Qeq in E. cbn in E. lia. }
  rewrite Hlen. erewrite bind_step by reflexivity. cbv beta.
  erewrite bind_step by reflexivity. cbv beta.
  unfold pydiv at 1. rewrite Fa, Fc.
  rewrite pool_sizedays_nonzero by assumption.
  erewrite bind_step by reflexivity. cbv beta.
  erewrite bind_step by reflexivity. cbv beta.
  eexists _, _. reflexivity.
Qed.

(** The promotion out of Genesis always returns. *)
Lemma take_step_genesis_total (env : Environment) (time_step : timedelta)
    (p : LendingPool) :
  _next_cycle_time p <= get_time env ->
  _status p = GENESIS ->
  exists events p', take_step env time_step p = Ok events p'.
Proof.
  intros Hb Hg. apply Z.leb_le in Hb.
  unfold take_step, end_genesis. unfold_monad. cbn.
  rewrite Hb. cbn. rewrite Hg. cbn. eexists _, _. reflexivity.
Qed.

(** The end of a running cycle returns under the stated conditions. *)
Lemma take_step_running_total (env : Environment) (time_step : timedelta)
    (p : LendingPool) :
  _next_cycle_time p <= get_time env ->
  ~ (_total_deposits p == 0)%Q ->
  _running_period p <> 0 ->
  signaled_are_depositors p ->
  exists events p', take_step env time_step p = Ok events p'.
Proof.
  intros Hb Ht Hr Hsig. apply Z.leb_le in Hb.
  unfold take_step.
  do 2 (erewrite bind_step by reflexivity; cbv beta). cbn.
  rewrite Hb.
  do 2 (erewrite bind_step by reflexivity; cbv beta). cbn.
  destruct (_status p) eqn:Est.
  - erewrite bind_step by reflexivity. cbv beta.
    erewrite bind_step by reflexivity. cbv beta.
    eexists _, _. reflexivity.
  - set (q := set_is_new_cycle true _).
    destruct (end_running_cycle_total env (get_time env) q)
      as (events & q' & Hq); try assumption.
    { subst q. cbn. intros E. destruct (_utilizations p); discriminate E. }
    erewrite bind_step by exact Hq. cbv beta.
    erewrite bind_step by reflexivity. cbv beta.
    eexists _, _. reflexivity.
Qed.

(** At the end of a running cycle without deposits the step raises. *)
Lemma take_step_running_needs_deposits (env : Environment)
    (time_step : timedelta) (p : LendingPool) :
  _next_cycle_time p <= get_time env ->
  _status p = RUNNING ->
  (_total_deposits p == 0)%Q ->
  raised (take_step env time_step p) <> None.
Proof.
  intros Hb Hrun Hz Hnone.
  destruct (take_step env time_step p) as [events p'|e p'] eqn:H;
    [clear Hnone|discriminate Hnone].
  unfold take_step in H.
  apply bind_Ok in H as (? & s1 & H1 & H). injection H1 as _ <-.
  apply bind_Ok in H as (next & s2 & H2 & H). injection H2 as <- <-.
  cbn in H. apply Z.leb_le in Hb. rewrite Hb in H.
  apply bind_Ok in H as (? & s3 & H3 & H). injection H3 as _ <-.
  apply bind_Ok in H as (st & s4 & H4 & H). injection H4 as <- <-.
  apply bind_Ok in H as (evs & s5 & H5 & _).
  cbn in H5. rewrite Hrun in H5.
  apply end_running_cycle_inv in H5 as (_ & _ & Hnz).
  apply Hnz. exact Hz.
Qed.

(** C1, as the code has it.  A step that reaches the cycle boundary and returns
    leaves [available_amount = total_deposits], [borrowed_amount = 0],
    [total_collateral_locked = 0], [total_fees_earned = 0] and
    [total_deposits] equal to the sum of [deposits]; and it does return at
    every promotion out of Genesis, and at the end of every running cycle
    whose total deposits and running period are not zero and whose signaled
    withdrawals are those of depositors. *)
Theorem take_step_cycle_start (env : Environment) (time_step : timedelta)
    (p : LendingPool) :
  _next_cycle_time p <= get_time env ->
  (forall events p',
     take_step env time_step p = Ok events p' -> at_cycle_start p')
  /\ (_status p = GENESIS
      \/ (~ (_total_deposits p == 0)%Q /\ _running_period p <> 0
          /\ signaled_are_depositors p) ->
      exists events p',
        take_step env time_step p = Ok events p' /\ at_cycle_start p').
Proof.
  intros Hb. split.
  - intros events p' H.
    apply (take_step_boundary_post env time_step p p' events Hb H).
  - intros Hcond.
    assert (Hex : exists events p', take_step env time_step p = Ok events p').
    { destruct Hcond as [Hg|(Ht & Hr & Hsig)].
      - apply take_step_genesis_total; assumption.
      - apply take_step_running_total; assumption. }
    destruct Hex as (events & p' & H). exists events, p'.
    split; [exact H|].
    apply (take_step_boundary_post env time_step p p' events Hb H).
Qed.

(** C1, the claim as stated, fails: the pool nobody deposited into, with
    one unit of collateral locked by a loan of 0, reaches the end of its
    first running cycle; the settlement divides by the total deposits,
    [take_step] raises [ZeroDivisionError] before the reset, and the
    collateral stays locked. *)
Lemma take_step_empty_pool_raises :
  let p := pool scenario.after_zero_loan in
  let o := take_step (scenario.at_second 240) scenario.minute p in
  _status p = RUNNING
  /\ _next_cycle_time p <= get_time (scenario.at_second 240)
  /\ raised o = Some (Builtin ZeroDivisionError)
  /\ ~ at_cycle_start (final_state o).
Proof.
  cbv zeta. split; [reflexivity|]. split; [vm_compute; discriminate|].
  split; [vm_compute; reflexivity|].
  intros (_ & _ & H & _). vm_compute in H. discriminate H.
Qed.

(** The pool with a loan of 100 outstanding (99 lent out, one unit of
    collateral locked) is not at a cycle start; the step at the end of its
    cycle returns and leaves it at one. *)
Lemma take_step_cycle_start_witness :
  (_borrowed_amount (pool scenario.after_borrow) == 99)%Q
  /\ (_total_collateral_locked (pool scenario.after_borrow) == 1)%Q
  /\ ~ at_cycle_start (pool scenario.after_borrow)
  /\ exists events p',
       take_step (scenario.at_second 240) scenario.minute
         (pool scenario.after_borrow)
       = Ok events p' /\ at_cycle_start p'.
Proof.
  split; [vm_compute; reflexivity|]. split; [vm_compute; reflexivity|].
  split.
  { intros (_ & H & _). vm_compute in H. discriminate H. }
  apply (take_step_cycle_start (scenario.at_second 240) scenario.minute
           (pool scenario.after_borrow)).
  - vm_compute. discriminate.
  - right. split; [|split].
    + vm_compute. discriminate.
    + vm_compute. discriminate.
    + intros a [v H]. vm_compute in H. discriminate H.
Defined.

(** ** The two utilization readings *)

Lemma get_utilization_range (p : LendingPool) :
  (0 <= _borrowed_amount p)%Q -> (0 <= _available_amount p)%Q ->
  (0 <= get_utilization p <= 1)%Q.
Proof.
  intros Hb Ha. unfold get_utilization, safe_divide, Qneqb.
  set (b := _borrowed_amount p) in *. set (a := _available_amount p) in *.
  destruct (Qeq_bool (b + a) 0) eqn:E; cbn [negb].
  - split; [apply Qle_refl | discriminate].
  - assert (Hpos : (0 < b + a)%Q).
    { apply Qeq_bool_neq in E.
      destruct (Qlt_le_dec 0 (b + a)) as [Hlt|Hle]; [exact Hlt|].
      exfalso. apply E. apply Qle_antisym; [exact Hle|].
      rewrite <- (Qplus_0_l 0). apply Qplus_le_compat; assumption. }
    split.
    + apply Qle_shift_div_l; [exact Hpos|]. rewrite Qmult_0_l. exact Hb.
    + apply Qle_shift_div_r; [exact Hpos|]. rewrite Qmult_1_l.
      rewrite <- (Qplus_0_r b) at 1. apply Qplus_le_compat; [apply Qle_refl|exact Ha].
Qed.

(** C9.  The reading that [take_step] appends to the tick history is
    [borrowed / (borrowed + available)], and 0 when that sum is 0; it lies
    in [0, 1] for non-negative amounts.  The reading used for fees is 1
    whenever [available_amount == 0].  On a pool with nothing borrowed and
    nothing available the first is 0 and the second is 1. *)
Theorem utilization_readings (p : LendingPool) :
  get_utilization p
  = (if Qeq_bool (_borrowed_amount p + _available_amount p) 0 then 0
     else _borrowed_amount p / (_borrowed_amount p + _available_amount p))%Q
  /\ (forall env time_step,
        get_time env < _next_cycle_time p ->
        exists p',
          take_step env time_step p = Ok [] p'
          /\ _utilizations p' = _utilizations p ++ [get_utilization p])
  /\ ((0 <= _borrowed_amount p)%Q -> (0 <= _available_amount p)%Q ->
      (0 <= get_utilization p <= 1)%Q)
  /\ ((_available_amount p == 0)%Q ->
      forall (S : Type) (s : S), get_current_utilization p s = Ok 1%Q s)
  /\ ((_available_amount p == 0)%Q -> (_borrowed_amount p == 0)%Q ->
      get_utilization p = 0%Q
      /\ forall (S : Type) (s : S), get_current_utilization p s = Ok 1%Q s).
Proof.
  assert (Hcur : (_available_amount p == 0)%Q ->
                 forall (S : Type) (s : S),
                   get_current_utilization p s = Ok 1%Q s).
  { intros Ha S s. unfold get_current_utilization.
    apply Qeq_bool_iff in Ha. rewrite Ha. reflexivity. }
  split; [|split; [|split; [|split]]].
  - unfold get_utilization, safe_divide, Qneqb.
    destruct (Qeq_bool _ 0); reflexivity.
  - intros env time_step Hlt. apply Z.leb_gt in Hlt.
    eexists. unfold take_step. unfold_monad. cbn. rewrite Hlt. cbn.
    split; reflexivity.
  - apply get_utilization_range.
  - exact Hcur.
  - intros Ha Hb. split; [|exact (Hcur Ha)].
    unfold get_utilization, safe_divide, Qneqb.
    assert (E : Qeq_bool (_borrowed_amount p + _available_amount p) 0 = true).
    { apply Qeq_bool_iff. rewrite Ha, Hb. reflexivity. }
    rewrite E. reflexivity.
Qed.

Lemma utilization_readings_witness :
  let p := scenario.empty_running_pool in
  get_utilization p = 0%Q
  /\ get_current_utilization p tt = Ok 1%Q tt
  /\ (0 <= get_utilization scenario.funded_pool <= 1)%Q
  /\ exists p',
       take_step (scenario.at_second 120) scenario.minute scenario.funded_pool
       = Ok [] p'
       /\ _utilizations p'
          = _utilizations scenario.funded_pool
            ++ [get_utilization scenario.funded_pool].
Proof.
  cbv zeta.
  pose proof (utilization_readings scenario.empty_running_pool)
    as (_ & _ & _ & _ & Hempty).
  pose proof (utilization_readings scenario.funded_pool)
    as (_ & Htick & Hrange & _ & _).
  destruct Hempty as [H0 H1]; [reflexivity|reflexivity|].
  split; [exact H0|]. split; [apply H1|].
  split.
  - apply Hrange; vm_compute; discriminate.
  - apply Htick. vm_compute. reflexivity.
Defined.

(** ** The Kelly grid lookup *)

Lemma searchsorted_right_le (l : list Q) (v : Q) :
  (kelly_fee_model.searchsorted_right l v <= length l)%nat.
Proof.
  induction l as [|x l IH]; cbn; [lia|].
  destruct (Qle_bool x v); cbn; lia.
Qed.

(** What the code selects: the last (largest) grid value whenever the given
    value is below it, and [IndexError] otherwise. *)
Lemma select_next_highest_last (l : list Q) (v : Q) :
  kelly_fee_model.select_next_highest l v
  = if (kelly_fee_model.searchsorted_right l v <? length l)%nat
    then match last l with
         | Some x => inr x
         | None => inl IndexError
         end
    else inl IndexError.
Proof.
  unfold kelly_fee_model.select_next_highest.
  pose proof (searchsorted_right_le l v) as Hle.
  destruct (Nat.ltb_spec (kelly_fee_model.searchsorted_right l v) (length l))
    as [Hlt|Hge].
  - rewrite Z.max_r by lia.
    replace (Z.to_nat (Z.of_nat (length l) - 1)) with (pred (length l)) by lia.
    rewrite <- last_lookup. reflexivity.
  - rewrite Z.max_l by lia. rewrite Nat2Z.id.
    rewrite lookup_ge_None_2 by lia. reflexivity.
Qed.

(** C4 (defect in the code).  The claim (and the docstring of [select_next_highest])
    asks for the smallest grid value at or above the given one, or the
    largest when there is none.  The code takes the [max] of the insertion
    index and the last index.  On the grid over the LTVs 0.5 and 0.8, for
    any [cosh] and power:
    - at LTV 0.3 the claim selects the curve keyed 0.5, the code evaluates
      the curve keyed 0.8;
    - at LTV 0.9 the claim selects the largest key 0.8, the code raises
      [IndexError]. *)
Theorem kelly_get_fee_selects_max (cosh : Q -> Q)
    (pow : Q -> Q -> BuiltinError + Q) :
  kelly_fee_model.update_parameters scenario.kelly_grid
  = inr scenario.kelly_model
  /\ kelly_fee_model.spec_select_next_highest
       (kelly_fee_model.ltvs scenario.kelly_model) (3 # 10) = Some (5 # 10)%Q
  /\ kelly_fee_model.select_next_highest
       (kelly_fee_model.ltvs scenario.kelly_model) (3 # 10) = inr (8 # 10)%Q
  /\ kelly_fee_model.get_fee cosh pow scenario.kelly_model (3 # 10) (1 # 2)
       scenario.week
     = kelly_fee_model.evaluate cosh pow scenario.curve_high (1 # 2)
  /\ kelly_fee_model.spec_select_next_highest
       (kelly_fee_model.ltvs scenario.kelly_model) (9 # 10) = Some (8 # 10)%Q
  /\ kelly_fee_model.get_fee cosh pow scenario.kelly_model (9 # 10) (1 # 2)
       scenario.week
     = inl IndexError.
Proof.
  repeat split; reflexivity.
Qed.

(** ** The borrower's decision to borrow *)

(** A borrower that is due to borrow stays idle whenever the pool's
    available amount does not exceed its loan size, equality included. *)
Lemma ask_for_loan_idle (env : Environment) (w : agents.World)
    (lending_pool : LendingPool) :
  agents._lending_pools w !! agents.lending_pool_name (agents.self w)
  = Some lending_pool ->
  (get_current_available_amount lending_pool <= agents.loan_size (agents.self w))%Q ->
  agents.ask_for_loan env w = Ok [] w.
Proof.
  intros Hpool Hle. apply Qltb_ge in Hle.
  unfold agents.ask_for_loan, agents.get_lending_pool. unfold_monad. cbn.
  destruct (_ && _); [|reflexivity].
  cbn. rewrite Hpool. cbn. rewrite Hle. reflexivity.
Qed.

(** C7 (defect in the code).  The claim lets the borrower borrow when the pool's
    available amount is greater than or equal to its loan size.  The agent
    tests [available > loan_size]: with 500 available, a loan size of 500
    and a duration that fits, [act] does nothing, although the pool's own
    check ([available < borrow_amount] is the rejection) accepts the very
    same request; with a loan size of 499 the agent borrows. *)
Theorem borrower_idle_at_exact_liquidity :
  let env := scenario.at_second 70 in
  let w := scenario.borrower_world 500 in
  let me := agents.self w in
  get_current_available_amount scenario.funded_pool = agents.loan_size me
  /\ agents.loan_start me <= get_time env
  /\ agents._has_borrowed me = false
  /\ agents.loan_duration me
     <= _next_cycle_time scenario.funded_pool - get_time env
  /\ agents.act env w = Ok [] w
  /\ raised (borrow env 500 (500 / (1 # 2) / get_price env)
               (agents.loan_duration me)
               {| pool := scenario.funded_pool;
                  wallet := agents.borrower_wallet me |}) = None
  /\ act_type <$> (match agents.act env (scenario.borrower_world 499) with
                   | Ok actions _ => actions
                   | Raise _ _ => []
                   end) = ["borrow"].
Proof.
  cbv zeta. repeat split; try (vm_compute; discriminate); vm_compute; reflexivity.
Qed.

(** ** The strategies' refresh of the agent list *)

(** With distinct elements, [remove] drops the element the iterator stands
    on. *)
Lemma remove_first_at `{EqDecision A} (l : list A) (i : nat) (x : A) :
  NoDup l -> l !! i = Some x -> remove_first x l = Some (delete i l).
Proof.
  intros Hnd. revert i. induction Hnd as [|y l Hy Hnd IH]; intros i Hi.
  - discriminate Hi.
  - destruct i as [|i]; cbn in *.
    + injection Hi as ->. rewrite decide_True by reflexivity. reflexivity.
    + rewrite decide_False.
      * rewrite (IH i Hi). reflexivity.
      * intros ->. apply Hy. eapply list_elem_of_lookup_2. exact Hi.
Qed.

(** [agents.remove(agent)] always finds the agent the iterator stands on:
    the loop never raises. *)
Lemma delete_borrowers_returns (i : nat) (agents : list agents.Agent) :
  is_Some (strategies.delete_borrowers i agents).
Proof.
  funelim (strategies.delete_borrowers i agents); try assumption.
  - eexists; reflexivity.
  - exfalso.
    destruct (remove_first_elem_of agent agents) as (l' & Hl' & _);
      [eapply list_elem_of_lookup_2; eassumption|congruence].
Qed.

(** The loop never touches what lies before its iterator. *)
Lemma delete_borrowers_prefix (i : nat) (agents r : list agents.Agent) :
  NoDup agents ->
  strategies.delete_borrowers i agents = Some r ->
  take i r = take i agents.
Proof.
  funelim (strategies.delete_borrowers i agents).
  all: intros Hnd Hres.
  - injection Hres as <-. reflexivity.
  - match goal with
    | IH : forall r, NoDup _ -> _ -> take (S i) r = _ |- _ =>
        pose proof (IH r Hnd Hres) as E
    end.
    apply (f_equal (take i)) in E. rewrite !take_take in E.
    replace (i `min` S i)%nat with i in E by lia. exact E.
  - assert (Ea : agents' = delete i agents).
    { pose proof (remove_first_at agents i agent Hnd Hi) as Hrem. congruence. }
    match goal with
    | IH : forall r, NoDup _ -> _ -> take (S i) r = _ |- _ =>
        pose proof (IH r) as E
    end.
    rewrite Ea in E, Hres.
    specialize (E (sublist_NoDup _ _ Hnd (sublist_delete agents i)) Hres).
    apply (f_equal (take i)) in E. rewrite !take_take in E.
    replace (i `min` S i)%nat with i in E by lia. rewrite E.
    rewrite delete_take_drop. apply take_app_length'.
    pose proof (lookup_lt_Some _ _ _ Hi). rewrite length_take. lia.
  - discriminate Hres.
Qed.

(** Hence, when the iterator stands on a borrower, the agent right after it
    is skipped and is still in the list when the loop ends. *)
Lemma delete_borrowers_skips_next (i : nat) (agents r : list agents.Agent)
    (agent next : agents.Agent) :
  NoDup agents ->
  agents !! i = Some agent ->
  agents.is_borrower agent = true ->
  agents !! S i = Some next ->
  strategies.delete_borrowers i agents = Some r ->
  r !! i = Some next.
Proof.
  revert agent next r.
  funelim (strategies.delete_borrowers i agents);
    intros agent0 next r Hnd Hi0 Hb Hn Hres.
  - congruence.
  - assert (agent0 = agent) as -> by congruence. congruence.
  - assert (agent0 = agent) as -> by congruence.
    assert (Ea : agents' = delete i agents).
    { pose proof (remove_first_at agents i agent Hnd Hi0) as Hrem. congruence. }
    rewrite Ea in Hres.
    apply delete_borrowers_prefix in Hres;
      [|exact (sublist_NoDup _ _ Hnd (sublist_delete agents i))].
    apply (f_equal (fun l => l !! i)) in Hres.
    rewrite !lookup_take_lt in Hres by lia.
    rewrite Hres. rewrite list_lookup_delete_ge by lia. exact Hn.
  - discriminate Hres.
Qed.

(** C5 (defect in the code).  The claim (and the comment above the loop) say that all
    borrowers present before the call are deleted at a new cycle.  The loop
    removes from the list it is iterating over, so the iterator skips the
    element after each removed one: of three borrowers in a row the middle
    one stays, in both strategies. *)
Theorem update_agents_keeps_a_borrower :
  let agents_before :=
    [ agents.PoolManager scenario.the_manager;
      agents.Lender scenario.the_lender;
      agents.Borrower (scenario.borrower_agent "borrower_000000" 100);
      agents.Borrower (scenario.borrower_agent "borrower_000001" 100);
      agents.Borrower (scenario.borrower_agent "borrower_000002" 100) ] in
  let kept := agents.Borrower (scenario.borrower_agent "borrower_000001" 100) in
  let fresh := agents.Borrower (scenario.borrower_agent "borrower_000003" 100) in
  let expected :=
    Ok [ agents.PoolManager scenario.the_manager;
         agents.Lender scenario.the_lender; kept; fresh ] tt in
  _is_new_cycle scenario.funded_pool = true
  /\ kept ∈ agents_before
  /\ strategies.CoraV1Strategy.update_agents unit scenario.one_new_borrower
       agents_before [scenario.funded_pool] (scenario.at_second 60)
       scenario.minute tt = expected
  /\ strategies.CoraV2Strategy.update_agents unit scenario.one_new_borrower
       agents_before [scenario.funded_pool] (scenario.at_second 60)
       scenario.minute tt = expected.
Proof.
  cbv zeta. split; [reflexivity|]. split.
  - apply list_elem_of_In. cbn. tauto.
  - split; vm_compute; reflexivity.
Qed.

(** ** Witnesses on the concrete scenarios *)

Lemma deposit_frame_witness :
  deposit 500 {| pool := scenario.fresh_pool; wallet := scenario.lender |}
  = Ok tt scenario.after_deposit
  /\ (primary_balance (wallet scenario.after_deposit) == 500)%Q.
Proof.
  pose proof (deposit_frame scenario.fresh_pool scenario.lender 500) as H.
  cbv zeta in H. destruct H as (H & _).
  - vm_compute. discriminate.
  - split; [|vm_compute; reflexivity].
    rewrite H. vm_compute. reflexivity.
Defined.

(** The borrower of the scenario repays its loan of 100 (99 received, fee
    1, one unit of collateral) at second 100. *)
Lemma repay_mutations_witness :
  exists s' loan',
    repay (scenario.at_second 100) "LendingPool-borrower_000000-130"
      {| pool := pool scenario.after_borrow;
         wallet := wallet scenario.after_borrow |} = Ok tt s'
    /\ _loans (pool s') !! "LendingPool-borrower_000000-130" = Some loan'
    /\ paid loan' = true
    /\ _borrower_loans (pool s') !! "borrower_000000" = Some []
    /\ (_available_amount (pool s') == 501)%Q
    /\ (_borrowed_amount (pool s') == 0)%Q
    /\ (_total_collateral_locked (pool s') == 0)%Q
    /\ (_total_fees_earned (pool s') == 1)%Q
    /\ (primary_balance (wallet scenario.after_borrow) == 1099)%Q
    /\ (primary_balance (wallet s') == 999)%Q
    /\ (secondary_balance (wallet scenario.after_borrow) == 999)%Q
    /\ (secondary_balance (wallet s') == 1000)%Q.
Proof.
  pose (l := _loans (pool scenario.after_borrow)
             !! "LendingPool-borrower_000000-130").
  vm_compute in l.
  lazymatch eval unfold l in l with
  | Some ?loan =>
      destruct (repay_mutations (scenario.at_second 100)
                  (pool scenario.after_borrow) (wallet scenario.after_borrow)
                  "LendingPool-borrower_000000-130"
                  ["LendingPool-borrower_000000-130"] loan)
        as (ids' & Hrem & _ & H)
  end.
  - vm_compute. reflexivity.
  - vm_compute. reflexivity.
  - constructor.
  - vm_compute. reflexivity.
  - vm_compute. reflexivity.
  - vm_compute. discriminate.
  - vm_compute in Hrem. injection Hrem as <-.
    cbv zeta in H. destruct H as (H & _).
    eexists _, _. split; [exact H|].
    repeat match goal with |- _ /\ _ => split end; vm_compute; reflexivity.
Defined.

(** * Beyond the claims: further properties of the modelled code *)

Import outcomes.

Lemma Qeq_bool_false (x y : Q) : ~ (x == y)%Q -> Qeq_bool x y = false.
Proof.
  intros H. destruct (Qeq_bool x y) eqn:E; [|reflexivity].
  apply Qeq_bool_iff in E. contradiction.
Qed.

(** ** [borrow] and [repay] together *)

Lemma get_current_utilization_any_state {S T} (p : LendingPool) (s : S) (t : T)
    (u : Q) :
  get_current_utilization p s = Ok u s ->
  get_current_utilization p t = Ok u t.
Proof.
  unfold get_current_utilization. unfold_monad.
  destruct (Qeq_bool (_available_amount p) 0).
  - intros H. injection H as <-. reflexivity.
  - destruct (Qeq_bool _ 0); [discriminate|].
    intros H. injection H as <-. reflexivity.
Qed.

Lemma borrow_run (env : Environment) (p : LendingPool) (w : Wallet)
    (borrow_amount collateral_amount : Q) (loan_period : timedelta)
    (u fee_percentage : Q) :
  spec_borrow_rejection env p w borrow_amount collateral_amount loan_period
  = None ->
  ~ (collateral_amount * get_price env == 0)%Q ->
  get_current_utilization p tt = Ok u tt ->
  _fee_model p (borrow_amount / (collateral_amount * get_price env))%Q u
    loan_period = inr fee_percentage ->
  let loan :=
    borrowed_loan env p w borrow_amount collateral_amount loan_period
      fee_percentage in
  borrow env borrow_amount collateral_amount loan_period
    {| pool := p; wallet := w |}
  = Ok loan {| pool := pool_after_borrow p w loan;
               wallet := wallet_after_borrow w loan |}.
Proof.
  intros Hspec Hnz Hu Hfee loan.
  unfold spec_borrow_rejection in Hspec.
  destruct (bool_decide_reflect (_status p = RUNNING)) as [Hr|Hr];
    cbn in Hspec; [|discriminate Hspec].
  repeat match type of Hspec with
         | (if ?b then _ else _) = None =>
             destruct b eqn:?; [discriminate Hspec|]
         end.
  apply Qeq_bool_false in Hnz.
  unfold borrow, calculate_fee. unfold_monad. cbn.
  rewrite Hr. case_bool_decide; [|contradiction]. cbn.
  rewrite Hnz. cbn.
  repeat match goal with
         | E : ?t = false |- context [?t] => rewrite E; cbn
         end.
  rewrite (get_current_utilization_any_state p tt _ u Hu).
  rewrite Hfee. cbn. rewrite ?Hnz. reflexivity.
Qed.

(** X1.  On a running pool, when no listed precondition fails, the
    collateral value is not zero, the utilization reading is [u] and the fee
    model answers [fee_percentage], [borrow] returns the loan with
    [borrowing_fee = fee_percentage * borrow_amount],
    [net_loan = borrow_amount - borrowing_fee] and
    [total_debt = borrow_amount]; it moves [net_loan] from available to
    borrowed and to the borrower, locks the collateral and takes it from the
    borrower, and records the loan under the id built from the pool name,
    the borrower's address and the expiration second.  The sum
    [available_amount + borrowed_amount] is unchanged. *)
Theorem borrow_returns (env : Environment) (p : LendingPool) (w : Wallet)
    (borrow_amount collateral_amount : Q) (loan_period : timedelta)
    (u fee_percentage : Q) :
  spec_borrow_rejection env p w borrow_amount collateral_amount loan_period
  = None ->
  ~ (collateral_amount * get_price env == 0)%Q ->
  get_current_utilization p tt = Ok u tt ->
  _fee_model p (borrow_amount / (collateral_amount * get_price env))%Q u
    loan_period = inr fee_percentage ->
  exists loan p' w',
    borrow env borrow_amount collateral_amount loan_period
      {| pool := p; wallet := w |} = Ok loan {| pool := p'; wallet := w' |}
    /\ borrowing_fee loan = (fee_percentage * borrow_amount)%Q
    /\ net_loan loan = (borrow_amount - borrowing_fee loan)%Q
    /\ total_debt loan = borrow_amount
    /\ expiration_time loan = get_time env + loan_period
    /\ loan_id loan
       = name p +:+ "-" +:+ address w +:+ "-"
         +:+ pretty (timestamp_int (get_time env + loan_period))
    /\ _loans p' !! loan_id loan = Some loan
    /\ _borrower_loans p' !! address w
       = Some (default [] (_borrower_loans p !! address w) ++ [loan_id loan])
    /\ _available_amount p' = (_available_amount p - net_loan loan)%Q
    /\ _borrowed_amount p' = (_borrowed_amount p + net_loan loan)%Q
    /\ _total_collateral_locked p'
       = (_total_collateral_locked p + collateral_amount)%Q
    /\ _total_fees_earned p' = _total_fees_earned p
    /\ _total_deposits p' = _total_deposits p
    /\ primary_balance w' = (primary_balance w + net_loan loan)%Q
    /\ secondary_balance w' = (secondary_balance w - collateral_amount)%Q
    /\ (_available_amount p' + _borrowed_amount p'
        == _available_amount p + _borrowed_amount p)%Q.
Proof.
  intros Hspec Hnz Hu Hfee.
  eexists _, _, _. split.
  { apply (borrow_run env p w _ _ _ u fee_percentage); assumption. }
  cbn. repeat split; try reflexivity.
  - apply odict_lookup_insert_eq.
  - apply lookup_insert_eq.
  - ring.
Qed.

Lemma repay_run (env : Environment) (p : LendingPool) (w : Wallet)
    (id : string) (ids ids' : list string) (loan : Loan) :
  _status p = RUNNING ->
  _borrower_loans p !! address w = Some ids ->
  remove_first id ids = Some ids' ->
  _loans p !! id = Some loan ->
  get_time env <= expiration_time loan ->
  (total_debt loan <= primary_balance w)%Q ->
  repay env id {| pool := p; wallet := w |} =
  Ok tt {| pool := pool_after_repay p w id ids' loan;
           wallet := wallet_after_repay w loan |}.
Proof.
  intros Hrun Hids Hrem Hloan Hexp Hbal.
  assert (Hin : id ∈ ids).
  { clear -Hrem. revert ids' Hrem. induction ids as [|y l IH]; intros l' H.
    - discriminate H.
    - cbn in H. destruct (decide (id = y)) as [->|Hne]; [left|].
      right. destruct (remove_first id l) eqn:E; [|discriminate H].
      eapply IH. reflexivity. }
  apply Qltb_ge in Hbal.
  assert (Hexp' : (expiration_time loan <? get_time env) = false)
    by (apply Z.ltb_ge; exact Hexp).
  unfold repay. unfold_monad. cbn.
  rewrite Hrun. case_bool_decide; [|contradiction]. cbn. rewrite Hids.
  case_bool_decide; [discriminate|]. cbn.
  rewrite bool_decide_eq_true_2 by exact Hin. cbn.
  rewrite Hloan. cbn. rewrite Hexp'. cbn. rewrite Hbal. cbn.
  rewrite Hrem. cbn. reflexivity.
Qed.

Lemma remove_first_snoc `{EqDecision A} (x : A) (l : list A) :
  exists l', remove_first x (l ++ [x]) = Some l' /\ l' ≡ₚ l.
Proof.
  destruct (remove_first_elem_of x (l ++ [x])) as (l' & Hl' & Hp).
  { apply elem_of_app. right. constructor. }
  exists l'. split; [exact Hl'|].
  rewrite <- Permutation_cons_append in Hp.
  symmetry. eapply Permutation_cons_inv. exact Hp.
Qed.

(** X2.  Borrowing and then repaying the same loan before it expires (the
    borrower can pay the fee out of the balance it had) returns, and the
    round trip costs the borrower exactly the fee and earns it for the
    pool: [available_amount] grows by the fee, [total_fees_earned] grows by
    the fee, [borrowed_amount] and [total_collateral_locked] are back where
    they were, the borrower's collateral is back and its primary balance is
    lower by the fee, the borrower's list of open loan ids is the old one
    (as a multiset), and the loan stays in the book, marked paid. *)
Theorem borrow_then_repay (env env' : Environment) (p : LendingPool)
    (w : Wallet) (borrow_amount collateral_amount : Q) (loan_period : timedelta)
    (u fee_percentage : Q) :
  spec_borrow_rejection env p w borrow_amount collateral_amount loan_period
  = None ->
  ~ (collateral_amount * get_price env == 0)%Q ->
  get_current_utilization p tt = Ok u tt ->
  _fee_model p (borrow_amount / (collateral_amount * get_price env))%Q u
    loan_period = inr fee_percentage ->
  get_time env' <= get_time env + loan_period ->
  (fee_percentage * borrow_amount <= primary_balance w)%Q ->
  let fee := (fee_percentage * borrow_amount)%Q in
  exists p' w' ids' loan,
    (let* loan :=
       borrow env borrow_amount collateral_amount loan_period in
     repay env' (loan_id loan)) {| pool := p; wallet := w |}
    = Ok tt {| pool := p'; wallet := w' |}
    /\ (_available_amount p' == _available_amount p + fee)%Q
    /\ (_borrowed_amount p' == _borrowed_amount p)%Q
    /\ (_total_collateral_locked p' == _total_collateral_locked p)%Q
    /\ _total_fees_earned p' = (_total_fees_earned p + fee)%Q
    /\ (primary_balance w' == primary_balance w - fee)%Q
    /\ (secondary_balance w' == secondary_balance w)%Q
    /\ _borrower_loans p' !! address w = Some ids'
    /\ ids' ≡ₚ default [] (_borrower_loans p !! address w)
    /\ _loans p' !! loan_id loan = Some loan
    /\ paid loan = true /\ total_debt loan = borrow_amount
    /\ borrowing_fee loan = fee.
Proof.
  intros Hspec Hnz Hu Hfee Htime Hbal fee.
  pose proof (borrow_run env p w _ _ _ u fee_percentage Hspec Hnz Hu Hfee)
    as Hb. cbv zeta in Hb.
  set (loan := borrowed_loan env p w borrow_amount collateral_amount
                 loan_period fee_percentage) in *.
  destruct (remove_first_snoc (loan_id loan)
              (default [] (_borrower_loans p !! address w)))
    as (ids' & Hrem & Hperm).
  assert (Hr : repay env' (loan_id loan)
                 {| pool := pool_after_borrow p w loan;
                    wallet := wallet_after_borrow w loan |}
               = Ok tt {| pool := pool_after_repay (pool_after_borrow p w loan)
                                    (wallet_after_borrow w loan)
                                    (loan_id loan) ids' loan;
                          wallet := wallet_after_repay
                                      (wallet_after_borrow w loan) loan |}).
  { apply (repay_run env' _ _ _
             (default [] (_borrower_loans p !! address w) ++ [loan_id loan])).
    - unfold spec_borrow_rejection in Hspec.
      destruct (bool_decide_reflect (_status p = RUNNING)) as [Hrun|Hrun];
        [exact Hrun|discriminate Hspec].
    - cbn. apply lookup_insert_eq.
    - exact Hrem.
    - cbn. apply odict_lookup_insert_eq.
    - exact Htime.
    - cbn. fold fee. unfold fee. lra. }
  eexists _, _, ids', (set_paid true loan). split.
  { unfold bind. rewrite Hb. exact Hr. }
  cbn. fold fee.
  repeat split; try reflexivity; try ring.
  - apply lookup_insert_eq.
  - exact Hperm.
  - apply odict_lookup_insert_eq.
Qed.

(** ** Lender operations *)

Lemma signal_withdrawal_run (p : LendingPool) (w : Wallet) (ratio : Q) :
  _status p = RUNNING ->
  (0 <= ratio <= 1)%Q ->
  is_Some (_deposits p !! address w) ->
  signal_withdrawal ratio {| pool := p; wallet := w |}
  = Ok tt {| pool := set_signaled_withdrawals
                       (<[address w := ratio]> (_signaled_withdrawals p)) p;
             wallet := w |}.
Proof.
  intros Hrun [H0 H1] Hdep.
  apply Qle_bool_iff in H0. apply Qle_bool_iff in H1.
  unfold signal_withdrawal. unfold_monad. cbn.
  rewrite Hrun. case_bool_decide; [|contradiction]. cbn.
  rewrite H0, H1. cbn.
  rewrite bool_decide_eq_true_2 by exact Hdep. reflexivity.
Qed.

(** X3.  [signal_withdrawal] before the pool runs raises
    [LendingPoolNotRunning] and changes nothing (the repository's
    [test_running_only_decorator]); on a running pool a ratio outside
    [0, 1] or a lender without a deposit raises [AssertionError] and changes
    nothing; otherwise the call stores the ratio, and a second call
    overwrites it: signaling [r1] and then [r2] leaves the state that
    signaling [r2] alone leaves. *)
Theorem signal_withdrawal_overwrites (p : LendingPool) (w : Wallet)
    (r1 r2 : Q) :
  let s := {| pool := p; wallet := w |} in
  (_status p <> RUNNING ->
   signal_withdrawal r1 s = Raise (Named LendingPoolNotRunning) s)
  /\ (_status p = RUNNING ->
      ~ (0 <= r1 <= 1)%Q \/ _deposits p !! address w = None ->
      signal_withdrawal r1 s = Raise (Builtin AssertionError) s)
  /\ (_status p = RUNNING ->
      (0 <= r1 <= 1)%Q -> (0 <= r2 <= 1)%Q ->
      is_Some (_deposits p !! address w) ->
      (signal_withdrawal r1 >> signal_withdrawal r2) s = signal_withdrawal r2 s
      /\ exists s',
           signal_withdrawal r2 s = Ok tt s'
           /\ _signaled_withdrawals (pool s') !! address w = Some r2).
Proof.
  cbv zeta. split; [|split].
  - intros Hrun. unfold signal_withdrawal. unfold_monad. cbn.
    case_bool_decide; [contradiction|]. reflexivity.
  - intros Hrun Hbad. unfold signal_withdrawal. unfold_monad. cbn.
    rewrite Hrun. case_bool_decide; [|contradiction]. cbn.
    destruct (Qle_bool 0 r1 && Qle_bool r1 1) eqn:E; cbn.
    + destruct Hbad as [Hbad|Hnone].
      * exfalso. apply Hbad. apply andb_true_iff in E as [E0 E1].
        split; apply Qle_bool_iff; assumption.
      * rewrite bool_decide_eq_false_2; [reflexivity|].
        rewrite Hnone. intros [? ?]. discriminate.
    + reflexivity.
  - intros Hrun Hr1 Hr2 Hdep. split.
    + unfold bind at 1. rewrite (signal_withdrawal_run p w r1 Hrun Hr1 Hdep).
      rewrite !signal_withdrawal_run by assumption.
      unfold set_signaled_withdrawals. cbn. rewrite insert_insert_eq.
      reflexivity.
    + eexists. split; [apply signal_withdrawal_run; assumption|].
      cbn. apply lookup_insert_eq.
Qed.

(** X4.  [withdraw_collateral] returns exactly when
    [0 < amount <= reclaimed_collateral[address]] (a missing entry counts as
    0); it then lowers the entry by [amount], raises the lender's secondary
    balance by [amount] and touches nothing else: the other entries of
    [_reclaimed_collateral], the other fields of the pool, and the wallet's
    primary balance and address are as before.  In every other case it
    raises [AssertionError] and changes nothing; it never raises
    [KeyError]. *)
Theorem withdraw_collateral_spec (p : LendingPool) (w : Wallet) (amount : Q) :
  let s := {| pool := p; wallet := w |} in
  let reclaimed := get_or_zero (_reclaimed_collateral p) (address w) in
  let p' :=
    set_reclaimed_collateral
      (<[address w := (reclaimed - amount)%Q]> (_reclaimed_collateral p)) p in
  let w' := set_secondary_balance (secondary_balance w + amount)%Q w in
  ((0 < amount)%Q /\ (amount <= reclaimed)%Q ->
   withdraw_collateral amount s = Ok tt {| pool := p'; wallet := w' |}
   /\ _reclaimed_collateral p' !! address w = Some (reclaimed - amount)%Q
   /\ (forall other, other <> address w ->
         _reclaimed_collateral p' !! other = _reclaimed_collateral p !! other)
   /\ secondary_balance w' = (secondary_balance w + amount)%Q
   /\ primary_balance w' = primary_balance w
   /\ address w' = address w
   /\ name p' = name p
   /\ _fee_model p' = _fee_model p
   /\ _max_ltv p' = _max_ltv p
   /\ _max_liquidity p' = _max_liquidity p
   /\ _genesis_period p' = _genesis_period p
   /\ _running_period p' = _running_period p
   /\ _min_liquidity p' = _min_liquidity p
   /\ _min_loan_amount p' = _min_loan_amount p
   /\ _min_load_period p' = _min_load_period p
   /\ _min_position_size p' = _min_position_size p
   /\ _status p' = _status p
   /\ _next_cycle_time p' = _next_cycle_time p
   /\ _pending_deposits p' = _pending_deposits p
   /\ _signaled_withdrawals p' = _signaled_withdrawals p
   /\ _pending_withdrawals p' = _pending_withdrawals p
   /\ _deposits p' = _deposits p
   /\ _borrower_loans p' = _borrower_loans p
   /\ _loans p' = _loans p
   /\ _utilizations p' = _utilizations p
   /\ _cycle_history p' = _cycle_history p
   /\ _total_deposits p' = _total_deposits p
   /\ _total_collateral_locked p' = _total_collateral_locked p
   /\ _available_amount p' = _available_amount p
   /\ _borrowed_amount p' = _borrowed_amount p
   /\ _total_fees_earned p' = _total_fees_earned p
   /\ _is_new_cycle p' = _is_new_cycle p
   /\ _cycle_count p' = _cycle_count p)
  /\ (~ ((0 < amount)%Q /\ (amount <= reclaimed)%Q) ->
      withdraw_collateral amount s = Raise (Builtin AssertionError) s).
Proof.
  cbv zeta. split.
  - intros [Hpos Hle]. split.
    { unfold withdraw_collateral. unfold_monad. cbn.
      assert (Hin : exists v, _reclaimed_collateral p !! address w = Some v).
      { unfold get_or_zero in Hle.
        destruct (_reclaimed_collateral p !! address w) as [v|];
          [eexists; reflexivity|].
        cbn in Hle. exfalso. apply (Qlt_not_le _ _ Hpos Hle). }
      destruct Hin as [v Hv].
      apply Qltb_lt in Hpos. apply Qle_bool_iff in Hle.
      rewrite Hpos. cbn. rewrite Hle. cbn.
      unfold get_or_zero. rewrite Hv. reflexivity. }
    repeat match goal with |- _ /\ _ => split end; try reflexivity.
    + cbn. apply lookup_insert_eq.
    + intros other Hne. cbn. apply lookup_insert_ne. congruence.
  - intros Hnot. unfold withdraw_collateral. unfold_monad. cbn.
    destruct (Qltb 0 amount) eqn:Epos; cbn; [|reflexivity].
    destruct (Qle_bool amount _) eqn:Ele; cbn; [|reflexivity].
    exfalso. apply Hnot. split.
    + apply Qltb_lt. exact Epos.
    + apply Qle_bool_iff. exact Ele.
Qed.


(** ** The settlement at the end of a running cycle, lender by lender *)

Lemma list_to_map_cons_lookup (a k : string) (d : Q) (items : list (string * Q)) :
  (list_to_map ((a, d) :: items) : gmap string Q) !! k
  = if decide (a = k) then Some d
    else (list_to_map items : gmap string Q) !! k.
Proof.
  cbn. destruct (decide (a = k)) as [->|Hne].
  - apply lookup_insert_eq.
  - apply lookup_insert_ne. exact Hne.
Qed.

Lemma get_or_zero_insert_ne (d : gmap string Q) (a k : string) (v : Q) :
  a <> k -> get_or_zero (<[a := v]> d) k = get_or_zero d k.
Proof. intros H. unfold get_or_zero. rewrite lookup_insert_ne by exact H. reflexivity. Qed.

(** First loop: shares of liquidity and of collateral. *)
Lemma redistribute_inv (rl trc : Q) (items : list (string * Q)) :
  NoDup items.*1 ->
  forall (acc : gmap string Q) (p : LendingPool) (lfl : gmap string Q)
         (p' : LendingPool),
    fold_each items acc
      (fun (lenders_final_liquidity : gmap string Q) '(address, deposit_amount) =>
         let* total := gets _total_deposits in
         let* ownership_ratio := pydiv deposit_amount total in
         modify (fun q => set_reclaimed_collateral
                   (add_to_entry address (ownership_ratio * trc)%Q
                      (_reclaimed_collateral q)) q) >>
         ret (<[address := (ownership_ratio * rl)%Q]> lenders_final_liquidity))
      p = Ok lfl p' ->
    p' = set_reclaimed_collateral (_reclaimed_collateral p') p
    /\ forall k,
         lfl !! k
         = match (list_to_map items : gmap string Q) !! k with
           | Some d => Some (d / _total_deposits p * rl)%Q
           | None => acc !! k
           end
         /\ _reclaimed_collateral p' !! k
            = match (list_to_map items : gmap string Q) !! k with
              | Some d =>
                  Some (get_or_zero (_reclaimed_collateral p) k
                        + d / _total_deposits p * trc)%Q
              | None => _reclaimed_collateral p !! k
              end.
Proof.
  induction items as [|[a d] items IH]; intros Hnd acc p lfl p' H.
  - cbn in H. injection H as <- <-. split; [destruct p; reflexivity|].
    intros k. cbn. rewrite ?lookup_empty. split; reflexivity.
  - cbn [fold_each] in H. apply bind_Ok in H as (acc1 & p1 & H1 & H).
    cbn in Hnd. apply NoDup_cons in Hnd as [Ha Hnd].
    unfold_monad. cbn in H1.
    destruct (Qeq_bool (_total_deposits p) 0); [discriminate H1|].
    cbn in H1. injection H1 as <- <-.
    apply (IH Hnd) in H as (Hp' & Hk). split.
    + rewrite Hp' at 1. reflexivity.
    + intros k. specialize (Hk k). cbn in Hk. destruct Hk as [Hl Hr].
      rewrite list_to_map_cons_lookup.
      destruct (decide (a = k)) as [->|Hne].
      * assert (Hnone : (list_to_map items : gmap string Q) !! k = None)
          by (apply not_elem_of_list_to_map_1; exact Ha).
        rewrite Hnone in Hl, Hr. split.
        -- rewrite Hl. apply lookup_insert_eq.
        -- rewrite Hr. unfold add_to_entry. apply lookup_insert_eq.
      * split.
        -- rewrite Hl. destruct (list_to_map items !! k); [reflexivity|].
           apply lookup_insert_ne. exact Hne.
        -- rewrite Hr. unfold add_to_entry.
           rewrite get_or_zero_insert_ne by exact Hne.
           destruct (list_to_map items !! k); [reflexivity|].
           apply lookup_insert_ne. exact Hne.
Qed.

(** Second loop: the signaled part of each share becomes a pending
    withdrawal. *)
Lemma execute_withdrawals_inv (items : list (string * Q)) :
  NoDup items.*1 ->
  forall (lfl0 : gmap string Q) (p : LendingPool) (lfl : gmap string Q)
         (p' : LendingPool),
    execute_withdrawals lfl0 items p = Ok lfl p' ->
    p' = set_pending_withdrawals (_pending_withdrawals p') p
    /\ forall k,
         match (list_to_map items : gmap string Q) !! k with
         | Some r =>
             exists fl,
               lfl0 !! k = Some fl
               /\ lfl !! k = Some (fl - fl * r)%Q
               /\ _pending_withdrawals p' !! k
                  = Some (get_or_zero (_pending_withdrawals p) k + fl * r)%Q
         | None =>
             lfl !! k = lfl0 !! k
             /\ _pending_withdrawals p' !! k = _pending_withdrawals p !! k
         end.
Proof.
  unfold execute_withdrawals.
  induction items as [|[a r] items IH]; intros Hnd lfl0 p lfl p' H.
  - cbn in H. injection H as <- <-. split; [destruct p; reflexivity|].
    intros k. cbn. rewrite ?lookup_empty. split; reflexivity.
  - cbn [fold_each] in H. apply bind_Ok in H as (acc1 & p1 & H1 & H).
    cbn in Hnd. apply NoDup_cons in Hnd as [Ha Hnd].
    unfold_monad. cbn in H1.
    destruct (lfl0 !! a) as [fl|] eqn:Efl; [|discriminate H1].
    cbn in H1. injection H1 as <- <-.
    apply (IH Hnd) in H as (Hp' & Hk). split.
    + rewrite Hp' at 1. reflexivity.
    + intros k. specialize (Hk k). cbn in Hk.
      rewrite list_to_map_cons_lookup.
      destruct (decide (a = k)) as [->|Hne].
      * assert (Hnone : (list_to_map items : gmap string Q) !! k = None)
          by (apply not_elem_of_list_to_map_1; exact Ha).
        rewrite Hnone in Hk. destruct Hk as [Hl Hr].
        exists fl. split; [exact Efl|]. split.
        -- rewrite Hl. apply lookup_insert_eq.
        -- rewrite Hr. unfold add_to_entry. apply lookup_insert_eq.
      * destruct (list_to_map items !! k) as [r'|].
        -- destruct Hk as (fl' & Hfl' & Hl & Hr).
           rewrite lookup_insert_ne in Hfl' by exact Hne.
           exists fl'. split; [exact Hfl'|]. split; [exact Hl|].
           rewrite Hr. unfold add_to_entry.
           rewrite get_or_zero_insert_ne by exact Hne. reflexivity.
        -- destruct Hk as [Hl Hr]. split.
           ++ rewrite Hl. apply lookup_insert_ne. exact Hne.
           ++ rewrite Hr. unfold add_to_entry.
              apply lookup_insert_ne. exact Hne.
Qed.

(** Third loop: what is left of each share, if positive, stays deposited. *)
Lemma roll_over_inv (items : list (string * Q)) :
  NoDup items.*1 ->
  forall (p : LendingPool) (u : unit) (p' : LendingPool),
    roll_over items p = Ok u p' ->
    p' = set_deposits (_deposits p') p
    /\ forall k,
         _deposits p' !! k
         = match (list_to_map items : gmap string Q) !! k with
           | Some amount =>
               if Qltb 0 amount
               then Some (get_or_zero (_deposits p) k + amount)%Q
               else _deposits p !! k
           | None => _deposits p !! k
           end.
Proof.
  unfold roll_over.
  induction items as [|[a v] items IH]; intros Hnd p u p' H.
  - cbn in H. injection H as _ <-. split; [destruct p; reflexivity|].
    intros k. cbn. rewrite ?lookup_empty. reflexivity.
  - cbn [for_each] in H. apply bind_Ok in H as (u1 & p1 & H1 & H).
    cbn in Hnd. apply NoDup_cons in Hnd as [Ha Hnd].
    apply (IH Hnd) in H as (Hp' & Hk).
    assert (Hnone : (list_to_map items : gmap string Q) !! a = None)
      by (apply not_elem_of_list_to_map_1; exact Ha).
    cbn in H1. destruct (Qltb 0 v) eqn:Ev; cbn in H1; injection H1 as _ <-.
    + split; [rewrite Hp' at 1; reflexivity|].
      intros k. rewrite (Hk k). rewrite list_to_map_cons_lookup. cbn.
      destruct (decide (a = k)) as [->|Hne].
      * rewrite Hnone, Ev. unfold add_to_entry. apply lookup_insert_eq.
      * unfold add_to_entry. rewrite get_or_zero_insert_ne by exact Hne.
        destruct (list_to_map items !! k) as [amt|].
        -- destruct (Qltb 0 amt); [reflexivity|].
           apply lookup_insert_ne. exact Hne.
        -- apply lookup_insert_ne. exact Hne.
    + split; [exact Hp'|].
      intros k. rewrite (Hk k). rewrite list_to_map_cons_lookup.
      destruct (decide (a = k)) as [->|Hne]; [|reflexivity].
      rewrite Hnone, Ev. reflexivity.
Qed.

(** What a returning settlement leaves, as one equation on the pool and a
    description of the three dictionaries it rewrites, key by key. *)
Lemma end_running_cycle_spec (env : Environment) (time : datetime)
    (p p' : LendingPool) (events : list EventInfo) :
  end_running_cycle env time p = Ok events p' ->
  exists (RC PW D : gmap string Q) (cd : CycleData),
    p' = set_cycle_history (<[_cycle_count p + 1 - 1 := cd]> (_cycle_history p))
           (set_deposits D
              (set_pending_withdrawals PW
                 (set_reclaimed_collateral RC
                    (set_cycle_count (_cycle_count p + 1) p))))
    /\ events
       = [ {| ev_time := time;
              ev_type := "lending_pool_running_period_ended";
              ev_extra := [ ("total_deposits", VFloat (Qsum (values D)));
                            ("cycle_number", VInt (_cycle_count p + 1 - 1));
                            ("lending_pool", VStr (name p)) ] |} ]
    /\ cd = {| initial_liquidity := _total_deposits p;
               remaining_liquidity := _available_amount p;
               total_reclaimed_collateral := _total_collateral_locked p;
               cd_total_fees_earned := _total_fees_earned p;
               final_collateral_price := get_price env;
               final_collateral_value :=
                 (get_price env * _total_collateral_locked p)%Q;
               average_utilization :=
                 (Qsum (_utilizations p)
                  / inject_Z (Z.of_nat (length (_utilizations p))))%Q;
               normalized_utilization :=
                 (Qsum (get_sizedays <$> odict_values (_loans p))
                  / (_total_deposits p * total_seconds (_running_period p)
                     / 86400))%Q;
               cd_loans := odict_values (_loans p) |}
    /\ ~ (_total_deposits p == 0)%Q
    /\ forall k,
         RC !! k
         = match _deposits p !! k with
           | Some d =>
               Some (get_or_zero (_reclaimed_collateral p) k
                     + d / _total_deposits p * _total_collateral_locked p)%Q
           | None => _reclaimed_collateral p !! k
           end
         /\ match _signaled_withdrawals p !! k with
            | Some r =>
                exists d,
                  _deposits p !! k = Some d
                  /\ PW !! k
                     = Some (get_or_zero (_pending_withdrawals p) k
                             + lender_share p d * r)%Q
                  /\ D !! k
                     = if Qltb 0 (lender_share p d - lender_share p d * r)
                       then Some (get_or_zero (_pending_deposits p) k
                                  + (lender_share p d - lender_share p d * r))%Q
                       else _pending_deposits p !! k
            | None =>
                PW !! k = _pending_withdrawals p !! k
                /\ D !! k
                   = match _deposits p !! k with
                     | Some d =>
                         if Qltb 0 (lender_share p d)
                         then Some (get_or_zero (_pending_deposits p) k
                                    + lender_share p d)%Q
                         else _pending_deposits p !! k
                     | None => _pending_deposits p !! k
                     end
            end.
Proof.
  intros H. unfold end_running_cycle in H.
  apply bind_Ok in H as (? & s1 & H1 & H). injection H1 as _ <-.
  apply bind_Ok in H as (trc & s2 & H2 & H). injection H2 as <- <-.
  apply bind_Ok in H as (rl & s3 & H3 & H). injection H3 as <- <-.
  apply bind_Ok in H as (items & s4 & H4 & H). injection H4 as <- <-.
  apply bind_Ok in H as (lfl & s5 & H5 & H).
  unfold redistribute in H5.
  apply redistribute_inv in H5 as (Hs5 & K5);
    [|apply NoDup_fst_map_to_list].
  set (RC := _reclaimed_collateral s5) in *. clearbody RC. subst s5.
  apply bind_Ok in H as (sig & s6 & H6 & H). injection H6 as <- <-.
  apply bind_Ok in H as (lfl' & s7 & H7 & H).
  apply execute_withdrawals_inv in H7 as (Hs7 & K7);
    [|apply NoDup_fst_map_to_list].
  set (PW := _pending_withdrawals s7) in *. clearbody PW. subst s7.
  apply bind_Ok in H as (? & s8 & H8 & H). injection H8 as _ <-.
  apply bind_Ok in H as (? & s9 & H9 & H).
  apply roll_over_inv in H9 as (Hs9 & K9);
    [|apply NoDup_fst_map_to_list].
  set (D := _deposits s9) in *. clearbody D. subst s9.
  apply bind_Ok in H as (us & s10 & H10 & H). injection H10 as <- <-.
  apply bind_Ok in H as (au & s11 & H11 & H).
  unfold pydiv in H11. cbn in H11.
  destruct (Qeq_bool _ 0) in H11; [discriminate|].
  injection H11 as <- <-.
  apply bind_Ok in H as (q & s12 & H12 & H). injection H12 as <- <-.
  apply bind_Ok in H as (nu & s13 & H13 & H).
  unfold pydiv in H13. cbn in H13.
  destruct (Qeq_bool _ 0) eqn:Hsize in H13; [discriminate|].
  injection H13 as <- <-.
  apply bind_Ok in H as (? & s14 & H14 & H). injection H14 as _ <-.
  injection H as <- <-. cbn.
  exists RC, PW, D. eexists. split; [reflexivity|]. split; [reflexivity|].
  split; [reflexivity|]. split.
  { intros Hz. apply Qeq_bool_neq in Hsize. apply Hsize. rewrite Hz.
    reflexivity. }
  intros k. specialize (K5 k). specialize (K7 k). specialize (K9 k).
  cbn in K5, K7, K9.
  rewrite !list_to_map_to_list in K5. rewrite list_to_map_to_list in K7, K9.
  destruct K5 as [K5l K5r]. rewrite lookup_empty in K5l.
  split; [exact K5r|].
  unfold lender_share.
  destruct (_signaled_withdrawals p !! k) as [r|].
  - destruct K7 as (fl & Hfl & Hl' & Hpw).
    rewrite K5l in Hfl.
    destruct (_deposits p !! k) as [d|]; [|discriminate Hfl].
    injection Hfl as <-. exists d. split; [reflexivity|].
    split; [exact Hpw|]. rewrite K9, Hl'. reflexivity.
  - destruct K7 as [Hl' Hpw]. split; [exact Hpw|].
    rewrite K9, Hl', K5l.
    destruct (_deposits p !! k); reflexivity.
Qed.

(** The whole step that ends a running cycle. *)
Lemma take_step_running_spec (env : Environment) (time_step : timedelta)
    (p p' : LendingPool) (events : list EventInfo) :
  _next_cycle_time p <= get_time env ->
  _status p = RUNNING ->
  take_step env time_step p = Ok events p' ->
  exists RC PW D : gmap string Q,
    p' = pool_after_settlement p RC PW D (settled_cycle_data env p)
    /\ events
       = [ {| ev_time := get_time env;
              ev_type := "lending_pool_running_period_ended";
              ev_extra := [ ("total_deposits", VFloat (Qsum (values D)));
                            ("cycle_number", VInt (_cycle_count p));
                            ("lending_pool", VStr (name p)) ] |} ]
    /\ ~ (_total_deposits p == 0)%Q
    /\ forall k, settled_entry p RC PW D k.
Proof.
  intros Hb Hrun H. unfold take_step in H.
  apply bind_Ok in H as (? & s1 & H1 & H). injection H1 as _ <-.
  apply bind_Ok in H as (next & s2 & H2 & H). injection H2 as <- <-.
  cbn in H. apply Z.leb_le in Hb. rewrite Hb in H.
  apply bind_Ok in H as (? & s3 & H3 & H). injection H3 as _ <-.
  apply bind_Ok in H as (st & s4 & H4 & H). injection H4 as <- <-.
  apply bind_Ok in H as (evs & s5 & H5 & H).
  cbn in H5. rewrite Hrun in H5.
  apply end_running_cycle_spec in H5
    as (RC & PW & D & cd & -> & -> & -> & Hnz & K).
  cbn in H. injection H as <- <-.
  exists RC, PW, D. cbn in Hnz.
  replace (_cycle_count p + 1 - 1) with (_cycle_count p) by lia.
  split; [|split; [reflexivity|split; [exact Hnz|]]].
  2:{ intros k. specialize (K k). unfold settled_entry, lender_share in *.
      cbn in K. exact K. }
  unfold pool_after_settlement, settled_cycle_data. cbn.
  replace (_cycle_count p + 1 - 1) with (_cycle_count p) by lia.
  reflexivity.
Qed.

(** The bookkeeping of the promotion out of genesis. *)
Lemma take_step_promotes_genesis_aux (env : Environment)
    (time_step : timedelta) (p : LendingPool) :
  _next_cycle_time p <= get_time env ->
  _status p = GENESIS ->
  exists events p',
    take_step env time_step p = Ok events p'
    /\ _cycle_count p' = _cycle_count p + 1
    /\ _next_cycle_time p' = _next_cycle_time p + _running_period p
    /\ length events = 1%nat
    /\ name p' = name p
    /\ _max_ltv p' = _max_ltv p
    /\ _max_liquidity p' = _max_liquidity p
    /\ _genesis_period p' = _genesis_period p
    /\ _running_period p' = _running_period p
    /\ _min_loan_amount p' = _min_loan_amount p
    /\ _min_load_period p' = _min_load_period p.
Proof.
  intros Hb Hg. apply Z.leb_le in Hb.
  unfold take_step, end_genesis, reset_lending_pool_data. unfold_monad. cbn.
  rewrite Hb. cbn. rewrite Hg. cbn.
  eexists _, _. split; [reflexivity|]. cbn. repeat split; reflexivity.
Qed.

(** X6. The step that reaches the end of the genesis period always returns:
    the pool is Running, the pending deposits have become the deposits of
    the first cycle and their sum its liquidity, the cycle count is one
    more, the next boundary lies one running period after the old one, and
    pending withdrawals, reclaimed collateral and cycle history are left
    alone.  The one event it returns reports the total deposits of before
    the promotion. *)
Theorem take_step_promotes_genesis (env : Environment) (time_step : timedelta)
    (p : LendingPool) :
  _next_cycle_time p <= get_time env ->
  _status p = GENESIS ->
  exists p',
    take_step env time_step p
    = Ok [ {| ev_time := get_time env;
              ev_type := "lending_pool_genesis_period_ended";
              ev_extra := [ ("total_deposits", VFloat (_total_deposits p));
                            ("cycle_count", VInt (_cycle_count p + 1));
                            ("lending_pool", VStr (name p)) ] |} ] p'
    /\ _status p' = RUNNING
    /\ _deposits p' = _pending_deposits p
    /\ _pending_deposits p' = ∅
    /\ _total_deposits p' = Qsum (values (_pending_deposits p))
    /\ _available_amount p' = Qsum (values (_pending_deposits p))
    /\ _cycle_count p' = _cycle_count p + 1
    /\ _next_cycle_time p' = _next_cycle_time p + _running_period p
    /\ _pending_withdrawals p' = _pending_withdrawals p
    /\ _reclaimed_collateral p' = _reclaimed_collateral p
    /\ _cycle_history p' = _cycle_history p.
Proof.
  intros Hb Hg. apply Z.leb_le in Hb.
  unfold take_step, end_genesis, reset_lending_pool_data. unfold_monad. cbn.
  rewrite Hb. cbn. rewrite Hg. cbn.
  eexists. split; [reflexivity|]. cbn. repeat split; reflexivity.
Qed.

Lemma take_step_promotes_genesis_witness :
  exists p',
    take_step (scenario.at_second 60) scenario.minute
      (pool scenario.after_deposit)
    = Ok [ {| ev_time := get_time (scenario.at_second 60);
              ev_type := "lending_pool_genesis_period_ended";
              ev_extra :=
                [ ("total_deposits",
                   VFloat (_total_deposits (pool scenario.after_deposit)));
                  ("cycle_count",
                   VInt (_cycle_count (pool scenario.after_deposit) + 1));
                  ("lending_pool",
                   VStr (name (pool scenario.after_deposit))) ] |} ] p'
    /\ _status p' = RUNNING
    /\ _deposits p' = _pending_deposits (pool scenario.after_deposit)
    /\ _pending_deposits p' = ∅
    /\ _total_deposits p'
       = Qsum (values (_pending_deposits (pool scenario.after_deposit)))
    /\ _available_amount p'
       = Qsum (values (_pending_deposits (pool scenario.after_deposit)))
    /\ _cycle_count p' = _cycle_count (pool scenario.after_deposit) + 1
    /\ _next_cycle_time p'
       = _next_cycle_time (pool scenario.after_deposit)
         + _running_period (pool scenario.after_deposit)
    /\ _pending_withdrawals p'
       = _pending_withdrawals (pool scenario.after_deposit)
    /\ _reclaimed_collateral p'
       = _reclaimed_collateral (pool scenario.after_deposit)
    /\ _cycle_history p' = _cycle_history (pool scenario.after_deposit).
Proof.
  apply (take_step_promotes_genesis (scenario.at_second 60) scenario.minute
           (pool scenario.after_deposit)).
  - vm_compute. discriminate.
  - vm_compute. reflexivity.
Defined.

(** X7. At the end of a running cycle every depositor is credited, on top
    of what was already reclaimed for them, the part of the locked
    collateral that their deposit is of the total deposits; the reclaimed
    collateral of every other address is left as it was. *)
Theorem settlement_reclaims_collateral (env : Environment)
    (time_step : timedelta) (p p' : LendingPool) (events : list EventInfo)
    (k : string) :
  _next_cycle_time p <= get_time env ->
  _status p = RUNNING ->
  take_step env time_step p = Ok events p' ->
  _reclaimed_collateral p' !! k
  = match _deposits p !! k with
    | Some d =>
        Some (get_or_zero (_reclaimed_collateral p) k
              + d / _total_deposits p * _total_collateral_locked p)%Q
    | None => _reclaimed_collateral p !! k
    end.
Proof.
  intros Hb Hrun H.
  destruct (take_step_running_spec env time_step p p' events Hb Hrun H)
    as (RC & PW & D & -> & _ & _ & K).
  destruct (K k) as [Hk _]. exact Hk.
Qed.

(** The cycle of the scenario ends with the loan of 100 unpaid and its
    one unit of collateral locked: the only depositor, who had reclaimed
    nothing before, is credited the whole unit. *)
Lemma settlement_reclaims_collateral_witness :
  exists d v,
    _deposits (pool scenario.after_borrow) !! "mock_address" = Some d
    /\ (d == 500)%Q
    /\ (_total_deposits (pool scenario.after_borrow) == 500)%Q
    /\ (_total_collateral_locked (pool scenario.after_borrow) == 1)%Q
    /\ _reclaimed_collateral (pool scenario.after_borrow) !! "mock_address"
       = None
    /\ _reclaimed_collateral scenario.defaulted_pool !! "mock_address"
       = Some v
    /\ (v == 1)%Q
    /\ v = (get_or_zero (_reclaimed_collateral (pool scenario.after_borrow))
              "mock_address"
            + d / _total_deposits (pool scenario.after_borrow)
              * _total_collateral_locked (pool scenario.after_borrow))%Q.
Proof.
  pose proof (settlement_reclaims_collateral (scenario.at_second 240)
                scenario.minute (pool scenario.after_borrow)
                scenario.defaulted_pool scenario.defaulted_events
                "mock_address") as H.
  assert (Hd : _deposits (pool scenario.after_borrow) !! "mock_address"
               = Some 500%Q) by (vm_compute; reflexivity).
  rewrite Hd in H.
  eexists _, _. split; [exact Hd|].
  split; [reflexivity|].
  split; [vm_compute; reflexivity|].
  split; [vm_compute; reflexivity|].
  split; [vm_compute; reflexivity|].
  split.
  { apply H.
    - vm_compute. discriminate.
    - vm_compute. reflexivity.
    - vm_compute. reflexivity. }
  split; [vm_compute; reflexivity|reflexivity].
Defined.

(** X8. A lender who signaled the ratio [r] during the cycle has that part
    of their share of the remaining liquidity added to their pending
    withdrawals; the rest, when it is positive, is added to their pending
    deposit and becomes their deposit of the next cycle, and otherwise that
    deposit is their pending deposit alone. *)
Theorem settlement_executes_withdrawal (env : Environment)
    (time_step : timedelta) (p p' : LendingPool) (events : list EventInfo)
    (k : string) (r : Q) :
  _next_cycle_time p <= get_time env ->
  _status p = RUNNING ->
  take_step env time_step p = Ok events p' ->
  _signaled_withdrawals p !! k = Some r ->
  exists d,
    _deposits p !! k = Some d
    /\ _pending_withdrawals p' !! k
       = Some (get_or_zero (_pending_withdrawals p) k + lender_share p d * r)%Q
    /\ _deposits p' !! k
       = if Qltb 0 (lender_share p d - lender_share p d * r)
         then Some (get_or_zero (_pending_deposits p) k
                    + (lender_share p d - lender_share p d * r))%Q
         else _pending_deposits p !! k.
Proof.
  intros Hb Hrun H Hr.
  destruct (take_step_running_spec env time_step p p' events Hb Hrun H)
    as (RC & PW & D & -> & _ & _ & K).
  destruct (K k) as [_ Hk]. rewrite Hr in Hk. exact Hk.
Qed.

Lemma settlement_executes_withdrawal_witness :
  exists d,
    _deposits (pool scenario.after_signal) !! "mock_address" = Some d
    /\ _pending_withdrawals scenario.settled_pool !! "mock_address"
       = Some (get_or_zero (_pending_withdrawals (pool scenario.after_signal))
                 "mock_address"
               + lender_share (pool scenario.after_signal) d * 1)%Q
    /\ _deposits scenario.settled_pool !! "mock_address"
       = if Qltb 0 (lender_share (pool scenario.after_signal) d
                    - lender_share (pool scenario.after_signal) d * 1)
         then Some (get_or_zero (_pending_deposits (pool scenario.after_signal))
                      "mock_address"
                    + (lender_share (pool scenario.after_signal) d
                       - lender_share (pool scenario.after_signal) d * 1))%Q
         else _pending_deposits (pool scenario.after_signal) !! "mock_address".
Proof.
  apply (settlement_executes_withdrawal (scenario.at_second 240)
           scenario.minute (pool scenario.after_signal) scenario.settled_pool
           scenario.settlement_events "mock_address" 1).
  - vm_compute. discriminate.
  - vm_compute. reflexivity.
  - vm_compute. reflexivity.
  - vm_compute. reflexivity.
Defined.

(** X9. The settlement neither creates nor loses liquidity of a lender who
    signaled a ratio between 0 and 1 and whose share is not negative: what
    is added to their pending withdrawals and what is added to their
    pending deposit to make their next deposit sum to their share of the
    remaining liquidity. *)
Theorem settlement_conserves_share (env : Environment)
    (time_step : timedelta) (p p' : LendingPool) (events : list EventInfo)
    (k : string) (d r : Q) :
  _next_cycle_time p <= get_time env ->
  _status p = RUNNING ->
  take_step env time_step p = Ok events p' ->
  _deposits p !! k = Some d ->
  _signaled_withdrawals p !! k = Some r ->
  (0 <= r)%Q -> (r <= 1)%Q ->
  (0 <= lender_share p d)%Q ->
  (get_or_zero (_pending_withdrawals p') k
   - get_or_zero (_pending_withdrawals p) k
   + (get_or_zero (_deposits p') k - get_or_zero (_pending_deposits p) k)
   == lender_share p d)%Q.
Proof.
  intros Hb Hrun H Hd Hr Hr0 Hr1 Hs.
  destruct (take_step_running_spec env time_step p p' events Hb Hrun H)
    as (RC & PW & D & -> & _ & _ & K).
  destruct (K k) as [_ Hk]. rewrite Hr in Hk.
  destruct Hk as (d' & Hd' & Hpw & Hdep).
  rewrite Hd in Hd'. injection Hd' as <-.
  cbn [pool_after_settlement _pending_withdrawals _deposits].
  unfold get_or_zero at 1 3. rewrite Hpw, Hdep. cbn [default].
  set (s := lender_share p d) in *.
  set (pw := get_or_zero (_pending_withdrawals p) k).
  destruct (Qltb 0 (s - s * r)) eqn:E.
  - cbn [default]. fold (get_or_zero (_pending_deposits p) k).
    set (pd := get_or_zero (_pending_deposits p) k).
    unfold id. clearbody s pw pd. ring.
  - fold (get_or_zero (_pending_deposits p) k).
    set (pd := get_or_zero (_pending_deposits p) k).
    unfold id. clearbody s pw pd.
    apply Qltb_ge in E.
    assert (Hge : (0 <= s * (1 - r))%Q).
    { apply Qmult_le_0_compat; [exact Hs|lra]. }
    assert (Hz : (s * r == s)%Q) by lra.
    rewrite Hz. ring.
Qed.

Lemma settlement_conserves_share_witness :
  (get_or_zero (_pending_withdrawals scenario.settled_pool) "mock_address"
   - get_or_zero (_pending_withdrawals (pool scenario.after_signal))
       "mock_address"
   + (get_or_zero (_deposits scenario.settled_pool) "mock_address"
      - get_or_zero (_pending_deposits (pool scenario.after_signal))
          "mock_address")
   == lender_share (pool scenario.after_signal) 500)%Q.
Proof.
  apply (settlement_conserves_share (scenario.at_second 240)
           scenario.minute (pool scenario.after_signal) scenario.settled_pool
           scenario.settlement_events "mock_address" 500 1).
  - vm_compute. discriminate.
  - vm_compute. reflexivity.
  - vm_compute. reflexivity.
  - vm_compute. reflexivity.
  - vm_compute. reflexivity.
  - vm_compute. discriminate.
  - vm_compute. discriminate.
  - vm_compute. discriminate.
Defined.

(** X10. A lender who signaled nothing keeps their pending withdrawals as
    they were, and a depositor among them has their whole share of the
    remaining liquidity, when it is positive, added to their pending
    deposit to make their deposit of the next cycle; an address that is
    neither starts the next cycle with its pending deposit alone. *)
Theorem settlement_rolls_over (env : Environment)
    (time_step : timedelta) (p p' : LendingPool) (events : list EventInfo)
    (k : string) :
  _next_cycle_time p <= get_time env ->
  _status p = RUNNING ->
  take_step env time_step p = Ok events p' ->
  _signaled_withdrawals p !! k = None ->
  _pending_withdrawals p' !! k = _pending_withdrawals p !! k
  /\ _deposits p' !! k
     = match _deposits p !! k with
       | Some d =>
           if Qltb 0 (lender_share p d)
           then Some (get_or_zero (_pending_deposits p) k + lender_share p d)%Q
           else _pending_deposits p !! k
       | None => _pending_deposits p !! k
       end.
Proof.
  intros Hb Hrun H Hr.
  destruct (take_step_running_spec env time_step p p' events Hb Hrun H)
    as (RC & PW & D & -> & _ & _ & K).
  destruct (K k) as [_ Hk]. rewrite Hr in Hk. exact Hk.
Qed.

Lemma settlement_rolls_over_witness :
  _pending_withdrawals scenario.rolled_pool !! "mock_address"
  = _pending_withdrawals scenario.funded_pool !! "mock_address"
  /\ _deposits scenario.rolled_pool !! "mock_address"
     = match _deposits scenario.funded_pool !! "mock_address" with
       | Some d =>
           if Qltb 0 (lender_share scenario.funded_pool d)
           then Some (get_or_zero (_pending_deposits scenario.funded_pool)
                        "mock_address"
                      + lender_share scenario.funded_pool d)%Q
           else _pending_deposits scenario.funded_pool !! "mock_address"
       | None => _pending_deposits scenario.funded_pool !! "mock_address"
       end.
Proof.
  apply (settlement_rolls_over (scenario.at_second 240) scenario.minute
           scenario.funded_pool scenario.rolled_pool scenario.rolled_events
           "mock_address").
  - vm_compute. discriminate.
  - vm_compute. reflexivity.
  - vm_compute. reflexivity.
  - vm_compute. reflexivity.
Defined.

(** X11. The step that ends a running cycle files one record in the cycle
    history, under the number the cycle had, and changes no other entry:
    the record holds the total deposits, the available amount, the locked
    collateral and the fees of the cycle as they were before the step, the
    collateral valued at the price of the step, the average of the
    utilization readings with that of this step among them, and the loans
    of the cycle, in the order in which they were taken.  Its one event
    reports the number of the cycle and the total deposits of the cycle
    that starts. *)
Theorem settlement_files_cycle (env : Environment)
    (time_step : timedelta) (p p' : LendingPool) (events : list EventInfo) :
  _next_cycle_time p <= get_time env ->
  _status p = RUNNING ->
  take_step env time_step p = Ok events p' ->
  _cycle_history p'
  = <[_cycle_count p := settled_cycle_data env p]> (_cycle_history p)
  /\ (exists cd,
        _cycle_history p' !! _cycle_count p = Some cd
        /\ cd_loans cd = (odict_items (_loans p)).*2
        /\ initial_liquidity cd = _total_deposits p
        /\ remaining_liquidity cd = _available_amount p
        /\ total_reclaimed_collateral cd = _total_collateral_locked p
        /\ cd_total_fees_earned cd = _total_fees_earned p
        /\ final_collateral_price cd = get_price env
        /\ final_collateral_value cd
           = (get_price env * _total_collateral_locked p)%Q
        /\ average_utilization cd
           = (Qsum (_utilizations p ++ [get_utilization p])
              / inject_Z (Z.of_nat (length (_utilizations p) + 1)))%Q
        /\ normalized_utilization cd
           = (Qsum (get_sizedays <$> (odict_items (_loans p)).*2)
              / (_total_deposits p * total_seconds (_running_period p)
                 / 86400))%Q)
  /\ (forall n, n <> _cycle_count p ->
        _cycle_history p' !! n = _cycle_history p !! n)
  /\ events
     = [ {| ev_time := get_time env;
            ev_type := "lending_pool_running_period_ended";
            ev_extra := [ ("total_deposits", VFloat (_total_deposits p'));
                          ("cycle_number", VInt (_cycle_count p));
                          ("lending_pool", VStr (name p)) ] |} ].
Proof.
  intros Hb Hrun H.
  destruct (take_step_running_spec env time_step p p' events Hb Hrun H)
    as (RC & PW & D & -> & -> & _ & _).
  split; [reflexivity|]. split; [|split; [|reflexivity]].
  - eexists. split; [cbn; apply lookup_insert_eq|].
    unfold settled_cycle_data, odict_values. cbn.
    rewrite length_app. cbn [length].
    repeat split; reflexivity.
  - intros n Hne. cbn. apply lookup_insert_ne. congruence.
Qed.

(** The cycle of the scenario with two loans outstanding: the record filed
    for it lists the loan of [borrower_000000], taken first, before the
    loan of [a_borrower]. *)
Lemma settlement_files_cycle_witness :
  exists cd first second,
    _cycle_history scenario.two_loans_settled
      !! _cycle_count (pool scenario.after_two_loans) = Some cd
    /\ cd_loans cd = [first; second]
    /\ loan_id first = "LendingPool-borrower_000000-130"
    /\ loan_id second = "LendingPool-a_borrower-140"
    /\ (total_debt first == 100)%Q /\ (total_debt second == 50)%Q
    /\ paid first = false /\ paid second = false
    /\ (initial_liquidity cd == 500)%Q
    /\ (remaining_liquidity cd == 703 # 2)%Q
    /\ (total_reclaimed_collateral cd == 2)%Q
    /\ (final_collateral_value cd == 4000)%Q
    /\ length scenario.two_loans_events = 1%nat.
Proof.
  destruct (settlement_files_cycle (scenario.at_second 240) scenario.minute
              (pool scenario.after_two_loans) scenario.two_loans_settled
              scenario.two_loans_events)
    as (_ & (cd & Hcd & Hloans & Hinit & Hrem & Hrec & _ & _ & Hval & _)
        & _ & Hev).
  - vm_compute. discriminate.
  - vm_compute. reflexivity.
  - vm_compute. reflexivity.
  - assert (Hl : exists first second,
               (odict_items (_loans (pool scenario.after_two_loans))).*2
               = [first; second]
               /\ loan_id first = "LendingPool-borrower_000000-130"
               /\ loan_id second = "LendingPool-a_borrower-140"
               /\ (total_debt first == 100)%Q /\ (total_debt second == 50)%Q
               /\ paid first = false /\ paid second = false).
    { vm_compute. eexists _, _. split; [reflexivity|].
      repeat split; reflexivity. }
    destruct Hl as (first & second & Hl & Hrest).
    exists cd, first, second.
    split; [exact Hcd|]. split; [rewrite Hloans; exact Hl|].
    destruct Hrest as (? & ? & ? & ? & ? & ?).
    repeat match goal with |- _ /\ _ => split end; try assumption.
    + rewrite Hinit. vm_compute. reflexivity.
    + rewrite Hrem. vm_compute. reflexivity.
    + rewrite Hrec. vm_compute. reflexivity.
    + rewrite Hval. vm_compute. reflexivity.
    + rewrite Hev. reflexivity.
Defined.

(** X12. Every step that reaches the cycle boundary and returns, out of
    genesis or at the end of a running cycle, counts one cycle more, moves
    the boundary by exactly one running period, whatever the time of the
    step, and leaves the configuration of the pool alone. *)
Theorem take_step_boundary_bookkeeping (env : Environment)
    (time_step : timedelta) (p p' : LendingPool) (events : list EventInfo) :
  _next_cycle_time p <= get_time env ->
  take_step env time_step p = Ok events p' ->
  _cycle_count p' = _cycle_count p + 1
  /\ _next_cycle_time p' = _next_cycle_time p + _running_period p
  /\ length events = 1%nat
  /\ name p' = name p
  /\ _max_ltv p' = _max_ltv p
  /\ _max_liquidity p' = _max_liquidity p
  /\ _genesis_period p' = _genesis_period p
  /\ _running_period p' = _running_period p
  /\ _min_loan_amount p' = _min_loan_amount p
  /\ _min_load_period p' = _min_load_period p.
Proof.
  intros Hb H. destruct (_status p) eqn:Est.
  - destruct (take_step_promotes_genesis_aux env time_step p Hb Est)
      as (ev & q & Hq & Hfacts).
    rewrite Hq in H. injection H as <- <-. exact Hfacts.
  - destruct (take_step_running_spec env time_step p p' events Hb Est H)
      as (RC & PW & D & -> & -> & _ & _).
    repeat split; reflexivity.
Qed.

Lemma take_step_boundary_bookkeeping_witness :
  _cycle_count scenario.settled_pool
  = _cycle_count (pool scenario.after_signal) + 1
  /\ _next_cycle_time scenario.settled_pool
     = _next_cycle_time (pool scenario.after_signal)
       + _running_period (pool scenario.after_signal)
  /\ length scenario.settlement_events = 1%nat
  /\ name scenario.settled_pool = name (pool scenario.after_signal)
  /\ _max_ltv scenario.settled_pool = _max_ltv (pool scenario.after_signal)
  /\ _max_liquidity scenario.settled_pool
     = _max_liquidity (pool scenario.after_signal)
  /\ _genesis_period scenario.settled_pool
     = _genesis_period (pool scenario.after_signal)
  /\ _running_period scenario.settled_pool
     = _running_period (pool scenario.after_signal)
  /\ _min_loan_amount scenario.settled_pool
     = _min_loan_amount (pool scenario.after_signal)
  /\ _min_load_period scenario.settled_pool
     = _min_load_period (pool scenario.after_signal).
Proof.
  apply (take_step_boundary_bookkeeping (scenario.at_second 240)
           scenario.minute (pool scenario.after_signal) scenario.settled_pool
           scenario.settlement_events).
  - vm_compute. discriminate.
  - vm_compute. reflexivity.
Defined.

(** ** The operations on the concrete scenarios *)

Lemma borrow_returns_witness :
  exists loan p' w',
    borrow (scenario.at_second 70) 100 1 scenario.minute
      {| pool := scenario.funded_pool; wallet := scenario.borrower |}
    = Ok loan {| pool := p'; wallet := w' |}
    /\ total_debt loan = 100%Q
    /\ _loans p' !! loan_id loan = Some loan.
Proof.
  destruct (borrow_returns (scenario.at_second 70) scenario.funded_pool
              scenario.borrower 100 1 scenario.minute 0 (1 # 100))
    as (loan & p' & w' & H & _ & _ & Hdebt & _ & _ & Hloan & _).
  - vm_compute. reflexivity.
  - intros E. vm_compute in E. discriminate E.
  - vm_compute. reflexivity.
  - reflexivity.
  - exists loan, p', w'. split; [exact H|]. split; [exact Hdebt|exact Hloan].
Defined.

Lemma borrow_then_repay_witness :
  exists p' w',
    (let* loan := borrow (scenario.at_second 70) 100 1 scenario.minute in
     repay (scenario.at_second 100) (loan_id loan))
      {| pool := scenario.funded_pool; wallet := scenario.borrower |}
    = Ok tt {| pool := p'; wallet := w' |}
    /\ (_available_amount p'
        == _available_amount scenario.funded_pool + (1 # 100) * 100)%Q.
Proof.
  destruct (borrow_then_repay (scenario.at_second 70) (scenario.at_second 100)
              scenario.funded_pool scenario.borrower 100 1 scenario.minute
              0 (1 # 100))
    as (p' & w' & ids' & loan & H & Hav & _).
  - vm_compute. reflexivity.
  - intros E. vm_compute in E. discriminate E.
  - vm_compute. reflexivity.
  - reflexivity.
  - vm_compute. discriminate.
  - vm_compute. discriminate.
  - exists p', w'. split; [exact H|exact Hav].
Defined.

Lemma signal_withdrawal_overwrites_witness :
  exists s',
    signal_withdrawal 1
      {| pool := scenario.funded_pool; wallet := scenario.lender |} = Ok tt s'
    /\ _signaled_withdrawals (pool s') !! address scenario.lender = Some 1%Q.
Proof.
  pose proof (signal_withdrawal_overwrites scenario.funded_pool
                scenario.lender (1 # 2) 1) as H.
  cbv zeta in H. destruct H as (_ & _ & H).
  destruct H as [_ H].
  - vm_compute. reflexivity.
  - split; vm_compute; discriminate.
  - split; vm_compute; discriminate.
  - vm_compute. eexists. reflexivity.
  - exact H.
Defined.

(** The lender of the defaulted cycle holds one unit of reclaimed
    collateral and withdraws a half. *)
Lemma withdraw_collateral_spec_witness :
  exists s' v,
    withdraw_collateral (1 # 2)
      {| pool := scenario.defaulted_pool; wallet := scenario.lender |}
    = Ok tt s'
    /\ (get_or_zero (_reclaimed_collateral scenario.defaulted_pool)
          "mock_address" == 1)%Q
    /\ _reclaimed_collateral (pool s') !! "mock_address" = Some v
    /\ (v == 1 # 2)%Q
    /\ (secondary_balance scenario.lender == 2000)%Q
    /\ (secondary_balance (wallet s') == 4001 # 2)%Q
    /\ (primary_balance (wallet s') == 1000)%Q.
Proof.
  pose proof (withdraw_collateral_spec scenario.defaulted_pool
                scenario.lender (1 # 2)) as H.
  cbv zeta in H. destruct H as [H _].
  destruct H as (Hrun & Hlk & _).
  { split; [vm_compute; reflexivity|vm_compute; discriminate]. }
  eexists _, _. split; [exact Hrun|].
  split; [vm_compute; reflexivity|].
  split; [exact Hlk|].
  repeat split; vm_compute; reflexivity.
Defined.


(** ** The Kelly fee model beyond the concrete grid *)

Lemma Qle_bool_false (x y : Q) : Qle_bool x y = false -> (y < x)%Q.
Proof.
  intros H. apply Qnot_le_lt. intros Hle.
  apply Qle_bool_iff in Hle. congruence.
Qed.

Lemma insert_sorted_members (x y : Q) (l : list Q) :
  Exists (Qeq y) (kelly_fee_model.insert_sorted x l)
  <-> (y == x)%Q \/ Exists (Qeq y) l.
Proof.
  induction l as [|z l IH]; cbn.
  - rewrite Exists_cons. reflexivity.
  - destruct (Qeq_bool x z) eqn:Exz.
    + apply Qeq_bool_iff in Exz. split; [right; assumption|].
      intros [Hy|Hy]; [|exact Hy].
      apply Exists_cons. left. rewrite Hy. exact Exz.
    + destruct (Qle_bool x z) eqn:Elz.
      * rewrite Exists_cons. reflexivity.
      * rewrite !Exists_cons, IH. tauto.
Qed.

Lemma insert_sorted_sorted (x : Q) (l : list Q) :
  StronglySorted Qlt l ->
  StronglySorted Qlt (kelly_fee_model.insert_sorted x l).
Proof.
  induction 1 as [|z l Hs IH Hz]; cbn.
  - repeat constructor.
  - destruct (Qeq_bool x z) eqn:Exz; [constructor; assumption|].
    destruct (Qle_bool x z) eqn:Elz.
    + apply Qle_bool_iff in Elz. apply Qeq_bool_neq in Exz.
      assert (Hlt : (x < z)%Q).
      { apply Qle_lteq in Elz as [Hlt|Heq]; [exact Hlt|contradiction]. }
      constructor; [constructor; assumption|].
      constructor; [exact Hlt|].
      eapply Forall_impl; [exact Hz|].
      intros w Hw. cbn in Hw. eapply Qlt_trans; eassumption.
    + apply Qle_bool_false in Elz.
      constructor; [exact IH|].
      apply Forall_forall. intros w Hw.
      assert (He : Exists (Qeq w) (kelly_fee_model.insert_sorted x l)).
      { apply Exists_exists. exists w. split; [exact Hw|reflexivity]. }
      apply insert_sorted_members in He as [He|He].
      * rewrite He. exact Elz.
      * apply Exists_exists in He as (v & Hv & Hwv).
        rewrite Hwv. rewrite Forall_forall in Hz. apply Hz, Hv.
Qed.

Lemma sorted_set_sorted (l : list Q) :
  StronglySorted Qlt (kelly_fee_model.sorted_set l).
Proof.
  induction l as [|x l IH]; cbn.
  - constructor.
  - apply insert_sorted_sorted, IH.
Qed.

Lemma sorted_set_members (y : Q) (l : list Q) :
  Exists (Qeq y) (kelly_fee_model.sorted_set l) <-> Exists (Qeq y) l.
Proof.
  induction l as [|x l IH]; cbn.
  - reflexivity.
  - rewrite insert_sorted_members, Exists_cons, IH. reflexivity.
Qed.

(** On an ascending array the insertion index stays below the length
    exactly when the value is below the last element. *)
Lemma searchsorted_right_below_last (l : list Q) (v x : Q) :
  StronglySorted Qlt l -> last l = Some x ->
  (kelly_fee_model.searchsorted_right l v <? length l)%nat = Qltb v x.
Proof.
  intros Hs. revert x. induction Hs as [|z l Hs IH Hz]; intros x Hx.
  - discriminate Hx.
  - cbn [kelly_fee_model.searchsorted_right length].
    destruct (Qle_bool z v) eqn:Ezv.
    + destruct l as [|z' l'].
      * cbn in Hx. injection Hx as <-. cbn.
        symmetry. apply Qltb_ge. apply Qle_bool_iff. exact Ezv.
      * rewrite last_cons_cons in Hx.
        rewrite <- (IH x Hx).
        destruct (Nat.ltb_spec (kelly_fee_model.searchsorted_right (z' :: l') v)
                    (length (z' :: l')));
          destruct (Nat.ltb_spec
                      (S (kelly_fee_model.searchsorted_right (z' :: l') v))
                      (S (length (z' :: l')))); (reflexivity || lia).
    + apply Qle_bool_false in Ezv.
      assert (Hzx : (z <= x)%Q).
      { destruct l as [|z' l'].
        - cbn in Hx. injection Hx as <-. apply Qle_refl.
        - rewrite last_cons_cons in Hx. apply Qlt_le_weak.
          rewrite Forall_forall in Hz. apply Hz.
          apply last_Some_elem_of. exact Hx. }
      cbn. symmetry. apply Qltb_lt. eapply Qlt_le_trans; eassumption.
Qed.

(** X14. [update_parameters] either fails its assertion or keeps the grid
    as given with both axes strictly ascending: every LTV and every
    expiration of a grid point is on its axis, every value on an axis
    comes from a grid point, and the number of grid points is the product
    of the lengths of the axes. *)
Theorem kelly_update_parameters_axes
    (grid : list (kelly_fee_model.GridPoint * kelly_fee_model.KellyCurve)) :
  kelly_fee_model.update_parameters grid = inl AssertionError
  \/ exists m,
       kelly_fee_model.update_parameters grid = inr m
       /\ kelly_fee_model.curve_grid m = grid
       /\ StronglySorted Qlt (kelly_fee_model.ltvs m)
       /\ StronglySorted Qlt (kelly_fee_model.days_ m)
       /\ length grid
          = (length (kelly_fee_model.ltvs m)
             * length (kelly_fee_model.days_ m))%nat
       /\ (forall point curve, (point, curve) ∈ grid ->
             Exists (Qeq (kelly_fee_model.ltv point)) (kelly_fee_model.ltvs m)
             /\ Exists (Qeq (kelly_fee_model.days point))
                  (kelly_fee_model.days_ m))
       /\ (forall x, x ∈ kelly_fee_model.ltvs m ->
             exists point curve,
               (point, curve) ∈ grid /\ (x == kelly_fee_model.ltv point)%Q)
       /\ (forall x, x ∈ kelly_fee_model.days_ m ->
             exists point curve,
               (point, curve) ∈ grid /\ (x == kelly_fee_model.days point)%Q).
Proof.
  unfold kelly_fee_model.update_parameters.
  case_bool_decide as Hlen; [right|left; reflexivity].
  eexists. split; [reflexivity|]. cbn.
  split; [reflexivity|].
  split; [apply sorted_set_sorted|].
  split; [apply sorted_set_sorted|].
  split; [exact Hlen|].
  assert (Hin : forall (f : kelly_fee_model.GridPoint -> Q) point curve,
             (point, curve) ∈ grid ->
             Exists (Qeq (f point))
               (kelly_fee_model.sorted_set ((fun kv => f kv.1) <$> grid))).
  { intros f point curve Hpc. apply sorted_set_members.
    apply Exists_exists. exists (f point). split; [|reflexivity].
    apply list_elem_of_fmap. exists (point, curve). split; [reflexivity|exact Hpc]. }
  assert (Hout : forall (f : kelly_fee_model.GridPoint -> Q) x,
             x ∈ kelly_fee_model.sorted_set ((fun kv => f kv.1) <$> grid) ->
             exists point curve, (point, curve) ∈ grid /\ (x == f point)%Q).
  { intros f x Hx.
    assert (He : Exists (Qeq x)
                   (kelly_fee_model.sorted_set ((fun kv => f kv.1) <$> grid))).
    { apply Exists_exists. exists x. split; [exact Hx|reflexivity]. }
    apply (proj1 (sorted_set_members _ _)) in He.
    apply Exists_exists in He as (v & Hv & Hxv).
    apply list_elem_of_fmap in Hv as ([point curve] & -> & Hpc).
    exists point, curve. split; [exact Hpc|exact Hxv]. }
  split; [|split].
  - intros point curve Hpc. split.
    + apply (Hin kelly_fee_model.ltv point curve Hpc).
    + apply (Hin kelly_fee_model.days point curve Hpc).
  - apply (Hout kelly_fee_model.ltv).
  - apply (Hout kelly_fee_model.days).
Qed.

(** Where the code looks on ascending axes. *)
Lemma select_next_highest_sorted (l : list Q) (v : Q) :
  StronglySorted Qlt l ->
  kelly_fee_model.select_next_highest l v
  = match last l with
    | Some x => if Qltb v x then inr x else inl IndexError
    | None => inl IndexError
    end.
Proof.
  intros Hs. rewrite select_next_highest_last.
  destruct (last l) as [x|] eqn:Hl.
  - rewrite (searchsorted_right_below_last l v x Hs Hl). reflexivity.
  - destruct (_ <? _)%nat; reflexivity.
Qed.

(** X15. On ascending axes [get_fee] prices every loan it prices at all
    with the curve of the corner of the grid, the largest LTV and the
    longest expiration: it returns only when the LTV is strictly below the
    largest LTV of the grid and the days of the loan period strictly below
    the longest expiration, and raises [IndexError] in every other case,
    an empty axis included. *)
Theorem kelly_get_fee_corner (cosh : Q -> Q)
    (pow : Q -> Q -> BuiltinError + Q)
    (self : kelly_fee_model.KellyFeeModel) (ltv utilization : Q)
    (loan_period : timedelta) :
  StronglySorted Qlt (kelly_fee_model.ltvs self) ->
  StronglySorted Qlt (kelly_fee_model.days_ self) ->
  kelly_fee_model.get_fee cosh pow self ltv utilization loan_period
  = match last (kelly_fee_model.ltvs self), last (kelly_fee_model.days_ self) with
    | Some max_ltv, Some max_days =>
        if Qltb ltv max_ltv
           && Qltb (inject_Z (timedelta_days loan_period)) max_days
        then match kelly_fee_model.grid_getitem
                     (kelly_fee_model.curve_grid self)
                     {| kelly_fee_model.ltv := max_ltv;
                        kelly_fee_model.days := max_days |} with
             | inl e => inl e
             | inr curve => kelly_fee_model.evaluate cosh pow curve utilization
             end
        else inl IndexError
    | _, _ => inl IndexError
    end.
Proof.
  intros Hl Hd. unfold kelly_fee_model.get_fee.
  rewrite (select_next_highest_sorted _ _ Hl).
  rewrite (select_next_highest_sorted _ _ Hd).
  destruct (last (kelly_fee_model.ltvs self)) as [L|]; [|reflexivity].
  destruct (Qltb ltv L); cbn [andb].
  - destruct (last (kelly_fee_model.days_ self)) as [D|]; [|reflexivity].
    destruct (Qltb _ D); reflexivity.
  - destruct (last (kelly_fee_model.days_ self)); reflexivity.
Qed.

Lemma kelly_get_fee_corner_witness :
  kelly_fee_model.get_fee (fun x => x) (fun x _ => inr x) scenario.kelly_model
    (3 # 10) (1 # 2) scenario.week
  = match last (kelly_fee_model.ltvs scenario.kelly_model),
          last (kelly_fee_model.days_ scenario.kelly_model) with
    | Some max_ltv, Some max_days =>
        if Qltb (3 # 10) max_ltv
           && Qltb (inject_Z (timedelta_days scenario.week)) max_days
        then match kelly_fee_model.grid_getitem
                     (kelly_fee_model.curve_grid scenario.kelly_model)
                     {| kelly_fee_model.ltv := max_ltv;
                        kelly_fee_model.days := max_days |} with
             | inl e => inl e
             | inr curve =>
                 kelly_fee_model.evaluate (fun x => x) (fun x _ => inr x) curve (1 # 2)
             end
        else inl IndexError
    | _, _ => inl IndexError
    end.
Proof.
  apply (kelly_get_fee_corner (fun x => x) (fun x _ => inr x) scenario.kelly_model
           (3 # 10) (1 # 2) scenario.week).
  - repeat constructor.
  - repeat constructor.
Defined.

(** ** The Aave fee model and the hybrid models *)

Lemma years_of_nonneg (loan_period : timedelta) :
  0 <= loan_period -> (0 <= years_of loan_period)%Q.
Proof.
  intros H. unfold years_of, Qdiv.
  apply Qmult_le_0_compat.
  - unfold Qle. cbn. lia.
  - apply Qinv_le_0_compat. unfold Qle. cbn. lia.
Qed.

(** The annualized rate of the two branches. *)
Lemma aave_get_fee_set (self : aave_model.AaveFeeModel) (ltv utilization : Q)
    (loan_period : timedelta) (optimal base slope_1 slope_2 : Q) :
  aave_model.optimal_utilization self = Some optimal ->
  aave_model.base_rate self = Some base ->
  aave_model.rate_slope_1 self = Some slope_1 ->
  aave_model.rate_slope_2 self = Some slope_2 ->
  ~ (optimal == 0)%Q -> ~ (optimal == 1)%Q ->
  aave_model.get_fee self ltv utilization loan_period
  = inr (years_of loan_period
         * (if Qltb utilization optimal
            then base + utilization / optimal * slope_1
            else base + slope_1
                 + slope_2 * ((utilization - optimal) / (1 - optimal))))%Q.
Proof.
  intros Ho Hb H1 H2 Hn0 Hn1. unfold aave_model.get_fee.
  rewrite Ho, Hb, H1, H2. cbn [getattr and_then].
  unfold truediv.
  rewrite (Qeq_bool_false optimal 0 Hn0).
  rewrite (Qeq_bool_false (1 - optimal) 0) by (intros E; apply Hn1; lra).
  destruct (Qltb utilization optimal); reflexivity.
Qed.

(** X16. [AaveFeeModel.get_fee] returns a fee exactly when the optimal
    utilization, the base rate and the first slope have been set and,
    below the optimal utilization, the optimal utilization is not 0, or,
    from the optimal utilization on, the second slope has been set too and
    the optimal utilization is not 1; it raises [AttributeError] or
    [ZeroDivisionError] otherwise.  The LTV plays no part. *)
Theorem aave_get_fee_returns (self : aave_model.AaveFeeModel)
    (ltv utilization : Q) (loan_period : timedelta) :
  ((exists fee,
      aave_model.get_fee self ltv utilization loan_period = inr fee)
   <-> exists optimal base slope_1,
         aave_model.optimal_utilization self = Some optimal
         /\ aave_model.base_rate self = Some base
         /\ aave_model.rate_slope_1 self = Some slope_1
         /\ if Qltb utilization optimal
            then ~ (optimal == 0)%Q
            else is_Some (aave_model.rate_slope_2 self)
                 /\ ~ (optimal == 1)%Q)
  /\ ((forall fee,
         aave_model.get_fee self ltv utilization loan_period <> inr fee) ->
      aave_model.get_fee self ltv utilization loan_period = inl AttributeError
      \/ aave_model.get_fee self ltv utilization loan_period
         = inl ZeroDivisionError)
  /\ forall ltv',
       aave_model.get_fee self ltv' utilization loan_period
       = aave_model.get_fee self ltv utilization loan_period.
Proof.
  split; [|split; [|reflexivity]].
  - unfold aave_model.get_fee, truediv. split.
    + intros [fee H].
      destruct (aave_model.optimal_utilization self) as [o|]; [|discriminate H].
      cbn [getattr and_then] in H.
      destruct (Qltb utilization o) eqn:Elt.
      * destruct (aave_model.base_rate self) as [b|]; [|discriminate H].
        cbn [getattr and_then] in H.
        destruct (Qeq_bool o 0) eqn:E0; [discriminate H|].
        cbn [and_then] in H.
        destruct (aave_model.rate_slope_1 self) as [s1|]; [|discriminate H].
        exists o, b, s1. rewrite Elt. repeat split.
        apply Qeq_bool_neq. exact E0.
      * destruct (aave_model.base_rate self) as [b|]; [|discriminate H].
        destruct (aave_model.rate_slope_1 self) as [s1|]; [|discriminate H].
        destruct (aave_model.rate_slope_2 self) as [s2|]; [|discriminate H].
        cbn [getattr and_then] in H.
        destruct (Qeq_bool (1 - o) 0) eqn:E1; [discriminate H|].
        exists o, b, s1. rewrite Elt. repeat split.
        -- eexists; reflexivity.
        -- apply Qeq_bool_neq in E1. intros E. apply E1. lra.
    + intros (o & b & s1 & -> & -> & -> & H). cbn [getattr and_then].
      destruct (Qltb utilization o).
      * rewrite (Qeq_bool_false o 0 H). eexists; reflexivity.
      * destruct H as [[s2 ->] Hn1]. cbn [getattr and_then].
        rewrite (Qeq_bool_false (1 - o) 0) by (intros E; apply Hn1; lra).
        eexists; reflexivity.
  - intros Hno. unfold aave_model.get_fee, truediv in *.
    destruct (aave_model.optimal_utilization self) as [o|];
      [|left; reflexivity].
    cbn [getattr and_then] in *.
    destruct (Qltb utilization o).
    + destruct (aave_model.base_rate self) as [b|]; [|left; reflexivity].
      cbn [getattr and_then] in *.
      destruct (Qeq_bool o 0); [right; reflexivity|].
      cbn [and_then] in *.
      destruct (aave_model.rate_slope_1 self) as [s1|]; [|left; reflexivity].
      exfalso. eapply Hno. reflexivity.
    + destruct (aave_model.base_rate self) as [b|]; [|left; reflexivity].
      destruct (aave_model.rate_slope_1 self) as [s1|]; [|left; reflexivity].
      destruct (aave_model.rate_slope_2 self) as [s2|]; [|left; reflexivity].
      cbn [getattr and_then] in *.
      destruct (Qeq_bool (1 - o) 0); [right; reflexivity|].
      exfalso. eapply Hno. reflexivity.
Qed.

(** The rate of the curve does not decrease with the utilization, the kink
    included. *)
Lemma aave_rate_monotone (optimal base slope_1 slope_2 u1 u2 : Q) :
  (0 < optimal)%Q -> (optimal < 1)%Q ->
  (0 <= slope_1)%Q -> (0 <= slope_2)%Q -> (u1 <= u2)%Q ->
  ((if Qltb u1 optimal
    then base + u1 / optimal * slope_1
    else base + slope_1 + slope_2 * ((u1 - optimal) / (1 - optimal)))
   <= (if Qltb u2 optimal
       then base + u2 / optimal * slope_1
       else base + slope_1 + slope_2 * ((u2 - optimal) / (1 - optimal))))%Q.
Proof.
  intros Ho0 Ho1 Hs1 Hs2 Hu. unfold Qdiv.
  assert (Hi : (0 < / optimal)%Q) by (apply Qinv_lt_0_compat; exact Ho0).
  assert (Hj : (0 < / (1 - optimal))%Q) by (apply Qinv_lt_0_compat; lra).
  assert (Hio : (optimal * / optimal == 1)%Q) by (apply Qmult_inv_r; lra).
  set (i := (/ optimal)%Q) in *. set (j := (/ (1 - optimal))%Q) in *.
  clearbody i j.
  destruct (Qltb u1 optimal) eqn:E1; destruct (Qltb u2 optimal) eqn:E2.
  - assert (H : (0 <= (u2 - u1) * i * slope_1)%Q).
    { apply Qmult_le_0_compat; [|exact Hs1].
      apply Qmult_le_0_compat; lra. }
    lra.
  - apply Qltb_lt in E1. apply Qltb_ge in E2.
    assert (H : (0 <= (optimal - u1) * i * slope_1)%Q).
    { apply Qmult_le_0_compat; [|exact Hs1].
      apply Qmult_le_0_compat; lra. }
    assert (H' : (0 <= slope_2 * ((u2 - optimal) * j))%Q).
    { apply Qmult_le_0_compat; [exact Hs2|].
      apply Qmult_le_0_compat; lra. }
    assert (Hk : (optimal * i * slope_1 == slope_1)%Q)
      by (rewrite Hio; ring).
    lra.
  - apply Qltb_ge in E1. apply Qltb_lt in E2. lra.
  - assert (H : (0 <= slope_2 * ((u2 - u1) * j))%Q).
    { apply Qmult_le_0_compat; [exact Hs2|].
      apply Qmult_le_0_compat; lra. }
    lra.
Qed.

(** X17. With the optimal utilization strictly between 0 and 1 and no
    negative slope, the Aave fee of a loan period that is not negative
    never decreases when the utilization increases, across the kink too. *)
Theorem aave_get_fee_monotone (self : aave_model.AaveFeeModel)
    (ltv u1 u2 : Q) (loan_period : timedelta)
    (optimal base slope_1 slope_2 : Q) :
  aave_model.optimal_utilization self = Some optimal ->
  aave_model.base_rate self = Some base ->
  aave_model.rate_slope_1 self = Some slope_1 ->
  aave_model.rate_slope_2 self = Some slope_2 ->
  (0 < optimal)%Q -> (optimal < 1)%Q ->
  (0 <= slope_1)%Q -> (0 <= slope_2)%Q ->
  0 <= loan_period ->
  (u1 <= u2)%Q ->
  exists fee1 fee2,
    aave_model.get_fee self ltv u1 loan_period = inr fee1
    /\ aave_model.get_fee self ltv u2 loan_period = inr fee2
    /\ (fee1 <= fee2)%Q.
Proof.
  intros Ho Hb H1 H2 Ho0 Ho1 Hs1 Hs2 Hp Hu.
  rewrite (aave_get_fee_set self ltv u1 loan_period _ _ _ _ Ho Hb H1 H2)
    by lra.
  rewrite (aave_get_fee_set self ltv u2 loan_period _ _ _ _ Ho Hb H1 H2)
    by lra.
  eexists _, _. split; [reflexivity|]. split; [reflexivity|].
  rewrite !(Qmult_comm (years_of loan_period)).
  apply Qmult_le_compat_r; [|apply years_of_nonneg; exact Hp].
  apply aave_rate_monotone; assumption.
Qed.

Lemma aave_get_fee_monotone_witness :
  exists fee1 fee2,
    aave_model.get_fee scenario.aave_curve (1 # 2) (1 # 2) scenario.week
    = inr fee1
    /\ aave_model.get_fee scenario.aave_curve (1 # 2) (9 # 10) scenario.week
       = inr fee2
    /\ (fee1 <= fee2)%Q.
Proof.
  apply (aave_get_fee_monotone scenario.aave_curve (1 # 2) (1 # 2) (9 # 10)
           scenario.week (8 # 10) (1 # 100) (4 # 100) (75 # 100)).
  - reflexivity.
  - reflexivity.
  - reflexivity.
  - reflexivity.
  - vm_compute. reflexivity.
  - vm_compute. reflexivity.
  - vm_compute. discriminate.
  - vm_compute. discriminate.
  - vm_compute. discriminate.
  - vm_compute. discriminate.
Defined.

(** X18. Under the same conditions the fee at utilization 0 is the base
    rate, at the optimal utilization the base rate plus the first slope,
    and at utilization 1 the base rate plus both slopes, each times the
    loan period in years of 365 days; for every utilization between 0 and
    1 the fee lies between the first and the last of these. *)
Theorem aave_get_fee_range (self : aave_model.AaveFeeModel)
    (ltv utilization : Q) (loan_period : timedelta)
    (optimal base slope_1 slope_2 : Q) :
  aave_model.optimal_utilization self = Some optimal ->
  aave_model.base_rate self = Some base ->
  aave_model.rate_slope_1 self = Some slope_1 ->
  aave_model.rate_slope_2 self = Some slope_2 ->
  (0 < optimal)%Q -> (optimal < 1)%Q ->
  (0 <= slope_1)%Q -> (0 <= slope_2)%Q ->
  0 <= loan_period ->
  let years := years_of loan_period in
  (exists fee,
     aave_model.get_fee self ltv 0 loan_period = inr fee
     /\ (fee == years * base)%Q)
  /\ (exists fee,
        aave_model.get_fee self ltv optimal loan_period = inr fee
        /\ (fee == years * (base + slope_1))%Q)
  /\ (exists fee,
        aave_model.get_fee self ltv 1 loan_period = inr fee
        /\ (fee == years * (base + slope_1 + slope_2))%Q)
  /\ ((0 <= utilization)%Q -> (utilization <= 1)%Q ->
      exists fee,
        aave_model.get_fee self ltv utilization loan_period = inr fee
        /\ (years * base <= fee)%Q
        /\ (fee <= years * (base + slope_1 + slope_2))%Q).
Proof.
  intros Ho Hb H1 H2 Ho0 Ho1 Hs1 Hs2 Hp years.
  assert (Hy : (0 <= years)%Q) by (apply years_of_nonneg; exact Hp).
  assert (Hset : forall u,
             aave_model.get_fee self ltv u loan_period
             = inr (years
                    * (if Qltb u optimal
                       then base + u / optimal * slope_1
                       else base + slope_1
                            + slope_2 * ((u - optimal) / (1 - optimal))))%Q).
  { intros u.
    apply (aave_get_fee_set self ltv u loan_period _ _ _ _ Ho Hb H1 H2); lra. }
  assert (R0 : ((if Qltb 0 optimal
                 then base + 0 / optimal * slope_1
                 else base + slope_1
                      + slope_2 * ((0 - optimal) / (1 - optimal)))
                == base)%Q).
  { rewrite (proj2 (Qltb_lt 0 optimal) Ho0). unfold Qdiv. ring. }
  assert (R1 : ((if Qltb 1 optimal
                 then base + 1 / optimal * slope_1
                 else base + slope_1
                      + slope_2 * ((1 - optimal) / (1 - optimal)))
                == base + slope_1 + slope_2)%Q).
  { rewrite (proj2 (Qltb_ge 1 optimal)) by lra. field. lra. }
  split; [|split; [|split]].
  - rewrite Hset. eexists. split; [reflexivity|]. rewrite R0. reflexivity.
  - rewrite Hset. eexists. split; [reflexivity|].
    rewrite (proj2 (Qltb_ge optimal optimal)) by lra.
    apply Qmult_comp; [reflexivity|]. field. lra.
  - rewrite Hset. eexists. split; [reflexivity|]. rewrite R1. reflexivity.
  - intros Hu0 Hu1. rewrite Hset. eexists. split; [reflexivity|].
    pose proof (aave_rate_monotone optimal base slope_1 slope_2 0 utilization
                  Ho0 Ho1 Hs1 Hs2 Hu0) as Hlo.
    pose proof (aave_rate_monotone optimal base slope_1 slope_2 utilization 1
                  Ho0 Ho1 Hs1 Hs2 Hu1) as Hhi.
    rewrite R0 in Hlo. rewrite R1 in Hhi.
    split.
    + rewrite !(Qmult_comm years). apply Qmult_le_compat_r; assumption.
    + rewrite !(Qmult_comm years). apply Qmult_le_compat_r; assumption.
Qed.

Lemma aave_get_fee_range_witness :
  exists fee,
    aave_model.get_fee scenario.aave_curve (1 # 2) (8 # 10) scenario.week
    = inr fee
    /\ (fee == years_of scenario.week * ((1 # 100) + (4 # 100)))%Q.
Proof.
  pose proof (aave_get_fee_range scenario.aave_curve (1 # 2) (1 # 2)
                scenario.week (8 # 10) (1 # 100) (4 # 100) (75 # 100)) as H.
  cbv zeta in H.
  destruct H as (_ & H & _).
  - reflexivity.
  - reflexivity.
  - reflexivity.
  - reflexivity.
  - vm_compute. reflexivity.
  - vm_compute. reflexivity.
  - vm_compute. discriminate.
  - vm_compute. discriminate.
  - vm_compute. discriminate.
  - exact H.
Defined.

(** X19. The hybrid models ask the first model (Black-Scholes or Kelly)
    before the Aave model and raise what the first of them raises.  When
    both return, the sum model returns the sum of the two fees, and the
    combined model the first fee when the Aave fee is not above it and the
    mean of the two, [0.5 * (aave_fee + first_fee)], when it is: the
    combined fee is never below the first fee, never above the larger of
    the two and, when neither fee is negative, never above the fee of the
    sum model. *)
Theorem hybrid_get_fee_bounds (first aave : FeeModel) (ltv utilization : Q)
    (loan_period : timedelta) :
  (forall e,
     first ltv utilization loan_period = inl e ->
     hybrid_model.sum_get_fee first aave ltv utilization loan_period = inl e
     /\ hybrid_model.combined_get_fee first aave ltv utilization loan_period
        = inl e)
  /\ (forall first_fee e,
        first ltv utilization loan_period = inr first_fee ->
        aave ltv utilization loan_period = inl e ->
        hybrid_model.sum_get_fee first aave ltv utilization loan_period = inl e
        /\ hybrid_model.combined_get_fee first aave ltv utilization loan_period
           = inl e)
  /\ (forall first_fee aave_fee,
        first ltv utilization loan_period = inr first_fee ->
        aave ltv utilization loan_period = inr aave_fee ->
        hybrid_model.sum_get_fee first aave ltv utilization loan_period
        = inr (first_fee + aave_fee)%Q
        /\ exists fee,
             hybrid_model.combined_get_fee first aave ltv utilization
               loan_period = inr fee
             /\ (first_fee <= fee)%Q
             /\ ((fee <= first_fee)%Q \/ (fee <= aave_fee)%Q)
             /\ ((aave_fee <= first_fee)%Q -> fee = first_fee)
             /\ ((first_fee < aave_fee)%Q ->
                 fee = ((1 # 2) * (aave_fee + first_fee))%Q)
             /\ ((0 <= first_fee)%Q -> (0 <= aave_fee)%Q ->
                 (fee <= first_fee + aave_fee)%Q)).
Proof.
  unfold hybrid_model.sum_get_fee, hybrid_model.combined_get_fee.
  split; [|split].
  - intros e ->. split; reflexivity.
  - intros k e -> ->. split; reflexivity.
  - intros k a -> ->. cbn [and_then]. split; [reflexivity|].
    destruct (Qltb k a) eqn:E.
    + apply Qltb_lt in E. eexists. split; [reflexivity|].
      split; [lra|]. split; [right; lra|].
      split; [intros Hle; lra|]. split; [reflexivity|intros; lra].
    + apply Qltb_ge in E. eexists. split; [reflexivity|].
      split; [lra|]. split; [left; lra|].
      split; [reflexivity|]. split; [intros Hlt; lra|intros; lra].
Qed.

(** A flat first fee of 1% with the Aave curve of the scenario, for a loan
    of one year: at utilization 0.9 the Aave fee is 42.5%, above the first
    fee, and the combined fee is their mean, 21.75%; at utilization 0 the
    Aave fee is the base rate of 1%, not above the first fee, and the
    combined fee is the first fee. *)
Lemma hybrid_get_fee_bounds_witness :
  let year := timedelta_of_seconds (365 * 86400) in
  let aave := aave_model.get_fee scenario.aave_curve in
  (exists aave_fee fee,
     aave (1 # 2)%Q (9 # 10)%Q year = inr aave_fee
     /\ (aave_fee == 425 # 1000)%Q
     /\ hybrid_model.combined_get_fee scenario.flat_fee aave
          (1 # 2)%Q (9 # 10)%Q year = inr fee
     /\ fee = ((1 # 2) * (aave_fee + (1 # 100)))%Q
     /\ (fee == 2175 # 10000)%Q
     /\ hybrid_model.sum_get_fee scenario.flat_fee aave (1 # 2)%Q (9 # 10)%Q year
        = inr ((1 # 100) + aave_fee)%Q)
  /\ (exists aave_fee fee,
        aave (1 # 2)%Q 0%Q year = inr aave_fee
        /\ (aave_fee == 1 # 100)%Q
        /\ hybrid_model.combined_get_fee scenario.flat_fee aave
             (1 # 2)%Q 0%Q year = inr fee
        /\ fee = (1 # 100)%Q).
Proof.
  cbv zeta. split.
  - assert (Ha : exists aave_fee,
               aave_model.get_fee scenario.aave_curve (1 # 2) (9 # 10)
                 (timedelta_of_seconds (365 * 86400)) = inr aave_fee
               /\ (aave_fee == 425 # 1000)%Q).
    { vm_compute. eexists. split; reflexivity. }
    destruct Ha as (aave_fee & Ha & Hv).
    destruct (hybrid_get_fee_bounds scenario.flat_fee
                (aave_model.get_fee scenario.aave_curve) (1 # 2) (9 # 10)
                (timedelta_of_seconds (365 * 86400)))
      as (_ & _ & H).
    destruct (H (1 # 100)%Q aave_fee eq_refl Ha)
      as (Hsum & fee & Hc & _ & _ & _ & Hmean & _).
    exists aave_fee, fee. split; [exact Ha|]. split; [exact Hv|].
    split; [exact Hc|].
    assert (Hfee : fee = ((1 # 2) * (aave_fee + (1 # 100)))%Q).
    { apply Hmean. rewrite Hv. reflexivity. }
    split; [exact Hfee|]. split; [|exact Hsum].
    rewrite Hfee, Hv. reflexivity.
  - assert (Ha : exists aave_fee,
               aave_model.get_fee scenario.aave_curve (1 # 2) 0
                 (timedelta_of_seconds (365 * 86400)) = inr aave_fee
               /\ (aave_fee == 1 # 100)%Q).
    { vm_compute. eexists. split; reflexivity. }
    destruct Ha as (aave_fee & Ha & Hv).
    destruct (hybrid_get_fee_bounds scenario.flat_fee
                (aave_model.get_fee scenario.aave_curve) (1 # 2) 0
                (timedelta_of_seconds (365 * 86400)))
      as (_ & _ & H).
    destruct (H (1 # 100)%Q aave_fee eq_refl Ha)
      as (_ & fee & Hc & _ & _ & Hfirst & _).
    exists aave_fee, fee. split; [exact Ha|]. split; [exact Hv|].
    split; [exact Hc|].
    apply Hfirst. rewrite Hv. discriminate.
Defined.

(** ** The protocol and the lender agent *)

Lemma deposit_run (p : LendingPool) (w : Wallet) (amount : Q) :
  (amount <= primary_balance w)%Q ->
  deposit amount {| pool := p; wallet := w |}
  = Ok tt {| pool := pool_after_deposit p w amount;
             wallet := set_primary_balance (primary_balance w - amount)%Q w |}.
Proof.
  intros Hbal. apply Qltb_ge in Hbal.
  unfold deposit, pool_after_deposit. unfold_monad. cbn. rewrite Hbal. cbn.
  unfold get_or_zero.
  destruct (_pending_deposits p !! address w) as [v|] eqn:E.
  - case_bool_decide; [discriminate|]. cbn. rewrite E. reflexivity.
  - case_bool_decide; [|contradiction]. cbn.
    rewrite lookup_insert_eq. cbn. unfold set_pending_deposits. cbn.
    rewrite insert_insert_eq. reflexivity.
Qed.

Lemma deposit_short (p : LendingPool) (w : Wallet) (amount : Q) :
  (primary_balance w < amount)%Q ->
  deposit amount {| pool := p; wallet := w |}
  = Raise (Named InsufficientBalanceError) {| pool := p; wallet := w |}.
Proof.
  intros Hbal. apply Qltb_lt in Hbal.
  unfold deposit. unfold_monad. cbn. rewrite Hbal. reflexivity.
Qed.

Lemma dict_set_absent {V} (items : list (string * V)) (key : string) (v : V) :
  protocol.dict_get items key = None ->
  protocol.dict_set items key v = items ++ [(key, v)].
Proof.
  induction items as [|[k v0] items IH]; cbn; [reflexivity|].
  destruct (decide (k = key)); [discriminate|].
  intros H. rewrite (IH H). reflexivity.
Qed.

Lemma dict_get_absent {V} (items : list (string * V)) (key : string) :
  protocol.dict_get items key = None <-> key ∉ items.*1.
Proof.
  induction items as [|[k v0] items IH]; cbn.
  - split; [intros _ H; inversion H|reflexivity].
  - rewrite not_elem_of_cons. destruct (decide (k = key)) as [->|Hne].
    + split; [discriminate|intros [H _]; contradiction].
    + rewrite IH. split; [intros H; split; [congruence|exact H]|intros [_ H]; exact H].
Qed.

(** X20. [create_lending_pool] returns exactly when the name is new, the
    five minimums and periods are not negative, [0 < max_ltv <= 1] and
    [0 < max_liquidity]; it raises [AssertionError] and changes nothing
    otherwise.  When it returns, the new pool is the last of the
    protocol's pools, in Genesis with empty books and its first boundary
    one genesis period after the current time, the pools that were there
    are untouched, the counter is one more, and pairwise different names
    stay pairwise different. *)
Theorem create_lending_pool_spec (environment : Environment) (name : string)
    (fee_model : FeeModel) (max_ltv max_liquidity : Q)
    (genesis_period_seconds running_period_seconds : Z)
    (min_liquidity min_loan_amount : Q) (min_loan_period_seconds : Z)
    (min_position_size : Q) (self : protocol.CoraV1Protocol) :
  let accepted :=
    (name ∉ (protocol._lending_pools self).*1)
    /\ (0 <= min_loan_amount)%Q /\ 0 <= min_loan_period_seconds
    /\ (0 <= min_position_size)%Q /\ 0 <= genesis_period_seconds
    /\ 0 <= running_period_seconds /\ (0 <= min_liquidity)%Q
    /\ (0 < max_ltv)%Q /\ (max_ltv <= 1)%Q /\ (0 < max_liquidity)%Q in
  let created :=
    protocol.create_lending_pool environment name fee_model max_ltv
      max_liquidity genesis_period_seconds running_period_seconds
      min_liquidity min_loan_amount min_loan_period_seconds
      min_position_size self in
  (accepted ->
   exists lending_pool,
     created
     = Ok tt {| protocol._total_lending_pools :=
                  protocol._total_lending_pools self + 1;
                protocol._lending_pools :=
                  protocol._lending_pools self ++ [(name, lending_pool)] |}
     /\ lending_pool.name lending_pool = name
     /\ _status lending_pool = GENESIS
     /\ _next_cycle_time lending_pool
        = get_time environment + timedelta_of_seconds genesis_period_seconds
     /\ _pending_deposits lending_pool = ∅
     /\ _deposits lending_pool = ∅
     /\ _loans lending_pool = ∅
     /\ _available_amount lending_pool = 0%Q
     /\ _cycle_count lending_pool = 0
     /\ (NoDup (protocol._lending_pools self).*1 ->
         NoDup (protocol._lending_pools self ++ [(name, lending_pool)]).*1))
  /\ (~ accepted -> created = Raise (Builtin AssertionError) self).
Proof.
  intros accepted created. subst accepted created.
  unfold protocol.create_lending_pool, protocol.dict_contains.
  unfold_monad. cbn.
  split.
  - intros (Hn & H1 & H2 & H3 & H4 & H5 & H6 & H7 & H8 & H9).
    apply dict_get_absent in Hn. rewrite Hn. cbn.
    apply Qle_bool_iff in H1, H3, H6, H8. apply Z.leb_le in H2, H4, H5.
    apply Qltb_lt in H7, H9.
    rewrite H1. cbn. rewrite H2. cbn. rewrite H3. cbn. rewrite H4. cbn.
    rewrite H5. cbn. rewrite H6. cbn. rewrite H7. cbn. rewrite H8. cbn.
    rewrite H9. cbn.
    eexists. split.
    { unfold protocol.set_total_lending_pools, protocol.set_lending_pools. cbn.
      rewrite (dict_set_absent _ _ _ Hn). reflexivity. }
    repeat split.
    intros Hnd. rewrite fmap_app. cbn. apply NoDup_app.
    split; [exact Hnd|]. split.
    + intros x Hx Hx'. apply list_elem_of_singleton in Hx'. subst x.
      apply dict_get_absent in Hn. contradiction.
    + apply NoDup_singleton.
  - intros Hno.
    destruct (protocol.dict_get (protocol._lending_pools self) name) eqn:Hn;
      [reflexivity|]. cbn.
    destruct (Qle_bool 0 min_loan_amount) eqn:H1; [cbn|reflexivity].
    destruct (0 <=? min_loan_period_seconds) eqn:H2; [cbn|reflexivity].
    destruct (Qle_bool 0 min_position_size) eqn:H3; [cbn|reflexivity].
    destruct (0 <=? genesis_period_seconds) eqn:H4; [cbn|reflexivity].
    destruct (0 <=? running_period_seconds) eqn:H5; [cbn|reflexivity].
    destruct (Qle_bool 0 min_liquidity) eqn:H6; [cbn|reflexivity].
    destruct (Qltb 0 max_ltv) eqn:H7; [cbn|reflexivity].
    destruct (Qle_bool max_ltv 1) eqn:H8; [cbn|reflexivity].
    destruct (Qltb 0 max_liquidity) eqn:H9; [cbn|reflexivity].
    exfalso. apply Hno.
    apply dict_get_absent in Hn.
    apply Qle_bool_iff in H1, H3, H6, H8. apply Z.leb_le in H2, H4, H5.
    apply Qltb_lt in H7, H9. repeat split; assumption.
Qed.

Lemma create_lending_pool_spec_witness :
  exists lending_pool,
    protocol.create_lending_pool (scenario.at_second 0) "LendingPool"
      scenario.flat_fee (9 # 10) 1000 0 180 0 0 0 0 protocol.__init__
    = Ok tt {| protocol._total_lending_pools :=
                 protocol._total_lending_pools protocol.__init__ + 1;
               protocol._lending_pools :=
                 protocol._lending_pools protocol.__init__
                 ++ [("LendingPool", lending_pool)] |}
    /\ _status lending_pool = GENESIS.
Proof.
  pose proof (create_lending_pool_spec (scenario.at_second 0) "LendingPool"
                scenario.flat_fee (9 # 10) 1000 0 180 0 0 0 0
                protocol.__init__) as H.
  cbv zeta in H. destruct H as [H _].
  destruct H as (lending_pool & H & _ & Hs & _).
  - split; [intros Hin; inversion Hin|].
    repeat split; vm_compute; (reflexivity || discriminate).
  - exists lending_pool. split; [exact H|exact Hs].
Defined.

#[local] Arguments take_step : simpl never.

(** The loop of the protocol's step, pool by pool. *)
Lemma step_pools_spec (env : Environment) (time_step : timedelta)
    (pools : list (string * LendingPool)) :
  (Forall (fun item => raised (take_step env time_step item.2) = None) pools ->
   protocol.step_pools env time_step pools
   = Ok (concat (events_of env time_step <$> pools))
        (stepped env time_step <$> pools))
  /\ (forall before key lending_pool after e,
        pools = before ++ (key, lending_pool) :: after ->
        Forall (fun item => raised (take_step env time_step item.2) = None)
          before ->
        raised (take_step env time_step lending_pool) = Some e ->
        protocol.step_pools env time_step pools
        = Raise e ((stepped env time_step <$> before)
                   ++ stepped env time_step (key, lending_pool) :: after)).
Proof.
  split.
  - induction 1 as [|[k p] pools Hp Hrest IH]; [reflexivity|].
    cbn in Hp. cbn [protocol.step_pools]. rewrite IH.
    unfold events_of, stepped. cbn.
    destruct (take_step env time_step p); [reflexivity|discriminate Hp].
  - intros before. revert pools.
    induction before as [|[k p] before IH];
      intros pools key lending_pool after e -> Hb He.
    + cbn. unfold stepped. cbn.
      destruct (take_step env time_step lending_pool);
        [discriminate He|]. cbn in He. injection He as ->. reflexivity.
    + apply Forall_cons in Hb as [Hp Hb]. cbn in Hp.
      cbn [app protocol.step_pools].
      rewrite (IH _ key lending_pool after e eq_refl Hb He).
      unfold stepped. cbn.
      destruct (take_step env time_step p); [reflexivity|discriminate Hp].
Qed.

(** X21. The protocol steps its pools in insertion order, each in place.
    When every pool's step returns, the protocol's step returns their
    events concatenated in that order.  When the step of a pool raises,
    the protocol's step raises the same exception, and the pools before it
    have been stepped while the pools after it have not.  In both cases
    names, order and number of the pools and the counter are unchanged. *)
Theorem protocol_take_step_spec (env : Environment) (time_step : timedelta)
    (self : protocol.CoraV1Protocol) :
  let pools := protocol._lending_pools self in
  (Forall (fun item => raised (take_step env time_step item.2) = None) pools ->
   protocol.take_step env time_step self
   = Ok (concat (events_of env time_step <$> pools))
        (protocol.set_lending_pools (stepped env time_step <$> pools) self))
  /\ (forall before key lending_pool after e,
        pools = before ++ (key, lending_pool) :: after ->
        Forall (fun item => raised (take_step env time_step item.2) = None)
          before ->
        raised (take_step env time_step lending_pool) = Some e ->
        protocol.take_step env time_step self
        = Raise e
            (protocol.set_lending_pools
               ((stepped env time_step <$> before)
                ++ stepped env time_step (key, lending_pool) :: after) self))
  /\ (protocol._lending_pools
        (final_state (protocol.take_step env time_step self))).*1
     = pools.*1
  /\ protocol._total_lending_pools
       (final_state (protocol.take_step env time_step self))
     = protocol._total_lending_pools self.
Proof.
  intros pools. subst pools. unfold protocol.take_step, zoom.
  destruct (step_pools_spec env time_step (protocol._lending_pools self))
    as [Hall Hone].
  split; [|split; [|split]].
  - intros H. rewrite (Hall H). reflexivity.
  - intros before key lending_pool after e Hp Hb He.
    rewrite (Hone before key lending_pool after e Hp Hb He). reflexivity.
  - clear Hall Hone.
    assert (Hk : forall pools,
               (final_state (protocol.step_pools env time_step pools)).*1
               = pools.*1).
    { induction pools as [|[k p] pools IH]; [reflexivity|].
      cbn [protocol.step_pools].
      destruct (take_step env time_step p); [|reflexivity].
      destruct (protocol.step_pools env time_step pools); cbn in *;
        rewrite IH; reflexivity. }
    specialize (Hk (protocol._lending_pools self)).
    destruct (protocol.step_pools env time_step (protocol._lending_pools self));
      exact Hk.
  - destruct (protocol.step_pools env time_step (protocol._lending_pools self));
      reflexivity.
Qed.

Lemma protocol_take_step_spec_witness :
  protocol.take_step (scenario.at_second 30) scenario.minute
    scenario.one_pool_protocol
  = Ok (concat (events_of (scenario.at_second 30) scenario.minute
                  <$> protocol._lending_pools scenario.one_pool_protocol))
       (protocol.set_lending_pools
          (stepped (scenario.at_second 30) scenario.minute
             <$> protocol._lending_pools scenario.one_pool_protocol)
          scenario.one_pool_protocol).
Proof.
  pose proof (protocol_take_step_spec (scenario.at_second 30) scenario.minute
                scenario.one_pool_protocol) as H.
  cbv zeta in H. destruct H as [H _]. apply H.
  assert (Hp : protocol._lending_pools scenario.one_pool_protocol
               = [("LendingPool", scenario.fresh_pool)])
    by (vm_compute; reflexivity).
  rewrite Hp. constructor; [|constructor].
  vm_compute. reflexivity.
Defined.

#[local] Arguments deposit : simpl never.

(** X22. A lender that has not lent yet deposits its amount into the first
    pool of the protocol, and into that one only: its wallet pays the
    amount, its pending deposit in that pool grows by it, every other pool
    is untouched, one [deposit] action is returned, and every later [act]
    does nothing.  While the protocol has no pool the lender does nothing
    and stays ready; with a balance below its amount the deposit raises
    [InsufficientBalanceError] and nothing changes.  After the deposit the
    new values are read back from the world: the balance of the agent's
    wallet, its [_has_lended] flag, the list of pools, and the lender's
    entry of the pending deposits of the first pool; the rest of the
    wallet, of the agent, of the protocol and of the pool is as before. *)
Theorem lender_deposits_once (env env' : Environment)
    (the_protocol : protocol.CoraV1Protocol) (me : agents.CoraLenderAgent) :
  agents._has_lended me = false ->
  let w := {| lender_agent.the_protocol := the_protocol;
              lender_agent.self := me |} in
  (protocol._lending_pools the_protocol = [] ->
   lender_agent.act env w = Ok [] w)
  /\ (forall key lending_pool rest,
        protocol._lending_pools the_protocol = (key, lending_pool) :: rest ->
        (primary_balance (agents.lender_wallet me) < agents.amount me)%Q ->
        lender_agent.act env w = Raise (Named InsufficientBalanceError) w)
  /\ (forall key lending_pool rest,
        protocol._lending_pools the_protocol = (key, lending_pool) :: rest ->
        (agents.amount me <= primary_balance (agents.lender_wallet me))%Q ->
        let wallet := agents.lender_wallet me in
        let p' := pool_after_deposit lending_pool wallet (agents.amount me) in
        let w' :=
          {| lender_agent.the_protocol :=
               protocol.set_lending_pools ((key, p') :: rest) the_protocol;
             lender_agent.self :=
               lender_agent.set_has_lended true
                 (lender_agent.set_lender_wallet
                    (set_primary_balance
                       (primary_balance wallet - agents.amount me)%Q wallet)
                    me) |} in
        let me' := lender_agent.self w' in
        lender_agent.act env w
        = Ok [ {| act_agent_id := agents.lender_id me;
                  act_time := get_time env;
                  act_type := "deposit";
                  act_extra :=
                    [ ("amount", VFloat (agents.amount me));
                      ("lending_pool", VStr (name lending_pool)) ] |} ] w'
        /\ lender_agent.act env' w' = Ok [] w'
        /\ primary_balance (agents.lender_wallet me')
           = (primary_balance wallet - agents.amount me)%Q
        /\ secondary_balance (agents.lender_wallet me')
           = secondary_balance wallet
        /\ address (agents.lender_wallet me') = address wallet
        /\ agents._has_lended me' = true
        /\ agents.lender_id me' = agents.lender_id me
        /\ agents.amount me' = agents.amount me
        /\ protocol._lending_pools (lender_agent.the_protocol w')
           = (key, p') :: rest
        /\ protocol._total_lending_pools (lender_agent.the_protocol w')
           = protocol._total_lending_pools the_protocol
        /\ _pending_deposits p' !! address wallet
           = Some (get_or_zero (_pending_deposits lending_pool)
                     (address wallet) + agents.amount me)%Q
        /\ (forall other, other <> address wallet ->
              _pending_deposits p' !! other
              = _pending_deposits lending_pool !! other)
        /\ name p' = name lending_pool
        /\ _fee_model p' = _fee_model lending_pool
        /\ _max_ltv p' = _max_ltv lending_pool
        /\ _max_liquidity p' = _max_liquidity lending_pool
        /\ _genesis_period p' = _genesis_period lending_pool
        /\ _running_period p' = _running_period lending_pool
        /\ _min_liquidity p' = _min_liquidity lending_pool
        /\ _min_loan_amount p' = _min_loan_amount lending_pool
        /\ _min_load_period p' = _min_load_period lending_pool
        /\ _min_position_size p' = _min_position_size lending_pool
        /\ _status p' = _status lending_pool
        /\ _next_cycle_time p' = _next_cycle_time lending_pool
        /\ _signaled_withdrawals p' = _signaled_withdrawals lending_pool
        /\ _pending_withdrawals p' = _pending_withdrawals lending_pool
        /\ _reclaimed_collateral p' = _reclaimed_collateral lending_pool
        /\ _deposits p' = _deposits lending_pool
        /\ _borrower_loans p' = _borrower_loans lending_pool
        /\ _loans p' = _loans lending_pool
        /\ _utilizations p' = _utilizations lending_pool
        /\ _cycle_history p' = _cycle_history lending_pool
        /\ _total_deposits p' = _total_deposits lending_pool
        /\ _total_collateral_locked p' = _total_collateral_locked lending_pool
        /\ _available_amount p' = _available_amount lending_pool
        /\ _borrowed_amount p' = _borrowed_amount lending_pool
        /\ _total_fees_earned p' = _total_fees_earned lending_pool
        /\ _is_new_cycle p' = _is_new_cycle lending_pool
        /\ _cycle_count p' = _cycle_count lending_pool).
Proof.
  intros Hnot w. subst w.
  split; [|split].
  - intros Hp. unfold lender_agent.act. unfold_monad. cbn.
    rewrite Hnot. cbn. rewrite Hp. reflexivity.
  - intros key lending_pool rest Hp Hbal.
    unfold lender_agent.act, lender_agent.call_deposit, zoom.
    unfold_monad. cbn. rewrite Hnot. cbn. rewrite Hp. cbn.
    rewrite (deposit_short lending_pool (agents.lender_wallet me)
               (agents.amount me) Hbal). cbn.
    destruct the_protocol as [n pools]. cbn in Hp. subst pools.
    destruct me. cbn.
    destruct (decide (key = key)); [reflexivity|contradiction].
  - intros key lending_pool rest Hp Hbal wallet p' w' me'.
    subst me' w' p' wallet.
    split; [|split].
    + unfold lender_agent.act, lender_agent.call_deposit, zoom.
      unfold_monad. cbn. rewrite Hnot. cbn. rewrite Hp. cbn.
      rewrite (deposit_run lending_pool (agents.lender_wallet me)
                 (agents.amount me) Hbal). cbn.
      rewrite Hp. cbn.
      destruct (decide (key = key)); [reflexivity|contradiction].
    + unfold lender_agent.act. unfold_monad. reflexivity.
    + repeat match goal with |- _ /\ _ => split end; try reflexivity.
      * cbn. apply lookup_insert_eq.
      * intros other Hne. cbn. apply lookup_insert_ne. congruence.
Qed.

(** The lender of the scenario, with a balance of 1000 and an amount of
    500, in the protocol with the one fresh pool. *)
Lemma lender_deposits_once_witness :
  exists actions w' p' v,
    lender_agent.act (scenario.at_second 30)
      {| lender_agent.the_protocol := scenario.one_pool_protocol;
         lender_agent.self := scenario.new_lender |}
    = Ok actions w'
    /\ length actions = 1%nat
    /\ lender_agent.act (scenario.at_second 90) w' = Ok [] w'
    /\ (primary_balance (agents.lender_wallet scenario.new_lender) == 1000)%Q
    /\ (primary_balance (agents.lender_wallet (lender_agent.self w')) == 500)%Q
    /\ agents._has_lended (lender_agent.self w') = true
    /\ protocol._lending_pools (lender_agent.the_protocol w')
       = [("LendingPool", p')]
    /\ _pending_deposits scenario.fresh_pool !! "mock_address" = None
    /\ _pending_deposits p' !! "mock_address" = Some v
    /\ (v == 500)%Q.
Proof.
  pose proof (lender_deposits_once (scenario.at_second 30)
                (scenario.at_second 90) scenario.one_pool_protocol
                scenario.new_lender) as H.
  cbv zeta in H. destruct H as (_ & _ & H); [reflexivity|].
  destruct (H "LendingPool" scenario.fresh_pool [])
    as (H1 & H2 & _ & _ & _ & H3 & _ & _ & H4 & _ & H5 & _).
  - vm_compute. reflexivity.
  - vm_compute. discriminate.
  - eexists _, _, _, _. split; [exact H1|]. split; [reflexivity|].
    split; [exact H2|]. split; [vm_compute; reflexivity|].
    split; [vm_compute; reflexivity|]. split; [exact H3|].
    split; [exact H4|]. split; [vm_compute; reflexivity|].
    split; [exact H5|]. vm_compute. reflexivity.
Defined.

(** ** The borrower agent after it has borrowed *)



(** X23. A borrower that has borrowed and decided does nothing any more,
    and one that has not borrowed does nothing before its loan start.  A
    borrower that has borrowed, has not decided yet and is within its
    repay margin of the planned end of the loan, and whose collateral is
    worth no more than the debt at the current price, lets the loan
    expire: no pool is touched, one [let_expire] action is returned and
    the decision is final.  Of the agent only [_has_expired] changes, and
    it reads [true] afterwards; at every later time the agent does
    nothing. *)
Theorem borrower_lets_expire (env : Environment) (w : agents.World) :
  let me := agents.self w in
  (agents._has_borrowed me = true -> agents._has_expired me = true ->
   agents.act env w = Ok [] w)
  /\ (agents._has_borrowed me = false ->
      get_time env < agents.loan_start me ->
      agents.act env w = Ok [] w)
  /\ (forall the_loan env',
        agents._has_borrowed me = true ->
        agents._has_expired me = false ->
        agents.loan me = Some the_loan ->
        agents.loan_start me + agents.loan_duration me - agents.repay_margin me
        <= get_time env ->
        (collateral_amount the_loan * get_price env <= total_debt the_loan)%Q ->
        let w' := {| agents._lending_pools := agents._lending_pools w;
                     agents.self := agents.set_has_expired true me |} in
        let me' := agents.self w' in
        agents.act env w
        = Ok [ {| act_agent_id := agents.id me;
                  act_time := get_time env;
                  act_type := "let_expire";
                  act_extra :=
                    [ ("collateral_value",
                       VFloat (collateral_amount the_loan * get_price env));
                      ("loan_debt", VFloat (total_debt the_loan));
                      ("loan_fee", VFloat (borrowing_fee the_loan));
                      ("lending_pool", VStr (agents.lending_pool_name me));
                      ("loan_id", VStr (loan_id the_loan)) ] |} ] w'
        /\ agents.act env' w' = Ok [] w'
        /\ agents._has_expired me' = true
        /\ agents._has_borrowed me' = true
        /\ agents.loan me' = Some the_loan
        /\ agents.borrower_wallet me' = agents.borrower_wallet me
        /\ agents.id me' = agents.id me
        /\ agents.lending_pool_name me' = agents.lending_pool_name me
        /\ agents.loan_size me' = agents.loan_size me
        /\ agents.loan_start me' = agents.loan_start me
        /\ agents.loan_duration me' = agents.loan_duration me
        /\ agents.ltv me' = agents.ltv me
        /\ agents.repay_margin me' = agents.repay_margin me
        /\ agents._lending_pools w' = agents._lending_pools w).
Proof.
  intros me. subst me.
  assert (Hdone : forall e x,
             agents._has_borrowed (agents.self x) = true ->
             agents._has_expired (agents.self x) = true ->
             agents.act e x = Ok [] x).
  { intros e x Hb He.
    unfold agents.act, agents.ask_for_loan, agents.return_loan.
    unfold_monad. cbn. rewrite Hb. cbn. rewrite andb_false_r. cbn.
    rewrite Hb, He. cbn. rewrite andb_false_r. reflexivity. }
  split; [|split].
  - apply Hdone.
  - intros Hb Ht. apply Z.leb_gt in Ht.
    unfold agents.act, agents.ask_for_loan, agents.return_loan.
    unfold_monad. cbn. rewrite Ht. cbn. rewrite Hb. cbn. reflexivity.
  - intros the_loan env' Hb He Hl Hdue Hval w' me'. subst me' w'.
    split; [|split].
    + apply Z.leb_le in Hdue. apply Qltb_ge in Hval.
      unfold agents.act, agents.ask_for_loan, agents.return_loan,
        agents.get_loan, agents.on_self.
      unfold_monad. cbn. rewrite Hb. cbn. rewrite andb_false_r. cbn.
      rewrite Hb, He, Hdue. cbn. rewrite Hl. cbn. rewrite Hval. cbn.
      reflexivity.
    + apply Hdone; [exact Hb|reflexivity].
    + cbn. repeat split; try reflexivity; assumption.
Qed.

(** The borrower of the scenario holds a loan of 100 on a tenth of a unit
    of collateral and is due to decide at second 100.  At a price of 900
    the collateral is worth 90: the borrower lets the loan expire. *)
Lemma borrower_lets_expire_witness :
  let env := {| get_time := timedelta_of_seconds 100; get_price := 900 |} in
  exists actions w',
    agents._has_borrowed (agents.self scenario.borrowed_world) = true
    /\ agents._has_expired (agents.self scenario.borrowed_world) = false
    /\ agents.act env scenario.borrowed_world = Ok actions w'
    /\ act_type <$> actions = ["let_expire"]
    /\ agents._has_expired (agents.self w') = true
    /\ agents._has_borrowed (agents.self w') = true
    /\ agents._lending_pools w' = agents._lending_pools scenario.borrowed_world
    /\ agents.act (scenario.at_second 160) w' = Ok [] w'.
Proof.
  cbv zeta.
  pose (l := agents.loan (agents.self scenario.borrowed_world)).
  vm_compute in l.
  pose proof (borrower_lets_expire
                {| get_time := timedelta_of_seconds 100; get_price := 900 |}
                scenario.borrowed_world) as H.
  cbv zeta in H. destruct H as (_ & _ & H).
  lazymatch eval unfold l in l with
  | Some ?loan =>
      destruct (H loan (scenario.at_second 160))
        as (Hact & Hlater & Hexp & Hbor & _ & _ & _ & _ & _ & _ & _ & _ & _
            & Hpools)
  end.
  - vm_compute. reflexivity.
  - vm_compute. reflexivity.
  - vm_compute. reflexivity.
  - vm_compute. discriminate.
  - vm_compute. discriminate.
  - eexists _, _. split; [vm_compute; reflexivity|].
    split; [vm_compute; reflexivity|]. split; [exact Hact|].
    split; [reflexivity|]. split; [exact Hexp|]. split; [exact Hbor|].
    split; [exact Hpools|exact Hlater].
Defined.



(** ** The loan lists of the metrics *)

Lemma Qsum_acc (l : list Q) (a : Q) :
  (fold_left Qplus l a == a + Qsum l)%Q.
Proof.
  unfold Qsum. revert a. induction l as [|x l IH]; intros a; cbn.
  - ring.
  - rewrite (IH (a + x)%Q), (IH (0 + x)%Q). ring.
Qed.

Lemma Qsum_cons (x : Q) (l : list Q) : (Qsum (x :: l) == x + Qsum l)%Q.
Proof. unfold Qsum at 1. cbn. rewrite Qsum_acc. ring. Qed.

Lemma Qsum_filter_split {A} (f : A -> Q) (P : A -> bool) (l : list A) :
  (Qsum (f <$> l)
   == Qsum (f <$> List.filter P l)
      + Qsum (f <$> List.filter (fun x => negb (P x)) l))%Q.
Proof.
  induction l as [|x l IH]; [reflexivity|].
  cbn [List.filter]. rewrite fmap_cons, Qsum_cons, IH.
  destruct (P x); cbn [negb]; rewrite fmap_cons, Qsum_cons; ring.
Qed.

Lemma Qsum_le {A} (f g : A -> Q) (l : list A) :
  (forall x, (f x <= g x)%Q) -> (Qsum (f <$> l) <= Qsum (g <$> l))%Q.
Proof.
  intros H. induction l as [|x l IH]; [apply Qle_refl|].
  rewrite !fmap_cons, !Qsum_cons. specialize (H x). lra.
Qed.

Lemma Qsum_sub {A} (f g : A -> Q) (l : list A) :
  (Qsum ((fun x => f x - g x)%Q <$> l) == Qsum (f <$> l) - Qsum (g <$> l))%Q.
Proof.
  induction l as [|x l IH]; [reflexivity|].
  rewrite !fmap_cons, !Qsum_cons, IH. ring.
Qed.

Lemma Qsum_scale {A} (f : A -> Q) (c : Q) (l : list A) :
  (Qsum ((fun x => c * f x)%Q <$> l) == Qsum (f <$> l) * c)%Q.
Proof.
  induction l as [|x l IH]; [reflexivity|].
  rewrite !fmap_cons, !Qsum_cons, IH. ring.
Qed.

Lemma filter_filter_comm {A} (P R : A -> bool) (l : list A) :
  List.filter P (List.filter R l) = List.filter R (List.filter P l).
Proof.
  induction l as [|x l IH]; cbn; [reflexivity|].
  destruct (R x) eqn:ER; destruct (P x) eqn:EP; cbn;
    rewrite ?ER, ?EP, IH; reflexivity.
Qed.

Lemma filter_length_split {A} (P : A -> bool) (l : list A) :
  length l
  = (length (List.filter P l)
     + length (List.filter (fun x => negb (P x)) l))%nat.
Proof.
  induction l as [|x l IH]; cbn; [reflexivity|].
  destruct (P x); cbn; lia.
Qed.

(** The defaulted loans are the unpaid loans that have expired. *)
Lemma defaulted_loans_unpaid (env : Environment) (loans : list Loan) :
  metrics.defaulted_loans env loans
  = List.filter (fun loan => is_expired loan env) (metrics.unpaid_loans loans).
Proof.
  unfold metrics.defaulted_loans, metrics.expired_loans, metrics.unpaid_loans.
  apply filter_filter_comm.
Qed.

(** X25. Of the loan lists of the metrics, the expired loans are the
    repaid and the defaulted ones, and the unpaid loans the active and the
    defaulted ones.  A loan that was repaid and has not reached its
    expiration is in none of the lists active, defaulted and repaid: the
    number of loans is the sum of the three counts and of the number of
    such loans. *)
Theorem loan_lists_partition (env : Environment) (loans : list Loan) :
  length (metrics.expired_loans env loans)
  = (length (metrics.repaid_loans env loans)
     + length (metrics.defaulted_loans env loans))%nat
  /\ length (metrics.unpaid_loans loans)
     = (length (metrics.active_loans env loans)
        + length (metrics.defaulted_loans env loans))%nat
  /\ length loans
     = (length (metrics.active_loans env loans)
        + length (metrics.defaulted_loans env loans)
        + length (metrics.repaid_loans env loans)
        + length (List.filter
                    (fun loan => paid loan && negb (is_expired loan env))
                    loans))%nat
  /\ (forall loan,
        paid loan = true -> is_expired loan env = false ->
        ~ In loan (metrics.active_loans env loans)
        /\ ~ In loan (metrics.defaulted_loans env loans)
        /\ ~ In loan (metrics.repaid_loans env loans)).
Proof.
  split; [|split; [|split]].
  - unfold metrics.repaid_loans, metrics.defaulted_loans.
    apply (filter_length_split (fun loan => paid loan)).
  - rewrite defaulted_loans_unpaid. unfold metrics.active_loans.
    rewrite (filter_length_split (fun loan => is_expired loan env)
               (metrics.unpaid_loans loans)).
    lia.
  - unfold metrics.active_loans, metrics.defaulted_loans, metrics.repaid_loans,
      metrics.expired_loans, metrics.unpaid_loans.
    induction loans as [|loan loans IH]; [reflexivity|].
    cbn [List.filter length].
    destruct (paid loan) eqn:Ep; destruct (is_expired loan env) eqn:Ee;
      cbn [negb andb List.filter length]; rewrite ?Ep, ?Ee;
      cbn [negb andb List.filter length]; lia.
  - intros loan Hpaid Hexp.
    unfold metrics.active_loans, metrics.defaulted_loans, metrics.repaid_loans,
      metrics.expired_loans, metrics.unpaid_loans.
    rewrite !filter_In. rewrite Hpaid, Hexp. cbn.
    repeat split; intros H; decompose [and] H; discriminate.
Qed.

(** X26. The [pool_pnl] of [end_of_simulation] is the [pool_realized_pnl]
    of [by_step] plus, for every loan that is still active, its collateral
    at the current price less the amount lent: the two agree when no loan
    is active.  As the unrealized pnl counts an active loan at the smaller
    of its collateral value and its debt, [pool_pnl] is never below
    [pool_unrealized_pnl]. *)
Theorem pool_pnl_decomposition (env : Environment) (loans : list Loan) :
  (metrics.pool_pnl env loans
   == metrics.pool_realized_pnl env loans
      + Qsum ((fun loan =>
                 get_price env * collateral_amount loan - net_loan loan)%Q
              <$> metrics.active_loans env loans))%Q
  /\ (metrics.active_loans env loans = [] ->
      (metrics.pool_pnl env loans == metrics.pool_realized_pnl env loans)%Q)
  /\ (metrics.pool_unrealized_pnl env loans <= metrics.pool_pnl env loans)%Q.
Proof.
  assert (Hdec : (metrics.pool_pnl env loans
                  == metrics.pool_realized_pnl env loans
                     + Qsum ((fun loan =>
                                get_price env * collateral_amount loan
                                - net_loan loan)%Q
                             <$> metrics.active_loans env loans))%Q).
  { unfold metrics.pool_pnl, metrics.pool_realized_pnl.
    rewrite defaulted_loans_unpaid. unfold metrics.active_loans.
    set (unpaid := metrics.unpaid_loans loans).
    rewrite (Qsum_filter_split net_loan (fun loan => is_expired loan env) unpaid).
    rewrite (Qsum_filter_split collateral_amount
               (fun loan => is_expired loan env) unpaid).
    rewrite (Qsum_sub (fun loan => get_price env * collateral_amount loan)%Q
               net_loan).
    rewrite (Qsum_scale collateral_amount (get_price env)).
    ring. }
  split; [exact Hdec|]. split.
  - intros Hnone. rewrite Hdec, Hnone. cbn. ring.
  - rewrite Hdec. unfold metrics.pool_unrealized_pnl.
    assert (Hle : (Qsum ((fun loan =>
                            metrics.py_min
                              (get_price env * collateral_amount loan)
                              (total_debt loan) - net_loan loan)%Q
                         <$> metrics.active_loans env loans)
                   <= Qsum ((fun loan =>
                               get_price env * collateral_amount loan
                               - net_loan loan)%Q
                            <$> metrics.active_loans env loans))%Q).
    { apply Qsum_le. intros loan. unfold metrics.py_min.
      destruct (Qltb _ _) eqn:E; [apply Qltb_lt in E; lra|lra]. }
    lra.
Qed.

(** ** The order in which the agents act *)

Lemma insert_by_front {A} (key : A -> Z) (x : A) (l : list A) :
  Forall (fun y => key x <= key y) l ->
  state.insert_by key x l = x :: l.
Proof.
  intros H. destruct H as [|y l Hy Hl]; [reflexivity|].
  cbn. apply Z.leb_le in Hy. rewrite Hy. reflexivity.
Qed.

Lemma insert_by_skip {A} (key : A -> Z) (x : A) (l1 l2 : list A) :
  Forall (fun y => key y < key x) l1 ->
  state.insert_by key x (l1 ++ l2) = l1 ++ state.insert_by key x l2.
Proof.
  induction 1 as [|y l1 Hy Hl IH]; [reflexivity|].
  cbn. apply Z.leb_gt in Hy. rewrite Hy, IH. reflexivity.
Qed.

Lemma Forall_filter_bool {A} (P : A -> bool) (R : A -> Prop) (l : list A) :
  (forall x, P x = true -> R x) -> Forall R (List.filter P l).
Proof.
  intros H. apply Forall_forall. intros x Hx.
  apply list_elem_of_In, filter_In in Hx as [_ Hx]. apply H, Hx.
Qed.

(** X27. The agents act pool managers first, then lenders, then
    borrowers, and within each group in the order of the agent list; no
    agent list at all gives no agent. *)
Theorem agents_by_priority_groups (agents : list agents.Agent) :
  state._agents_by_priority (Some agents)
  = List.filter is_pool_manager agents
    ++ List.filter is_lender agents
    ++ List.filter agents.is_borrower agents
  /\ state._agents_by_priority None = [].
Proof.
  split; [|reflexivity]. unfold state._agents_by_priority, state.sorted_by.
  induction agents as [|agent agents IH]; [reflexivity|].
  cbn [foldr]. rewrite IH. clear IH.
  set (M := List.filter is_pool_manager agents).
  set (L := List.filter is_lender agents).
  set (B := List.filter agents.is_borrower agents).
  assert (HM : Forall (fun y => state.get_priority y = 0) M).
  { apply Forall_filter_bool. intros [] H; (reflexivity || discriminate). }
  assert (HL : Forall (fun y => state.get_priority y = 1) L).
  { apply Forall_filter_bool. intros [] H; (reflexivity || discriminate). }
  assert (HB : Forall (fun y => state.get_priority y = 2) B).
  { apply Forall_filter_bool. intros [] H; (reflexivity || discriminate). }
  destruct agent as [m|l|b]; cbn [List.filter is_pool_manager is_lender
                                   agents.is_borrower]; fold M L B.
  - apply insert_by_front. rewrite !Forall_app. cbn.
    repeat split; (eapply Forall_impl; [eassumption|]); cbn; intros; lia.
  - rewrite insert_by_skip
      by (eapply Forall_impl; [exact HM|]; cbn; intros; lia).
    rewrite insert_by_front; [reflexivity|].
    rewrite Forall_app. cbn.
    split; (eapply Forall_impl; [eassumption|]); cbn; intros; lia.
  - rewrite insert_by_skip
      by (eapply Forall_impl; [exact HM|]; cbn; intros; lia).
    rewrite insert_by_skip
      by (eapply Forall_impl; [exact HL|]; cbn; intros; lia).
    rewrite insert_by_front; [reflexivity|].
    eapply Forall_impl; [exact HB|]. cbn. intros. lia.
Qed.

(** ** The range of a market chart request *)

(** X28. [get_data] raises [GranularityException] exactly when the two
    timestamps are more than 90 days apart by
    [get_days_between_unix_timestamps].  It moves the start back by a day
    and a second exactly for the ranges that run forward for less than a
    day, a range that runs backwards is sent as it is, and every range
    that is sent measures between 1 and 90 days. *)
Theorem get_data_range_spec (start end_ : Z) :
  (CoinGeckoMarketChart.get_data_range start end_ = None
   <-> 90 < market_chart.get_days_between_unix_timestamps start end_)
  /\ forall from to,
       CoinGeckoMarketChart.get_data_range start end_ = Some (from, to) ->
       to = end_
       /\ (0 <= end_ - start < 86400 -> from = start - 86401)
       /\ (~ 0 <= end_ - start < 86400 -> from = start)
       /\ 1 <= market_chart.get_days_between_unix_timestamps from to <= 90.
Proof.
  unfold CoinGeckoMarketChart.get_data_range,
    market_chart.get_days_between_unix_timestamps.
  change (86400 + 1) with 86401.
  pose proof (Z.div_mod (end_ - start) 86400 ltac:(lia)) as Hq.
  pose proof (Z.mod_pos_bound (end_ - start) 86400 ltac:(lia)) as Hr.
  pose proof (Z.div_mod (end_ - (start - 86401)) 86400 ltac:(lia)) as Hq'.
  pose proof (Z.mod_pos_bound (end_ - (start - 86401)) 86400 ltac:(lia)) as Hr'.
  set (q := (end_ - start) / 86400) in *.
  set (r := (end_ - start) mod 86400) in *.
  destruct (Z.ltb_spec 90 (Z.abs q)) as [Hfar|Hnear].
  - split; [split; [intros _; exact Hfar|reflexivity]|].
    intros from to H. discriminate H.
  - split; [split; [discriminate|intros H; lia]|].
    intros from to H.
    destruct (Z.ltb_spec (Z.abs q) 1) as [Hshort|Hlong];
      injection H as <- <-.
    + set (q' := (end_ - (start - 86401)) / 86400) in *.
      set (r' := (end_ - (start - 86401)) mod 86400) in *.
      repeat split; intros; lia.
    + fold q. repeat split; intros; lia.
Qed.

(** ** The price at a timestamp *)

Lemma searchsorted_right_partition (before after : list Z) (t : Z) :
  Forall (fun x => x <= t) before ->
  match after with
  | [] => True
  | x :: _ => t < x
  end ->
  HistoricalCoraEnvironment.searchsorted_right (before ++ after) t
  = Z.of_nat (length before).
Proof.
  intros Hb Ha. induction Hb as [|x before Hx Hb IH].
  - destruct after as [|y after]; [reflexivity|].
    cbn. apply Z.leb_gt in Ha. rewrite Ha. reflexivity.
  - cbn [app HistoricalCoraEnvironment.searchsorted_right length].
    apply Z.leb_le in Hx. rewrite Hx, IH. lia.
Qed.

(** X29. The price of the historical environment at a timestamp is the
    price of the last item of the price data that is not later than the
    timestamp, when the items before it are not later either and all the
    items after it are; it is the price of the first item when every item
    is later, and asking an environment without price data raises
    [IndexError]. *)
Theorem historical_price_lookup
    (_price_data : list HistoricalCoraEnvironment.PriceDataItem)
    (timestamp : Z) :
  (_price_data = [] ->
   HistoricalCoraEnvironment.get_searchsorted_price_for_timestamp _price_data
     timestamp = inl IndexError)
  /\ (forall first rest,
        _price_data = first :: rest ->
        Forall (fun x => timestamp < HistoricalCoraEnvironment.time x)
          _price_data ->
        HistoricalCoraEnvironment.get_searchsorted_price_for_timestamp
          _price_data timestamp
        = inr (HistoricalCoraEnvironment.price first))
  /\ (forall before item after,
        _price_data = before ++ item :: after ->
        Forall (fun x => HistoricalCoraEnvironment.time x <= timestamp)
          before ->
        HistoricalCoraEnvironment.time item <= timestamp ->
        Forall (fun x => timestamp < HistoricalCoraEnvironment.time x)
          after ->
        HistoricalCoraEnvironment.get_searchsorted_price_for_timestamp
          _price_data timestamp
        = inr (HistoricalCoraEnvironment.price item)).
Proof.
  unfold HistoricalCoraEnvironment.get_searchsorted_price_for_timestamp,
    HistoricalCoraEnvironment._previous_interp.
  split; [|split].
  - intros ->. reflexivity.
  - intros first rest -> Hall. apply Forall_cons in Hall as [Hlt _]. cbn.
    apply Z.leb_gt in Hlt. rewrite Hlt. reflexivity.
  - intros before item after -> Hb Hi Ha.
    assert (Hs : HistoricalCoraEnvironment.searchsorted_right
                   (HistoricalCoraEnvironment.time
                      <$> (before ++ item :: after)) timestamp
                 = Z.of_nat (length before) + 1).
    { replace (before ++ item :: after) with ((before ++ [item]) ++ after)
        by (rewrite <- app_assoc; reflexivity).
      rewrite fmap_app.
      rewrite (searchsorted_right_partition
                 (HistoricalCoraEnvironment.time <$> (before ++ [item]))
                 (HistoricalCoraEnvironment.time <$> after) timestamp).
      - rewrite length_fmap, length_app. cbn [length]. lia.
      - rewrite fmap_app, Forall_app. split.
        + apply Forall_fmap. exact Hb.
        + repeat constructor. exact Hi.
      - destruct Ha as [|next after Hn _]; [exact I|exact Hn]. }
    rewrite Hs.
    replace (Z.to_nat (Z.max (Z.of_nat (length before) + 1 - 1) 0))
      with (length before) by lia.
    rewrite list_lookup_fmap, list_lookup_middle by reflexivity.
    reflexivity.
Qed.

Lemma historical_price_lookup_witness :
  HistoricalCoraEnvironment.get_searchsorted_price_for_timestamp
    ([ {| HistoricalCoraEnvironment.time := 3600;
          HistoricalCoraEnvironment.price := 2000 |} ]
     ++ {| HistoricalCoraEnvironment.time := 7200;
           HistoricalCoraEnvironment.price := 2100 |}
        :: [ {| HistoricalCoraEnvironment.time := 10800;
                HistoricalCoraEnvironment.price := 1900 |} ])
    8000
  = inr 2100%Q.
Proof.
  pose proof (historical_price_lookup
                ([ {| HistoricalCoraEnvironment.time := 3600;
                      HistoricalCoraEnvironment.price := 2000 |} ]
                 ++ {| HistoricalCoraEnvironment.time := 7200;
                       HistoricalCoraEnvironment.price := 2100 |}
                    :: [ {| HistoricalCoraEnvironment.time := 10800;
                            HistoricalCoraEnvironment.price := 1900 |} ])
                8000) as (_ & _ & H).
  apply (H [ {| HistoricalCoraEnvironment.time := 3600;
                HistoricalCoraEnvironment.price := 2000 |} ]
           {| HistoricalCoraEnvironment.time := 7200;
              HistoricalCoraEnvironment.price := 2100 |}
           [ {| HistoricalCoraEnvironment.time := 10800;
                HistoricalCoraEnvironment.price := 1900 |} ]).
  - reflexivity.
  - repeat constructor. cbn. lia.
  - cbn. lia.
  - repeat constructor.
Defined.

(** ** The borrowers that the first strategy creates for a new cycle *)

Section BorrowerDemand.

Variable Rng : Type.
Variable loan_size_dist : M Rng Q.
Variable loan_start_dist : M Rng Q.
Variable loan_duration_dist : M Rng Q.
Variable ltv_dist : M Rng Q.

Local Abbreviation Strategy := (CoraV1StrategyBorrowers.Strategy Rng).
Local Abbreviation create_loop :=
  (CoraV1StrategyBorrowers.create_loop Rng loan_size_dist loan_start_dist
     loan_duration_dist ltv_dist).
Local Abbreviation sample := (CoraV1StrategyBorrowers.sample Rng).
Local Abbreviation counter := (CoraV1StrategyBorrowers.borrower_counter Rng).

Lemma sample_inv (dist : M Rng Q) (s s1 : Strategy) (x : Q) :
  sample dist s = Ok x s1 ->
  exists r, dist (CoraV1StrategyBorrowers.rng Rng s) = Ok x r
            /\ s1 = CoraV1StrategyBorrowers.set_rng Rng r s.
Proof.
  unfold CoraV1StrategyBorrowers.sample, zoom.
  destruct (dist _) as [y r|e r]; [|discriminate].
  intros H. injection H as <- <-. exists r. split; reflexivity.
Qed.

Lemma create_loop_spec (env : Environment) (lending_pool : LendingPool)
    (time_step : timedelta) (target : Q) (fuel : nat) :
  forall (total : Q) (acc : list agents.CoraBorrowerAgent) (s s' : Strategy)
         (result : list agents.CoraBorrowerAgent),
    create_loop fuel env lending_pool time_step target total acc s
    = Ok (Some result) s' ->
    exists created,
      result = acc ++ created
      /\ (created <> [] ->
          (total + Qsum (agents.loan_size <$> created) <= target)%Q)
      /\ Forall (created_for lending_pool time_step
                   (CoraV1StrategyBorrowers.max_ltv Rng s)) created
      /\ counter s' = (counter s + length created)%nat
      /\ agents.id <$> created
         = (fun i => "borrower_"
                     +:+ CoraV1StrategyBorrowers.format_06d (counter s + i))
           <$> seq 0 (length created)
      /\ CoraV1StrategyBorrowers.utilization_parameter Rng s'
         = CoraV1StrategyBorrowers.utilization_parameter Rng s
      /\ CoraV1StrategyBorrowers.max_ltv Rng s'
         = CoraV1StrategyBorrowers.max_ltv Rng s.
Proof.
  induction fuel as [|fuel IH]; intros total acc s s' result H.
  - discriminate H.
  - cbn [CoraV1StrategyBorrowers.create_loop] in H.
    apply bind_Ok in H as (size & s1 & H1 & H).
    apply sample_inv in H1 as (r1 & _ & ->).
    destruct (Qltb target (total + size)) eqn:Ebreak.
    + injection H as <- <-. exists []. rewrite app_nil_r.
      split; [reflexivity|]. split; [intros Hne; contradiction|].
      split; [constructor|]. split; [cbn; lia|].
      repeat split.
    + apply Qltb_ge in Ebreak.
      apply bind_Ok in H as (n & s2 & H2 & H).
      injection H2 as <- <-.
      apply bind_Ok in H as (f_start & s3 & H3 & H).
      apply sample_inv in H3 as (r3 & _ & ->).
      apply bind_Ok in H as (f_dur & s4 & H4 & H).
      apply sample_inv in H4 as (r4 & _ & ->).
      apply bind_Ok in H as (f_ltv & s5 & H5 & H).
      apply sample_inv in H5 as (r5 & _ & ->).
      apply bind_Ok in H as (mltv & s6 & H6 & H).
      injection H6 as <- <-.
      apply IH in H as (created & -> & Hsum & Hall & Hcount & Hids & Hu & Hm).
      cbn in Hcount, Hids, Hu, Hm, Hall.
      eexists (_ :: created). rewrite <- app_assoc. cbn [app].
      split; [reflexivity|].
      split.
      { intros _. rewrite fmap_cons, Qsum_cons. cbn [agents.loan_size].
        destruct created as [|b created]; [cbn; lra|].
        assert (Hne : b :: created <> []) by discriminate.
        specialize (Hsum Hne). lra. }
      split.
      { constructor; [|exact Hall].
        unfold created_for. cbn.
        repeat split; try reflexivity.
        - destruct (_ <? time_step) eqn:E; [lia|apply Z.ltb_ge in E; exact E].
        - unfold metrics.py_min. destruct (Qltb _ _) eqn:E.
          + apply Qle_refl.
          + apply Qltb_ge in E. exact E. }
      split; [cbn [length]; rewrite Hcount; cbn; lia|].
      split; [|split; assumption].
      rewrite fmap_cons. cbn [length]. cbn [seq]. rewrite fmap_cons.
      cbn [agents.id]. rewrite Nat.add_0_r. f_equal. rewrite Hids.
      rewrite <- fmap_S_seq, <- list_fmap_compose.
      apply list_fmap_ext. intros i x _. cbn.
      replace (counter s + S x)%nat with (S (counter s + x)) by lia.
      reflexivity.
Qed.

Lemma create_loop_total (env : Environment) (lending_pool : LendingPool)
    (time_step : timedelta) (target epsilon : Q) :
  (0 < epsilon)%Q ->
  (forall r, exists x r', loan_size_dist r = Ok x r' /\ (epsilon <= x)%Q) ->
  (forall r, exists x r', loan_start_dist r = Ok x r') ->
  (forall r, exists x r', loan_duration_dist r = Ok x r') ->
  (forall r, exists x r', ltv_dist r = Ok x r') ->
  forall (fuel : nat) (total : Q) (acc : list agents.CoraBorrowerAgent)
         (s : Strategy),
    (target - total < inject_Z (Z.of_nat (S fuel)) * epsilon)%Q ->
    exists result s',
      create_loop (S fuel) env lending_pool time_step target total acc s
      = Ok (Some result) s'.
Proof.
  intros Heps Hsize Hstart Hdur Hltv.
  assert (Hsample : forall (dist : M Rng Q) (s : Strategy) x r',
             dist (CoraV1StrategyBorrowers.rng Rng s) = Ok x r' ->
             sample dist s = Ok x (CoraV1StrategyBorrowers.set_rng Rng r' s)).
  { intros dist s x r' H. unfold CoraV1StrategyBorrowers.sample, zoom.
    rewrite H. reflexivity. }
  induction fuel as [|fuel IH]; intros total acc s Hfuel.
  - cbn [CoraV1StrategyBorrowers.create_loop].
    destruct (Hsize (CoraV1StrategyBorrowers.rng Rng s)) as (x & r' & Hx & Hle).
    erewrite bind_step by (apply Hsample; exact Hx).
    assert (Hb : Qltb target (total + x) = true).
    { apply Qltb_lt. change (inject_Z (Z.of_nat 1)) with 1%Q in Hfuel. lra. }
    rewrite Hb. eexists _, _. reflexivity.
  - cbn [CoraV1StrategyBorrowers.create_loop].
    destruct (Hsize (CoraV1StrategyBorrowers.rng Rng s)) as (x & r' & Hx & Hle).
    erewrite bind_step by (apply Hsample; exact Hx).
    destruct (Qltb target (total + x)) eqn:Hb;
      [eexists _, _; reflexivity|].
    erewrite bind_step by reflexivity.
    set (s2 := CoraV1StrategyBorrowers.set_borrower_counter Rng _ _).
    destruct (Hstart (CoraV1StrategyBorrowers.rng Rng s2)) as (x3 & r3 & H3).
    erewrite bind_step by (apply (Hsample loan_start_dist); exact H3).
    set (s3 := CoraV1StrategyBorrowers.set_rng Rng r3 s2).
    destruct (Hdur (CoraV1StrategyBorrowers.rng Rng s3)) as (x4 & r4 & H4).
    erewrite bind_step by (apply (Hsample loan_duration_dist); exact H4).
    set (s4 := CoraV1StrategyBorrowers.set_rng Rng r4 s3).
    destruct (Hltv (CoraV1StrategyBorrowers.rng Rng s4)) as (x5 & r5 & H5).
    erewrite bind_step by (apply (Hsample ltv_dist); exact H5).
    erewrite bind_step by reflexivity.
    apply IH.
    assert (Hn : (inject_Z (Z.of_nat (S (S fuel)))
                  == inject_Z (Z.of_nat (S fuel)) + 1)%Q).
    { rewrite <- (inject_Z_plus _ 1). apply inject_Z_injective. lia. }
    rewrite Hn in Hfuel. lra.
Qed.

(** X30. [_create_borrower_agents] of the first strategy, whenever its
    loop ends: the loan sizes of the borrowers it creates sum to no more
    than [utilization_parameter * available_amount]; every borrower is
    created for the given pool with the time step as its repay margin, a
    loan duration of at least one time step, an LTV of at most
    [max_ltv - 1e-9], unlimited balances and no loan yet; the ids are
    [borrower_] followed by the next values of the counter, six digits
    wide.  And the loop does end when every sampled loan size is at least
    some positive amount. *)
Theorem create_borrower_agents_budget (env : Environment)
    (lending_pool : LendingPool) (time_step : timedelta) :
  (forall fuel (s s' : Strategy) new_agents,
     CoraV1StrategyBorrowers._create_borrower_agents Rng loan_size_dist
       loan_start_dist loan_duration_dist ltv_dist fuel env lending_pool
       time_step s
     = Ok (Some new_agents) s' ->
     (new_agents <> [] ->
      (Qsum (agents.loan_size <$> new_agents)
       <= CoraV1StrategyBorrowers.utilization_parameter Rng s
          * _available_amount lending_pool)%Q)
     /\ Forall (fun b =>
                  agents.lending_pool_name b = name lending_pool
                  /\ agents.repay_margin b = time_step
                  /\ time_step <= agents.loan_duration b
                  /\ (agents.ltv b
                      <= CoraV1StrategyBorrowers.max_ltv Rng s
                         - (1 # 1000000000))%Q
                  /\ agents._has_borrowed b = false
                  /\ agents.loan b = None
                  /\ primary_balance (agents.borrower_wallet b)
                     = CoraV1StrategyBorrowers.UNLIMITED_BALANCE
                  /\ secondary_balance (agents.borrower_wallet b)
                     = CoraV1StrategyBorrowers.UNLIMITED_BALANCE)
          new_agents
     /\ agents.id <$> new_agents
        = (fun i =>
             "borrower_"
             +:+ CoraV1StrategyBorrowers.format_06d
                   (CoraV1StrategyBorrowers.borrower_counter Rng s + i))
          <$> seq 0 (length new_agents)
     /\ CoraV1StrategyBorrowers.borrower_counter Rng s'
        = (CoraV1StrategyBorrowers.borrower_counter Rng s
           + length new_agents)%nat)
  /\ (forall epsilon,
        (0 < epsilon)%Q ->
        (forall r, exists x r',
            loan_size_dist r = Ok x r' /\ (epsilon <= x)%Q) ->
        (forall r, exists x r', loan_start_dist r = Ok x r') ->
        (forall r, exists x r', loan_duration_dist r = Ok x r') ->
        (forall r, exists x r', ltv_dist r = Ok x r') ->
        forall s : Strategy,
        exists fuel new_agents s',
          CoraV1StrategyBorrowers._create_borrower_agents Rng loan_size_dist
            loan_start_dist loan_duration_dist ltv_dist fuel env lending_pool
            time_step s
          = Ok (Some new_agents) s').
Proof.
  split.
  - intros fuel s s' new_agents H.
    unfold CoraV1StrategyBorrowers._create_borrower_agents in H.
    apply bind_Ok in H as (up & s1 & H1 & H). injection H1 as <- <-.
    apply (create_loop_spec env lending_pool time_step _ fuel) in H
      as (created & -> & Hsum & Hall & Hcount & Hids & _ & _).
    cbn [app]. split.
    { intros Hne. specialize (Hsum Hne). lra. }
    split.
    { eapply Forall_impl; [exact Hall|].
      intros b (H1 & H2 & H3 & H4 & H5 & _ & H7 & _ & H9 & H10).
      repeat split; assumption. }
    split; [exact Hids|exact Hcount].
  - intros epsilon Heps Hsize Hstart Hdur Hltv s.
    set (target := (CoraV1StrategyBorrowers.utilization_parameter Rng s
                    * _available_amount lending_pool)%Q).
    set (fuel := Z.to_nat (Qfloor (target / epsilon) + 1)).
    exists (S fuel).
    unfold CoraV1StrategyBorrowers._create_borrower_agents.
    erewrite bind_step by reflexivity. fold target.
    apply (create_loop_total env lending_pool time_step target epsilon Heps
             Hsize Hstart Hdur Hltv fuel 0 [] s).
    assert (Hfl : (target / epsilon < inject_Z (Qfloor (target / epsilon) + 1))%Q)
      by apply Qlt_floor.
    assert (Hge : (inject_Z (Qfloor (target / epsilon) + 1)
                   <= inject_Z (Z.of_nat (S fuel)))%Q).
    { rewrite <- Zle_Qle. subst fuel. lia. }
    assert (Hlt : (target / epsilon < inject_Z (Z.of_nat (S fuel)))%Q)
      by (eapply Qlt_le_trans; eassumption).
    apply (Qmult_lt_compat_r _ _ epsilon Heps) in Hlt.
    assert (Hte : (target / epsilon * epsilon == target)%Q)
      by (field; lra).
    rewrite Hte in Hlt. lra.
Qed.

End BorrowerDemand.

Lemma create_borrower_agents_budget_witness :
  exists fuel new_agents s',
    CoraV1StrategyBorrowers._create_borrower_agents unit (ret 100%Q)
      (ret (1 # 4)%Q) (ret (1 # 2)%Q) (ret (1 # 2)%Q) fuel
      (scenario.at_second 60) scenario.funded_pool scenario.minute
      {| CoraV1StrategyBorrowers.utilization_parameter := 1 # 2;
         CoraV1StrategyBorrowers.max_ltv := 9 # 10;
         CoraV1StrategyBorrowers.borrower_counter := 0;
         CoraV1StrategyBorrowers.rng := tt |}
    = Ok (Some new_agents) s'.
Proof.
  apply (proj2 (create_borrower_agents_budget unit (ret 100%Q)
                  (ret (1 # 4)%Q) (ret (1 # 2)%Q) (ret (1 # 2)%Q)
                  (scenario.at_second 60) scenario.funded_pool
                  scenario.minute) 100%Q).
  - reflexivity.
  - intros r. exists 100%Q, r. split; [reflexivity|apply Qle_refl].
  - intros r. eexists _, r. reflexivity.
  - intros r. eexists _, r. reflexivity.
  - intros r. eexists _, r. reflexivity.
Defined.
